(** * Single-server FIFO queue simulation: event engine and statistics

    A shallow embedding of the discrete-event engines of the repository
    ([Final.py], [z___ChatGPT.py], [z___Gemini.py], [z___Perplexity.py],
    [z___deepseek.py]) and the properties of their timing routine,
    handlers and accumulators.

    Simulation times are Python floats.  They are modelled as exact
    rationals ([Q]); [math.inf] / [float("inf")] is a separate constructor.
    Rounding and overflow of the float arithmetic are abstracted away. *)

From Stdlib Require Import QArith Qminmax ZArith List Bool Lia Lqa Sorted.
Import ListNotations.

Open Scope Q_scope.

(** ** Times with the infinite sentinel *)

(** The value of a variable such as [next_departure]: a finite time, or
    [math.inf] when nothing is scheduled. *)
Inductive time : Type :=
| Fin (q : Q)
| Inf.

(** [a <= b] on such values, as Python's float comparison decides it. *)
Definition tle (a b : time) : bool :=
  match a, b with
  | Fin x, Fin y => Qle_bool x y
  | Fin _, Inf => true
  | Inf, Fin _ => false
  | Inf, Inf => true
  end.

(** The two kinds of event. *)
Inductive kind : Type :=
| Arrival
| Departure.

Definition kind_eqb (a b : kind) : bool :=
  match a, b with
  | Arrival, Arrival => true
  | Departure, Departure => true
  | _, _ => false
  end.

(** [len(queue)] as a number that multiplies a time difference. *)
Definition len (l : list Q) : Q := inject_Z (Z.of_nat (length l)).

(** [sum(l)], left to right. *)
Definition qsum (l : list Q) : Q := fold_left Qplus l 0.

(** The selection of the next event, written the same way in [Final.py]
    (lines 96-97) and [z___Perplexity.py] (line 108): the arrival when
    [next_arrival <= next_departure], the departure otherwise.  The
    comparison with the infinite sentinel is true for every finite arrival
    time, so the departure branch always carries a finite time. *)
Definition select (na : Q) (nd : time) : kind * Q :=
  match nd with
  | Inf => (Arrival, na)
  | Fin d => if Qle_bool na d then (Arrival, na) else (Departure, d)
  end.

(** The time integral of the step function [Q(t)] described by an event
    history: [Q] is [q0] from time [t0] to the first event, and after an
    event [(ti, qi)] it is [qi] until the next one. *)
Fixpoint integral_Q (t0 q0 : Q) (h : list (Q * Q)) : Q :=
  match h with
  | [] => 0
  | (ti, qi) :: h' => q0 * (ti - t0) + integral_Q ti qi h'
  end.

(** The value at time [x] of that step function (the history's times are
    in increasing order; at the instant of an event the value is the one
    after the event). *)
Fixpoint Q_at (q0 : Q) (h : list (Q * Q)) (x : Q) : Q :=
  match h with
  | [] => q0
  | (ti, qi) :: h' => if Qle_bool ti x then Q_at qi h' x else q0
  end.

(** The integral from [t0] of a function that is constant between the
    consecutive points of a partition [ts]: on each piece, the value at
    its left end times its width. *)
Fixpoint riemann (f : Q -> Q) (t0 : Q) (ts : list Q) : Q :=
  match ts with
  | [] => 0
  | ti :: ts' => f t0 * (ti - t0) + riemann f ti ts'
  end.

(** The times of a history, starting from [t0], never decrease. *)
Fixpoint increasing (t0 : Q) (h : list (Q * Q)) : Prop :=
  match h with
  | [] => True
  | (ti, _) :: h' => t0 <= ti /\ increasing ti h'
  end.

(** A variate source that replays a given list of durations, whatever
    the scale it is asked for ([0] once the list is used up). *)
Definition replay (scale : Q) (g : list Q) : Q * list Q :=
  match g with
  | [] => (0, [])
  | x :: g' => (x, g')
  end.

(** A variate source that counts its calls: the [n]-th call for a mean
    [scale] returns [scale * n]. *)
Definition ramp (scale : Q) (n : nat) : Q * nat :=
  (scale * inject_Z (Z.of_nat (S n)), S n).

(** A variate source that replays a given list of whole durations, whatever
    the scale it is asked for ([0] once the list is used up); it cannot
    return a negative duration. *)
Definition replay_nat (scale : Q) (g : list nat) : Q * list nat :=
  match g with
  | [] => (0, [])
  | x :: g' => (inject_Z (Z.of_nat x), g')
  end.

(** * Final.py *)

Module Final.

(** Module-level parameters of the script. *)
Definition INTERARRIVAL_MEAN : Q := 2.
Definition SERVICE_MEAN : Q := 1.
Definition UPDATE_EVERY : Z := 5.

Section Engine.

(** The generator [rng = np.random.default_rng(SEED)] is opaque to the
    engine: [exponential scale g] is one call [rng.exponential(scale)],
    returning the variate and the generator's next state. *)
Variable gen : Type.
Variable exponential : Q -> gen -> Q * gen.

(** The module-level variables that the main loop reads and writes. *)
Record state : Type := mkState {
  rng : gen;
  t : Q;
  queue : list Q;
  server_busy : bool;
  next_arrival : Q;
  next_departure : time;
  num_arrivals : Z;
  num_served : Z;
  delays : list Q;
  area_Q : Q;
  last_event_time : Q;
  event_counter : Z
}.

(** Lines 24-38: the initial values; the first arrival [A_1] is drawn. *)
Definition init (g : gen) : state :=
  let (A1, g1) := exponential INTERARRIVAL_MEAN g in
  {| rng := g1; t := 0; queue := []; server_busy := false;
     next_arrival := A1; next_departure := Inf;
     num_arrivals := 0; num_served := 0; delays := [];
     area_Q := 0; last_event_time := 0; event_counter := 0 |}.

(** Lines 105-115: the arrival branch, at clock [tn]. *)
Definition arrival (tn area : Q) (s : state) : state :=
  let (A_i, g1) := exponential INTERARRIVAL_MEAN (rng s) in
  if negb (server_busy s) then
    let (S_i, g2) := exponential SERVICE_MEAN g1 in
    {| rng := g2; t := tn; queue := queue s; server_busy := true;
       next_arrival := tn + A_i; next_departure := Fin (tn + S_i);
       num_arrivals := num_arrivals s + 1; num_served := num_served s;
       delays := delays s ++ [0];
       area_Q := area; last_event_time := tn;
       event_counter := event_counter s + 1 |}
  else
    {| rng := g1; t := tn; queue := queue s ++ [tn]; server_busy := true;
       next_arrival := tn + A_i; next_departure := next_departure s;
       num_arrivals := num_arrivals s + 1; num_served := num_served s;
       delays := delays s;
       area_Q := area; last_event_time := tn;
       event_counter := event_counter s + 1 |}.

(** Lines 116-124: the departure branch, at clock [tn].  The service time
    [S_i] is drawn before the queue is tested, also when it is not used. *)
Definition departure (tn area : Q) (s : state) : state :=
  let (S_i, g1) := exponential SERVICE_MEAN (rng s) in
  match queue s with
  | arrival_time :: rest =>
    {| rng := g1; t := tn; queue := rest; server_busy := server_busy s;
       next_arrival := next_arrival s; next_departure := Fin (tn + S_i);
       num_arrivals := num_arrivals s; num_served := num_served s + 1;
       delays := delays s ++ [tn - arrival_time];
       area_Q := area; last_event_time := tn;
       event_counter := event_counter s + 1 |}
  | [] =>
    {| rng := g1; t := tn; queue := []; server_busy := false;
       next_arrival := next_arrival s; next_departure := Inf;
       num_arrivals := num_arrivals s; num_served := num_served s + 1;
       delays := delays s;
       area_Q := area; last_event_time := tn;
       event_counter := event_counter s + 1 |}
  end.

(** The event that the next iteration dispatches. *)
Definition dispatched (s : state) : kind * Q :=
  select (next_arrival s) (next_departure s).

(** Lines 95-126: one iteration of the main loop (the pause and the
    redraw, which do not write the variables above, are left out). *)
Definition step (s : state) : state :=
  let (event_type, t_next) := dispatched s in
  let delta := t_next - last_event_time s in
  let area := area_Q s + len (queue s) * delta in
  match event_type with
  | Arrival => arrival t_next area s
  | Departure => departure t_next area s
  end.

(** The state after [k] iterations. *)
Fixpoint run (k : nat) (s : state) : state :=
  match k with
  | O => s
  | S k' => run k' (step s)
  end.

(** The [(clock, kind)] pairs of the first [k] dispatched events. *)
Fixpoint trace (k : nat) (s : state) : list (Q * kind) :=
  match k with
  | O => []
  | S k' => (snd (dispatched s), fst (dispatched s)) :: trace k' (step s)
  end.

(** The event history of the first [k] iterations: for each processed
    event, its time and the length of the wait line once it is processed. *)
Fixpoint history (k : nat) (s : state) : list (Q * Q) :=
  match k with
  | O => []
  | S k' => (t (step s), len (queue (step s))) :: history k' (step s)
  end.

(** Line 70: [np.mean(delays) if delays else 0.0]. *)
Definition avg_wait (s : state) : Q :=
  match delays s with
  | [] => 0
  | _ :: _ => qsum (delays s) / len (delays s)
  end.

(** Line 77: [area_Q/t if t>0 else 0.0]. *)
Definition time_avg_q (s : state) : Q :=
  if Qle_bool (t s) 0 then 0 else area_Q s / t s.

(** The server flag and the pending departure agree: a busy server has a
    departure scheduled at a finite time; an idle one has none (the
    sentinel) and an empty wait line. *)
Definition sched_ok (s : state) : Prop :=
  if server_busy s then exists d, next_departure s = Fin d
  else next_departure s = Inf /\ queue s = [].

(** Customers in the system = arrivals - departures. *)
Definition conserved (s : state) : Prop :=
  (Z.of_nat (length (queue s)) + (if server_busy s then 1 else 0)
   = num_arrivals s - num_served s)%Z.

(** Every customer who has begun service has one entry in [delays]:
    those who left and the one in service. *)
Definition starts_counted (s : state) : Prop :=
  (Z.of_nat (length (delays s))
   = num_served s + (if server_busy s then 1 else 0))%Z.

(** The clock is the time of the last event, no pending event lies in
    the past and no queued customer arrived in the future. *)
Definition timed (s : state) : Prop :=
  last_event_time s = t s /\
  0 <= t s /\
  t s <= next_arrival s /\
  (forall d, next_departure s = Fin d -> t s <= d) /\
  Forall (fun a => a <= t s) (queue s).

(** The variate source only returns non-negative durations. *)
Definition nonneg_source : Prop :=
  forall scale g, 0 <= scale -> 0 <= fst (exponential scale g).

End Engine.

Arguments rng {gen} _.
Arguments t {gen} _.
Arguments queue {gen} _.
Arguments server_busy {gen} _.
Arguments next_arrival {gen} _.
Arguments next_departure {gen} _.
Arguments num_arrivals {gen} _.
Arguments num_served {gen} _.
Arguments delays {gen} _.
Arguments area_Q {gen} _.
Arguments last_event_time {gen} _.
Arguments event_counter {gen} _.
Arguments dispatched {gen} _.
Arguments avg_wait {gen} _.
Arguments time_avg_q {gen} _.
Arguments init {gen} _.
Arguments sched_ok {gen} _.
Arguments conserved {gen} _.
Arguments starts_counted {gen} _.
Arguments timed {gen} _.
Arguments nonneg_source {gen} _.
Arguments arrival {gen} _.
Arguments departure {gen} _.
Arguments step {gen} _.
Arguments run {gen} _.
Arguments trace {gen} _.
Arguments history {gen} _.

End Final.

(** Two states of the script, possibly over different generators, that
    agree on every variable of the engine and whose generators are
    related by [R]. *)
Definition final_sim {gen1 gen2 : Type} (R : gen1 -> gen2 -> Prop)
  (s1 : Final.state gen1) (s2 : Final.state gen2) : Prop :=
  R (Final.rng s1) (Final.rng s2) /\
  Final.t s1 = Final.t s2 /\
  Final.queue s1 = Final.queue s2 /\
  Final.server_busy s1 = Final.server_busy s2 /\
  Final.next_arrival s1 = Final.next_arrival s2 /\
  Final.next_departure s1 = Final.next_departure s2 /\
  Final.num_arrivals s1 = Final.num_arrivals s2 /\
  Final.num_served s1 = Final.num_served s2 /\
  Final.delays s1 = Final.delays s2 /\
  Final.area_Q s1 = Final.area_Q s2 /\
  Final.last_event_time s1 = Final.last_event_time s2 /\
  Final.event_counter s1 = Final.event_counter s2.

(** * z___Perplexity.py *)

Module Perplexity.

(** [max(0.0, x)]: Python returns the second argument only when it is
    strictly greater than the first. *)
Definition max0 (x : Q) : Q := if Qle_bool x 0 then 0 else x.

(** The local variables of [main] that the loop reads and writes.
    [last_event] is [None] for the string "INIT". *)
Record state : Type := mkState {
  t : Q;
  server_busy : bool;
  q : list Q;
  next_arrival : Q;
  next_departure : time;
  arrivals : Z;
  served : Z;
  sum_wait : Q;
  count_started : Z;
  area_q : Q;
  last_t : Q;
  last_event : option kind;
  ia_i : nat;
  sv_i : nat;
  events : Z
}.

(** How a call of [main] ends: the condition [served < N] became false,
    an index into [A] or [S] was out of range, the size [M] asked from
    the generator was negative, or the model's fuel ran out before any
    of these happened. *)
Inductive outcome : Type :=
| Done (s : state)
| IndexError
| ValueError
| OutOfFuel.

Section Loop.

(** The horizon and the two pre-generated sequences. *)
Variable N : Z.
Variable A : list Q.
Variable S : list Q.

(** Lines 22-38, after [next_arrival = float(A[ia_i]); ia_i += 1]. *)
Definition init (A1 : Q) : state :=
  {| t := 0; server_busy := false; q := [];
     next_arrival := A1; next_departure := Inf;
     arrivals := 0; served := 0; sum_wait := 0; count_started := 0;
     area_q := 0; last_t := 0; last_event := None;
     ia_i := 1; sv_i := 0; events := 0 |}.

(** The event that the next iteration dispatches (line 108). *)
Definition dispatched (s : state) : kind * Q :=
  select (next_arrival s) (next_departure s).

(** Lines 115-129: the arrival branch at clock [te]. [None] is the
    [IndexError] of [A[ia_i]] or [S[sv_i]]. *)
Definition arrival (te area : Q) (s : state) : option state :=
  match nth_error A (ia_i s) with
  | None => None
  | Some a =>
    if negb (server_busy s) then
      match nth_error S (sv_i s) with
      | None => None
      | Some sv =>
        Some {| t := te; server_busy := true; q := q s;
                next_arrival := te + a; next_departure := Fin (te + sv);
                arrivals := arrivals s + 1; served := served s;
                sum_wait := sum_wait s + 0;
                count_started := count_started s + 1;
                area_q := area; last_t := te; last_event := Some Arrival;
                ia_i := Datatypes.S (ia_i s); sv_i := Datatypes.S (sv_i s);
                events := events s + 1 |}
      end
    else
      Some {| t := te; server_busy := true; q := q s ++ [te];
              next_arrival := te + a; next_departure := next_departure s;
              arrivals := arrivals s + 1; served := served s;
              sum_wait := sum_wait s; count_started := count_started s;
              area_q := area; last_t := te; last_event := Some Arrival;
              ia_i := Datatypes.S (ia_i s); sv_i := sv_i s;
              events := events s + 1 |}
  end.

(** Lines 131-147: the departure branch at clock [te]. *)
Definition departure (te area : Q) (s : state) : option state :=
  let served' := (served s + 1)%Z in
  if (N <=? served')%Z then
    Some {| t := te; server_busy := false; q := q s;
            next_arrival := next_arrival s; next_departure := Inf;
            arrivals := arrivals s; served := served';
            sum_wait := sum_wait s; count_started := count_started s;
            area_q := area; last_t := te; last_event := Some Departure;
            ia_i := ia_i s; sv_i := sv_i s; events := events s + 1 |}
  else
    match q s with
    | a :: rest =>
      match nth_error S (sv_i s) with
      | None => None
      | Some sv =>
        Some {| t := te; server_busy := true; q := rest;
                next_arrival := next_arrival s;
                next_departure := Fin (te + sv);
                arrivals := arrivals s; served := served';
                sum_wait := sum_wait s + max0 (te - a);
                count_started := count_started s + 1;
                area_q := area; last_t := te; last_event := Some Departure;
                ia_i := ia_i s; sv_i := Datatypes.S (sv_i s);
                events := events s + 1 |}
      end
    | [] =>
      Some {| t := te; server_busy := false; q := [];
              next_arrival := next_arrival s; next_departure := Inf;
              arrivals := arrivals s; served := served';
              sum_wait := sum_wait s; count_started := count_started s;
              area_q := area; last_t := te; last_event := Some Departure;
              ia_i := ia_i s; sv_i := sv_i s; events := events s + 1 |}
    end.

(** Lines 108-150: the body of [while served < N] (without the redraw). *)
Definition body (s : state) : option state :=
  let (ev, te) := dispatched s in
  let area := area_q s + len (q s) * (te - last_t s) in
  match ev with
  | Arrival => arrival te area s
  | Departure => departure te area s
  end.

(** Lines 107-152: the loop.  It returns the [(clock, kind)] pairs of the
    iterations it completed and how it ended; one unit of fuel is used by
    each iteration. *)
Fixpoint des_loop (fuel : nat) (s : state) : list (Q * kind) * outcome :=
  if (served s <? N)%Z then
    match fuel with
    | O => ([], OutOfFuel)
    | Datatypes.S fuel' =>
      match body s with
      | None => ([], IndexError)
      | Some s' =>
        let (tr, o) := des_loop fuel' s' in
        ((snd (dispatched s), fst (dispatched s)) :: tr, o)
      end
    end
  else ([], Done s).

(** The state after [k] iterations of the loop, when the loop makes that
    many: [None] if it stops or fails earlier. *)
Fixpoint steps (k : nat) (s : state) : option state :=
  match k with
  | O => Some s
  | Datatypes.S k' =>
    if (served s <? N)%Z then
      match body s with
      | None => None
      | Some s' => steps k' s'
      end
    else None
  end.

(** A bound on the number of iterations still to come: every arrival
    uses one more entry of [A] and every departure brings [served] one
    closer to [N]. *)
Definition iterations_left (s : state) : nat :=
  (length A - ia_i s) + Z.to_nat (N - served s).

(** The server flag and the pending departure agree. *)
Definition sched_ok (s : state) : Prop :=
  if server_busy s then exists d, next_departure s = Fin d
  else next_departure s = Inf.

(** Customers in the system = arrivals - departures. *)
Definition conserved (s : state) : Prop :=
  (Z.of_nat (length (q s)) + (if server_busy s then 1 else 0)
   = arrivals s - served s)%Z.

(** The clock is the time of the last event, no pending event lies in
    the past and no queued customer arrived in the future. *)
Definition timed (s : state) : Prop :=
  last_t s = t s /\
  0 <= t s /\
  t s <= next_arrival s /\
  (forall d, next_departure s = Fin d -> t s <= d) /\
  Forall (fun a => a <= t s) (q s).

(** Lines 18-28 and 105-152 for given sequences: the first arrival is
    [A[0]], then the loop runs. *)
Definition simulate (fuel : nat) : list (Q * kind) * outcome :=
  match nth_error A 0 with
  | None => ([], IndexError)
  | Some A1 => des_loop fuel (init A1)
  end.

End Loop.

(** The number of departures among dispatched events. *)
Fixpoint count_departures (tr : list (Q * kind)) : Z :=
  match tr with
  | [] => 0
  | (_, Departure) :: tr' => count_departures tr' + 1
  | (_, Arrival) :: tr' => count_departures tr'
  end.

(** Line 65: [(sum_wait / count_started) if count_started else 0.0]. *)
Definition avg_wait (s : state) : Q :=
  if (count_started s =? 0)%Z then 0
  else sum_wait s / inject_Z (count_started s).

(** Line 66: [(area_q / t) if t > 0 else 0.0]. *)
Definition qhat (s : state) : Q :=
  if Qle_bool (t s) 0 then 0 else area_q s / t s.

End Perplexity.

(** * z___deepseek.py *)

Module Deepseek.

(** This variant can produce an infinite time on purpose
    ([generate_interarrival] returns [float('inf')] when the arrival rate
    is not positive), and then every quantity computed from the clock may
    become infinite or undefined.  Its floats are therefore modelled with
    the four shapes a float can take. *)
Inductive float : Type :=
| Num (x : Q)
| PInf
| NInf
| NaN.

Definition fneg (a : float) : float :=
  match a with
  | Num x => Num (- x)
  | PInf => NInf
  | NInf => PInf
  | NaN => NaN
  end.

Definition fadd (a b : float) : float :=
  match a, b with
  | Num x, Num y => Num (x + y)
  | NaN, _ | _, NaN => NaN
  | PInf, NInf | NInf, PInf => NaN
  | PInf, _ | _, PInf => PInf
  | NInf, _ | _, NInf => NInf
  end.

Definition fsub (a b : float) : float := fadd a (fneg b).

(** [n * a] for a Python int [n]. *)
Definition fmul_int (n : Z) (a : float) : float :=
  match a with
  | Num x => Num (inject_Z n * x)
  | NaN => NaN
  | PInf => if (0 <? n)%Z then PInf else if (n <? 0)%Z then NInf else NaN
  | NInf => if (0 <? n)%Z then NInf else if (n <? 0)%Z then PInf else NaN
  end.

(** [a / n] for a Python int [n]; every call site has [n > 0]. *)
Definition fdiv_int (a : float) (n : Z) : float :=
  match a with
  | Num x => Num (x / inject_Z n)
  | NaN => NaN
  | PInf => if (0 <? n)%Z then PInf else NInf
  | NInf => if (0 <? n)%Z then NInf else PInf
  end.

(** [a < b]; false as soon as one side is undefined. *)
Definition flt (a b : float) : bool :=
  match a, b with
  | NaN, _ | _, NaN => false
  | Num x, Num y => negb (Qle_bool y x)
  | NInf, NInf => false
  | NInf, _ => true
  | _, NInf => false
  | PInf, _ => false
  | Num _, PInf => true
  end.

(** [a == b]. *)
Definition feq (a b : float) : bool :=
  match a, b with
  | Num x, Num y => Qeq_bool x y
  | PInf, PInf => true
  | NInf, NInf => true
  | _, _ => false
  end.

Inductive status : Type :=
| IDLE
| BUSY.

(** An entry of [event_list]: the tuple [(event_type, event_time)]. *)
Definition event : Type := (kind * float)%type.

Definition event_eqb (a b : event) : bool :=
  kind_eqb (fst a) (fst b) && feq (snd a) (snd b).

(** [min(l, key=lambda x: x[1])] for a non-empty list [best :: l]: the
    first of the entries with the least time. *)
Fixpoint min_event (best : event) (l : list event) : event :=
  match l with
  | [] => best
  | e :: l' => if flt (snd e) (snd best) then min_event e l'
               else min_event best l'
  end.

(** [l.remove(x)]: the first entry equal to [x] is taken out. *)
Fixpoint remove (x : event) (l : list event) : list event :=
  match l with
  | [] => []
  | e :: l' => if event_eqb e x then l' else e :: remove x l'
  end.

Section Simulation.

(** The process-wide generator of the [random] module, which the script
    never seeds: [expovariate rate g] is one call
    [random.expovariate(rate)]. *)
Variable gen : Type.
Variable expovariate : Q -> gen -> Q * gen.

(** The constructor's arguments. *)
Variable interarrival_mean : Q.
Variable service_mean : Q.

(** Lines 24-25. *)
Definition arrival_rate : Q :=
  if Qle_bool interarrival_mean 0 then 0 else 1 / interarrival_mean.
Definition service_rate : Q :=
  if Qle_bool service_mean 0 then 0 else 1 / service_mean.

(** The attributes of the simulation object that the engine uses. *)
Record state : Type := mkState {
  rng : gen;
  clock : float;
  server_status : status;
  queue : list float;
  event_list : list event;
  total_arrivals : Z;
  total_served : Z;
  delays : list float;
  total_delay : float;
  Q_area : float;
  last_event_time : float;
  current_Q : Z;
  avg_wait : float;
  running : bool
}.

(** Lines 70-74. *)
Definition generate_interarrival (g : gen) : float * gen :=
  if Qle_bool arrival_rate 0 then (PInf, g)
  else let (x, g') := expovariate arrival_rate g in (Num x, g').

(** Lines 76-80. *)
Definition generate_service (g : gen) : float * gen :=
  if Qle_bool service_rate 0 then (Num 1, g)
  else let (x, g') := expovariate service_rate g in (Num x, g').

(** Lines 52-68 (and [running = True] of line 50). *)
Definition initialize_simulation (g : gen) : state :=
  let (first_arrival, g') := generate_interarrival g in
  {| rng := g'; clock := Num 0; server_status := IDLE; queue := [];
     event_list := [(Arrival, first_arrival)];
     total_arrivals := 0; total_served := 0; delays := [];
     total_delay := Num 0; Q_area := Num 0; last_event_time := Num 0;
     current_Q := 0; avg_wait := Num 0; running := true |}.

(** Lines 82-86. *)
Definition update_queue_area (current_time : float) (s : state) : state :=
  let delta_t := fsub current_time (last_event_time s) in
  {| rng := rng s; clock := clock s; server_status := server_status s;
     queue := queue s; event_list := event_list s;
     total_arrivals := total_arrivals s; total_served := total_served s;
     delays := delays s; total_delay := total_delay s;
     Q_area := fadd (Q_area s) (fmul_int (current_Q s) delta_t);
     last_event_time := current_time;
     current_Q := current_Q s; avg_wait := avg_wait s;
     running := running s |}.

(** Lines 88-98; [None] is the answer ['NONE'] for an empty list. *)
Definition timing_routine (s : state) : option event * state :=
  match event_list s with
  | [] => (None, s)
  | e :: l =>
    let ev := min_event e l in
    let s1 :=
      {| rng := rng s; clock := snd ev; server_status := server_status s;
         queue := queue s; event_list := remove ev (event_list s);
         total_arrivals := total_arrivals s; total_served := total_served s;
         delays := delays s; total_delay := total_delay s;
         Q_area := Q_area s; last_event_time := last_event_time s;
         current_Q := current_Q s; avg_wait := avg_wait s;
         running := running s |} in
    (Some ev, update_queue_area (clock s1) s1)
  end.

(** Lines 100-118. *)
Definition process_arrival (s : state) : state :=
  let (ia, g1) := generate_interarrival (rng s) in
  let next_arrival_time := fadd (clock s) ia in
  let events1 := event_list s ++ [(Arrival, next_arrival_time)] in
  match server_status s with
  | IDLE =>
    let (service_time, g2) := generate_service g1 in
    let departure_time := fadd (clock s) service_time in
    {| rng := g2; clock := clock s; server_status := BUSY;
       queue := queue s;
       event_list := events1 ++ [(Departure, departure_time)];
       total_arrivals := total_arrivals s + 1;
       total_served := total_served s + 1;
       delays := delays s ++ [Num 0];
       total_delay := fadd (total_delay s) (Num 0);
       Q_area := Q_area s; last_event_time := last_event_time s;
       current_Q := current_Q s; avg_wait := avg_wait s;
       running := running s |}
  | BUSY =>
    {| rng := g1; clock := clock s; server_status := BUSY;
       queue := queue s ++ [clock s];
       event_list := events1;
       total_arrivals := total_arrivals s + 1;
       total_served := total_served s;
       delays := delays s; total_delay := total_delay s;
       Q_area := Q_area s; last_event_time := last_event_time s;
       current_Q := Z.of_nat (length (queue s ++ [clock s]));
       avg_wait := avg_wait s; running := running s |}
  end.

(** Lines 120-137. *)
Definition process_departure (s : state) : state :=
  match queue s with
  | arrival_time :: rest =>
    let wait_time := fsub (clock s) arrival_time in
    let (service_time, g1) := generate_service (rng s) in
    let departure_time := fadd (clock s) service_time in
    {| rng := g1; clock := clock s; server_status := server_status s;
       queue := rest;
       event_list := event_list s ++ [(Departure, departure_time)];
       total_arrivals := total_arrivals s;
       total_served := total_served s + 1;
       delays := delays s ++ [wait_time];
       total_delay := fadd (total_delay s) wait_time;
       Q_area := Q_area s; last_event_time := last_event_time s;
       current_Q := Z.of_nat (length rest);
       avg_wait := avg_wait s; running := running s |}
  | [] =>
    {| rng := rng s; clock := clock s; server_status := IDLE;
       queue := [];
       event_list := event_list s;
       total_arrivals := total_arrivals s;
       total_served := total_served s + 1;
       delays := delays s; total_delay := total_delay s;
       Q_area := Q_area s; last_event_time := last_event_time s;
       current_Q := 0;
       avg_wait := avg_wait s; running := running s |}
  end.

(** Lines 139-144. *)
Definition update_metrics (s : state) : state :=
  {| rng := rng s; clock := clock s; server_status := server_status s;
     queue := queue s; event_list := event_list s;
     total_arrivals := total_arrivals s; total_served := total_served s;
     delays := delays s; total_delay := total_delay s;
     Q_area := Q_area s; last_event_time := last_event_time s;
     current_Q := current_Q s;
     avg_wait := if (0 <? total_served s)%Z
                 then fdiv_int (total_delay s) (total_served s)
                 else Num 0;
     running := running s |}.

Definition stop (s : state) : state :=
  {| rng := rng s; clock := clock s; server_status := server_status s;
     queue := queue s; event_list := event_list s;
     total_arrivals := total_arrivals s; total_served := total_served s;
     delays := delays s; total_delay := total_delay s;
     Q_area := Q_area s; last_event_time := last_event_time s;
     current_Q := current_Q s; avg_wait := avg_wait s;
     running := false |}.

(** One pass of the [for] loop of lines 244-253: the timing routine, then
    the handler of the event it returned.  The result says which event
    was dispatched; [None] is the [break] on ['NONE']. *)
Definition dispatch (s : state) : option event * state :=
  match timing_routine s with
  | (None, s1) => (None, stop s1)
  | (Some (Arrival, te), s1) => (Some (Arrival, te), process_arrival s1)
  | (Some (Departure, te), s1) => (Some (Departure, te), process_departure s1)
  end.

(** The [for _ in range(n)] loop with its [break]. *)
Fixpoint dispatch_n (n : nat) (s : state) : state :=
  match n with
  | O => s
  | S n' =>
    match dispatch s with
    | (None, s1) => s1
    | (Some _, s1) => dispatch_n n' s1
    end
  end.

(** The events that [dispatch_n] dispatches, in order. *)
Fixpoint dispatch_log (n : nat) (s : state) : list event :=
  match n with
  | O => []
  | S n' =>
    match dispatch s with
    | (None, _) => []
    | (Some e, s1) => e :: dispatch_log n' s1
    end
  end.

(** Lines 237-261, without the three chart updates. *)
Definition simulation_step (s : state) : state :=
  if negb (running s) then s
  else update_metrics (dispatch_n 3 s).

(** [frames] calls of [simulation_step] by the animation. *)
Fixpoint frames (n : nat) (s : state) : state :=
  match n with
  | O => s
  | S n' => frames n' (simulation_step s)
  end.

End Simulation.

Arguments rng {gen} _.
Arguments clock {gen} _.
Arguments server_status {gen} _.
Arguments queue {gen} _.
Arguments event_list {gen} _.
Arguments total_arrivals {gen} _.
Arguments total_served {gen} _.
Arguments delays {gen} _.
Arguments total_delay {gen} _.
Arguments Q_area {gen} _.
Arguments last_event_time {gen} _.
Arguments current_Q {gen} _.
Arguments avg_wait {gen} _.
Arguments running {gen} _.
Arguments timing_routine {gen} _.
Arguments update_metrics {gen} _.
Arguments stop {gen} _.
Arguments update_queue_area {gen} _ _.
Arguments generate_interarrival {gen} _.
Arguments generate_service {gen} _.
Arguments initialize_simulation {gen} _.
Arguments process_arrival {gen} _.
Arguments process_departure {gen} _.
Arguments dispatch {gen} _.
Arguments dispatch_n {gen} _.
Arguments dispatch_log {gen} _.
Arguments simulation_step {gen} _.
Arguments frames {gen} _.

End Deepseek.

(** The run of the script with mean interarrival time 2.5 and mean service
    time 2.0 (the values of [main]), on a variate source that returns the
    given durations in order. *)
Definition deepseek_main (draws : list Q) : Deepseek.state (list Q) :=
  Deepseek.initialize_simulation replay (5 # 2) draws.

Definition deepseek_dispatch_n (n : nat) (s : Deepseek.state (list Q)) :=
  Deepseek.dispatch_n replay (5 # 2) 2 n s.

(** * z___ChatGPT.py *)

Module ChatGPT.

(** The script has the variables of [Final.py] (its state is a
    [Final.state]) and the same parameters; its handlers draw the variates
    in another order. *)
Definition INTERARRIVAL_MEAN : Q := 2.
Definition SERVICE_MEAN : Q := 1.
Definition UPDATE_EVERY : Z := 5.

Section Engine.

Variable gen : Type.
Variable exponential : Q -> gen -> Q * gen.

(** Lines 23-34. *)
Definition init (g : gen) : Final.state gen :=
  let (A1, g1) := exponential INTERARRIVAL_MEAN g in
  {| Final.rng := g1; Final.t := 0; Final.queue := [];
     Final.server_busy := false;
     Final.next_arrival := A1; Final.next_departure := Inf;
     Final.num_arrivals := 0; Final.num_served := 0; Final.delays := [];
     Final.area_Q := 0; Final.last_event_time := 0;
     Final.event_counter := 0 |}.

(** Lines 115-121: the arrival branch, at clock [tn].  The service time,
    when one is needed, is drawn before the next interarrival time. *)
Definition arrival (tn area : Q) (s : Final.state gen) : Final.state gen :=
  if negb (Final.server_busy s) then
    let (S_i, g1) := exponential SERVICE_MEAN (Final.rng s) in
    let (A_i, g2) := exponential INTERARRIVAL_MEAN g1 in
    {| Final.rng := g2; Final.t := tn; Final.queue := Final.queue s;
       Final.server_busy := true;
       Final.next_arrival := tn + A_i; Final.next_departure := Fin (tn + S_i);
       Final.num_arrivals := Final.num_arrivals s + 1;
       Final.num_served := Final.num_served s;
       Final.delays := Final.delays s ++ [0];
       Final.area_Q := area; Final.last_event_time := tn;
       Final.event_counter := Final.event_counter s + 1 |}
  else
    let (A_i, g1) := exponential INTERARRIVAL_MEAN (Final.rng s) in
    {| Final.rng := g1; Final.t := tn; Final.queue := Final.queue s ++ [tn];
       Final.server_busy := Final.server_busy s;
       Final.next_arrival := tn + A_i;
       Final.next_departure := Final.next_departure s;
       Final.num_arrivals := Final.num_arrivals s + 1;
       Final.num_served := Final.num_served s;
       Final.delays := Final.delays s;
       Final.area_Q := area; Final.last_event_time := tn;
       Final.event_counter := Final.event_counter s + 1 |}.

(** Lines 122-129: the departure branch, at clock [tn].  A service time
    is drawn only when a customer is waiting. *)
Definition departure (tn area : Q) (s : Final.state gen) : Final.state gen :=
  match Final.queue s with
  | arrival_time :: rest =>
    let (S_i, g1) := exponential SERVICE_MEAN (Final.rng s) in
    {| Final.rng := g1; Final.t := tn; Final.queue := rest;
       Final.server_busy := Final.server_busy s;
       Final.next_arrival := Final.next_arrival s;
       Final.next_departure := Fin (tn + S_i);
       Final.num_arrivals := Final.num_arrivals s;
       Final.num_served := Final.num_served s + 1;
       Final.delays := Final.delays s ++ [tn - arrival_time];
       Final.area_Q := area; Final.last_event_time := tn;
       Final.event_counter := Final.event_counter s + 1 |}
  | [] =>
    {| Final.rng := Final.rng s; Final.t := tn; Final.queue := [];
       Final.server_busy := false;
       Final.next_arrival := Final.next_arrival s;
       Final.next_departure := Inf;
       Final.num_arrivals := Final.num_arrivals s;
       Final.num_served := Final.num_served s + 1;
       Final.delays := Final.delays s;
       Final.area_Q := area; Final.last_event_time := tn;
       Final.event_counter := Final.event_counter s + 1 |}
  end.

(** Lines 105-131: one iteration of the main loop. *)
Definition step (s : Final.state gen) : Final.state gen :=
  let (event_type, t_next) := Final.dispatched s in
  let delta := t_next - Final.last_event_time s in
  let area := Final.area_Q s + len (Final.queue s) * delta in
  match event_type with
  | Arrival => arrival t_next area s
  | Departure => departure t_next area s
  end.

Fixpoint run (k : nat) (s : Final.state gen) : Final.state gen :=
  match k with
  | O => s
  | S k' => run k' (step s)
  end.

End Engine.

Arguments init {gen} _ _.
Arguments arrival {gen} _ _ _ _.
Arguments departure {gen} _ _ _ _.
Arguments step {gen} _ _.
Arguments run {gen} _ _ _.

End ChatGPT.

(** * z___Gemini.py *)

Module Gemini.

Definition ARRIVAL_RATE : Q := 9 # 10.
Definition SERVICE_RATE : Q := 1.

Section Main.

(** The process-wide generator of the [random] module, never seeded:
    [expovariate rate g] is one call [random.expovariate(rate)]. *)
Variable gen : Type.
Variable expovariate : Q -> gen -> Q * gen.

(** Lines 25-37. *)
Definition get_interarrival_time (g : gen) : Q * gen :=
  expovariate ARRIVAL_RATE g.
Definition get_service_time (g : gen) : Q * gen :=
  expovariate SERVICE_RATE g.

(** The local variables of [main] and the entries of its [stats]
    dictionary. *)
Record state : Type := mkState {
  rng : gen;
  clock : Q;
  queue_arrival_times : list Q;
  server_busy : bool;
  total_arrivals : Z;
  total_served : Z;
  total_wait_time : Q;
  current_queue_len : Z;
  current_in_service : Z;
  avg_wait : Q;
  wait_time_data : list Q;
  customer_indices : list Z;
  next_arrival : Q;
  next_departure : time
}.

(** Lines 62-79. *)
Definition init (g : gen) : state :=
  let (A1, g1) := get_interarrival_time g in
  {| rng := g1; clock := 0; queue_arrival_times := [];
     server_busy := false;
     total_arrivals := 0; total_served := 0; total_wait_time := 0;
     current_queue_len := 0; current_in_service := 0; avg_wait := 0;
     wait_time_data := []; customer_indices := [];
     next_arrival := A1; next_departure := Inf |}.

(** The event that the next iteration handles (line 88). *)
Definition dispatched (s : state) : kind * Q :=
  select (next_arrival s) (next_departure s).

(** Lines 89-109: the arrival, at clock [tn]. *)
Definition arrival (tn : Q) (s : state) : state :=
  let arrivals := (total_arrivals s + 1)%Z in
  let (A_i, g1) := get_interarrival_time (rng s) in
  if negb (server_busy s) then
    let (S_i, g2) := get_service_time g1 in
    {| rng := g2; clock := tn;
       queue_arrival_times := queue_arrival_times s;
       server_busy := true;
       total_arrivals := arrivals; total_served := total_served s;
       total_wait_time := total_wait_time s;
       current_queue_len := current_queue_len s;
       current_in_service := 1; avg_wait := avg_wait s;
       wait_time_data := wait_time_data s ++ [0];
       customer_indices := customer_indices s ++ [arrivals];
       next_arrival := tn + A_i; next_departure := Fin (tn + S_i) |}
  else
    {| rng := g1; clock := tn;
       queue_arrival_times := queue_arrival_times s ++ [tn];
       server_busy := server_busy s;
       total_arrivals := arrivals; total_served := total_served s;
       total_wait_time := total_wait_time s;
       current_queue_len := current_queue_len s + 1;
       current_in_service := current_in_service s; avg_wait := avg_wait s;
       wait_time_data := wait_time_data s;
       customer_indices := customer_indices s;
       next_arrival := tn + A_i; next_departure := next_departure s |}.

(** Lines 111-133: the service completion, at clock [tn].  The test is
    on the counter [current_queue_len], not on the deque; [None] is the
    [IndexError] of [popleft] on an empty deque. *)
Definition departure (tn : Q) (s : state) : option state :=
  if (0 <? current_queue_len s)%Z then
    match queue_arrival_times s with
    | [] => None
    | arrival_time :: rest =>
      let wait := tn - arrival_time in
      let (S_i, g1) := get_service_time (rng s) in
      Some {| rng := g1; clock := tn;
              queue_arrival_times := rest;
              server_busy := server_busy s;
              total_arrivals := total_arrivals s;
              total_served := total_served s + 1;
              total_wait_time := total_wait_time s + wait;
              current_queue_len := current_queue_len s - 1;
              current_in_service := current_in_service s;
              avg_wait := avg_wait s;
              wait_time_data := wait_time_data s ++ [wait];
              customer_indices := customer_indices s ++ [total_arrivals s];
              next_arrival := next_arrival s;
              next_departure := Fin (tn + S_i) |}
    end
  else
    Some {| rng := rng s; clock := tn;
            queue_arrival_times := queue_arrival_times s;
            server_busy := false;
            total_arrivals := total_arrivals s;
            total_served := total_served s + 1;
            total_wait_time := total_wait_time s;
            current_queue_len := current_queue_len s;
            current_in_service := 0; avg_wait := avg_wait s;
            wait_time_data := wait_time_data s;
            customer_indices := customer_indices s;
            next_arrival := next_arrival s; next_departure := Inf |}.

(** Lines 136-137: the running average, refreshed once a wait exists. *)
Definition update_avg (s : state) : state :=
  {| rng := rng s; clock := clock s;
     queue_arrival_times := queue_arrival_times s;
     server_busy := server_busy s;
     total_arrivals := total_arrivals s; total_served := total_served s;
     total_wait_time := total_wait_time s;
     current_queue_len := current_queue_len s;
     current_in_service := current_in_service s;
     avg_wait := match wait_time_data s with
                 | [] => avg_wait s
                 | _ :: _ => total_wait_time s / len (wait_time_data s)
                 end;
     wait_time_data := wait_time_data s;
     customer_indices := customer_indices s;
     next_arrival := next_arrival s; next_departure := next_departure s |}.

(** Lines 88-137: one iteration of the loop, without the drawing. *)
Definition iteration (s : state) : option state :=
  match dispatched s with
  | (Arrival, tn) => Some (update_avg (arrival tn s))
  | (Departure, tn) => option_map update_avg (departure tn s)
  end.

(** The state after [k] iterations; [None] if one of them raised. *)
Fixpoint run (k : nat) (s : state) : option state :=
  match k with
  | O => Some s
  | S k' =>
    match iteration s with
    | None => None
    | Some s' => run k' s'
    end
  end.

End Main.

Arguments rng {gen} _.
Arguments clock {gen} _.
Arguments queue_arrival_times {gen} _.
Arguments server_busy {gen} _.
Arguments total_arrivals {gen} _.
Arguments total_served {gen} _.
Arguments total_wait_time {gen} _.
Arguments current_queue_len {gen} _.
Arguments current_in_service {gen} _.
Arguments avg_wait {gen} _.
Arguments wait_time_data {gen} _.
Arguments customer_indices {gen} _.
Arguments next_arrival {gen} _.
Arguments next_departure {gen} _.
Arguments dispatched {gen} _.
Arguments init {gen} _ _.
Arguments arrival {gen} _ _ _.
Arguments departure {gen} _ _ _.
Arguments update_avg {gen} _.
Arguments iteration {gen} _ _.
Arguments run {gen} _ _ _.

End Gemini.

(** * The dashboards *)

(** Final.py, [update_plots], line 74: the upper limit of the axis of
    the average-wait bar, [max(1.0, avg_wait*1.6, INTERARRIVAL_MEAN)]. *)
Definition avg_ylim {gen : Type} (s : Final.state gen) : Q :=
  Qmax (Qmax 1 (Final.avg_wait s * (16 # 10))) Final.INTERARRIVAL_MEAN.

(** Final.py, line 127: whether the iteration that led to [s] ends with
    a call of [update_plots]. *)
Definition redrawn {gen : Type} (s : Final.state gen) : bool :=
  (Final.event_counter s mod Final.UPDATE_EVERY =? 0)%Z.

(** * Quantities used to state the properties of the engines *)

(** A variate source that also counts the calls made to it. *)
Definition counted {gen : Type} (exponential : Q -> gen -> Q * gen)
  (scale : Q) (g : gen * nat) : Q * (gen * nat) :=
  let (x, g') := exponential scale (fst g) in (x, (g', S (snd g))).

(** The number of events of kind [k] in a list of dispatched events. *)
Definition count_kind (k : kind) (l : list Deepseek.event) : Z :=
  Z.of_nat (length (filter (fun e => kind_eqb (fst e) k) l)).

(** [1] for a busy server, [0] for an idle one. *)
Definition in_service (st : Deepseek.status) : Z :=
  match st with
  | Deepseek.BUSY => 1
  | Deepseek.IDLE => 0
  end.

(** The sum of a list of floats, accumulated from [0.0], left to right. *)
Definition fsum (l : list Deepseek.float) : Deepseek.float :=
  fold_left Deepseek.fadd l (Deepseek.Num 0).

(** An event time that is a number or [+inf]. *)
Definition time_ok (x : Deepseek.float) : Prop :=
  match x with
  | Deepseek.Num _ | Deepseek.PInf => True
  | Deepseek.NInf | Deepseek.NaN => False
  end.

(** The event lists that z___deepseek.py can hold: the pending arrival
    alone when the server is idle; the pending arrival and the pending
    departure, in one order or the other, when it is busy. *)
Definition events_ok (st : Deepseek.status) (l : list Deepseek.event)
  : Prop :=
  match st, l with
  | Deepseek.IDLE, [(Arrival, a)] => time_ok a
  | Deepseek.BUSY, [(Arrival, a); (Departure, d)] => time_ok a /\ time_ok d
  | Deepseek.BUSY, [(Departure, d); (Arrival, a)] => time_ok a /\ time_ok d
  | _, _ => False
  end.

(** The counters of z___Gemini.py agree with its deque, its flag and
    its pending departure: [current_queue_len] is the length of the
    deque, [current_in_service] is [1] for a busy server and [0] for an
    idle one, a busy server has a departure scheduled and an idle one has
    none and nobody waiting, and the waits recorded are those of the
    customers served and of the one in service. *)
Definition gemini_consistent {gen : Type} (s : Gemini.state gen) : Prop :=
  Gemini.current_queue_len s
  = Z.of_nat (length (Gemini.queue_arrival_times s)) /\
  Gemini.current_in_service s
  = (if Gemini.server_busy s then 1 else 0)%Z /\
  (if Gemini.server_busy s
   then exists d, Gemini.next_departure s = Fin d
   else Gemini.next_departure s = Inf /\
        Gemini.queue_arrival_times s = []) /\
  (Z.of_nat (length (Gemini.queue_arrival_times s))
   + (if Gemini.server_busy s then 1 else 0)
   = Gemini.total_arrivals s - Gemini.total_served s)%Z /\
  (Z.of_nat (length (Gemini.wait_time_data s))
   = Gemini.total_served s + (if Gemini.server_busy s then 1 else 0))%Z /\
  (0 <= Gemini.total_served s)%Z.

(** The two lists behind the history chart of z___Gemini.py: they have
    the same length, the labels never decrease, and the label of the
    [j]-th bar (from 0) is between [j + 1] and the number of arrivals. *)
Definition gemini_labels_ok {gen : Type} (s : Gemini.state gen) : Prop :=
  length (Gemini.customer_indices s) = length (Gemini.wait_time_data s) /\
  StronglySorted Z.le (Gemini.customer_indices s) /\
  (forall j c, nth_error (Gemini.customer_indices s) j = Some c ->
               (Z.of_nat j + 1 <= c <= Gemini.total_arrivals s)%Z).

(** The states of z___deepseek.py once every event is due at [+inf]:
    the clock is infinite, the area under [Q(t)] is undefined, and the
    two pending events alternate. *)
Definition all_at_infinity {gen : Type} (s : Deepseek.state gen) : Prop :=
  Deepseek.clock s = Deepseek.PInf /\
  Deepseek.server_status s = Deepseek.BUSY /\
  Deepseek.Q_area s = Deepseek.NaN /\
  (0 < Deepseek.total_served s)%Z /\
  ((Deepseek.event_list s
    = [(Arrival, Deepseek.PInf); (Departure, Deepseek.PInf)] /\
    Deepseek.queue s = []) \/
   (Deepseek.event_list s
    = [(Departure, Deepseek.PInf); (Arrival, Deepseek.PInf)] /\
    Deepseek.queue s = [Deepseek.PInf])).

(** A state of z___deepseek.py with its reported average left out. *)
Definition forget_avg {gen : Type} (s : Deepseek.state gen)
  : Deepseek.state gen :=
  {| Deepseek.rng := Deepseek.rng s; Deepseek.clock := Deepseek.clock s;
     Deepseek.server_status := Deepseek.server_status s;
     Deepseek.queue := Deepseek.queue s;
     Deepseek.event_list := Deepseek.event_list s;
     Deepseek.total_arrivals := Deepseek.total_arrivals s;
     Deepseek.total_served := Deepseek.total_served s;
     Deepseek.delays := Deepseek.delays s;
     Deepseek.total_delay := Deepseek.total_delay s;
     Deepseek.Q_area := Deepseek.Q_area s;
     Deepseek.last_event_time := Deepseek.last_event_time s;
     Deepseek.current_Q := Deepseek.current_Q s;
     Deepseek.avg_wait := Deepseek.Num 0;
     Deepseek.running := Deepseek.running s |}.

(** The time that the customers of a wait line [l] (their arrival times)
    have spent waiting so far when the clock is [t]. *)
Fixpoint pending_wait (t : Q) (l : list Q) : Q :=
  match l with
  | [] => 0
  | a :: l' => (t - a) + pending_wait t l'
  end.

(** * Facts about the selection of the next event *)

Lemma select_tle (na : Q) (nd : time) :
  fst (select na nd) = Arrival <-> tle (Fin na) nd = true.
Proof.
  unfold select, tle. destruct nd as [d|].
  - destruct (Qle_bool na d); simpl; split; congruence.
  - simpl; split; reflexivity.
Qed.

Lemma select_arrival_time (na : Q) (nd : time) :
  fst (select na nd) = Arrival -> snd (select na nd) = na.
Proof.
  unfold select. destruct nd as [d|]; [|reflexivity].
  destruct (Qle_bool na d); simpl; congruence.
Qed.

Lemma select_departure (na : Q) (nd : time) :
  fst (select na nd) = Departure ->
  nd = Fin (snd (select na nd)) /\ snd (select na nd) < na.
Proof.
  unfold select. destruct nd as [d|]; [|discriminate].
  destruct (Qle_bool na d) eqn:E; simpl; [discriminate|].
  intros _. split; [reflexivity|].
  apply Qnot_le_lt. intro H. apply Qle_bool_iff in H. congruence.
Qed.

Lemma select_arrival_inv (na : Q) (nd : time) (tn : Q) :
  select na nd = (Arrival, tn) -> tn = na /\ tle (Fin tn) nd = true.
Proof.
  intro H.
  assert (Hk : fst (select na nd) = Arrival) by (rewrite H; reflexivity).
  pose proof (select_arrival_time _ _ Hk) as Ht.
  rewrite H in Ht; simpl in Ht. subst tn.
  split; [reflexivity|]. now apply select_tle.
Qed.

Lemma select_departure_inv (na : Q) (nd : time) (tn : Q) :
  select na nd = (Departure, tn) -> nd = Fin tn /\ tn < na.
Proof.
  intro H.
  assert (Hk : fst (select na nd) = Departure) by (rewrite H; reflexivity).
  pose proof (select_departure _ _ Hk) as Hd.
  rewrite H in Hd; simpl in Hd. exact Hd.
Qed.

Lemma select_inf (na : Q) : select na Inf = (Arrival, na).
Proof. reflexivity. Qed.

(** * Lists of times *)

Lemma Forall_nth_error (P : Q -> Prop) (l : list Q) (i : nat) (x : Q) :
  Forall P l -> nth_error l i = Some x -> P x.
Proof.
  intros H E. apply nth_error_In in E.
  rewrite Forall_forall in H. now apply H.
Qed.

Lemma Forall_le_trans (l : list Q) (x y : Q) :
  x <= y -> Forall (fun a => a <= x) l -> Forall (fun a => a <= y) l.
Proof.
  intros Hxy H. eapply Forall_impl; [|exact H].
  simpl. intros a Ha. lra.
Qed.

(** * The step function of a history *)

Lemma Q_at_before (h : list (Q * Q)) (q0 x : Q) :
  (forall e, In e h -> x < fst e) -> Q_at q0 h x = q0.
Proof.
  destruct h as [|[t1 q1] h']; intro H; simpl; [reflexivity|].
  assert (Hx : x < t1) by (apply (H (t1, q1)); now left).
  destruct (Qle_bool t1 x) eqn:E; [|reflexivity].
  apply Qle_bool_iff in E. lra.
Qed.

Lemma increasing_le (pre post : list (Q * Q)) (t0 ti qi : Q) :
  increasing t0 (pre ++ (ti, qi) :: post) -> t0 <= ti.
Proof.
  revert t0. induction pre as [|[t1 q1] pre IH]; intros t0 H; simpl in H.
  - tauto.
  - destruct H as [H1 H2]. specialize (IH _ H2). lra.
Qed.

(** Between an event and the next one the step function has the value
    recorded at that event. *)
Lemma Q_at_after_event (pre post : list (Q * Q)) (q0 t0 ti qi x : Q) :
  increasing t0 (pre ++ (ti, qi) :: post) ->
  ti <= x ->
  (forall e, In e post -> x < fst e) ->
  Q_at q0 (pre ++ (ti, qi) :: post) x = qi.
Proof.
  revert q0 t0.
  induction pre as [|[t1 q1] pre IH]; intros q0 t0 Hinc Hx Hpost; simpl.
  - assert (E : Qle_bool ti x = true) by now apply Qle_bool_iff.
    rewrite E. now apply Q_at_before.
  - simpl in Hinc. destruct Hinc as [H1 H2].
    pose proof (increasing_le _ _ _ _ _ H2) as Hle.
    assert (E : Qle_bool t1 x = true) by (apply Qle_bool_iff; lra).
    rewrite E. eapply IH; eassumption.
Qed.

Lemma increasing_ge (h : list (Q * Q)) : forall t0 e,
  increasing t0 h -> In e h -> t0 <= fst e.
Proof.
  induction h as [|[t1 q1] h IH]; intros t0 e Hinc Hin; [destruct Hin|].
  simpl in Hinc. destruct Hinc as [H1 H2]. destruct Hin as [<-|Hin].
  - exact H1.
  - specialize (IH _ _ H2 Hin). lra.
Qed.

Lemma increasing_app_inv (pre post : list (Q * Q)) : forall t0 ti qi,
  increasing t0 (pre ++ (ti, qi) :: post) -> increasing ti post.
Proof.
  induction pre as [|[t1 q1] pre IH]; intros t0 ti qi H; simpl in H.
  - tauto.
  - destruct H as [_ H]. eapply IH; exact H.
Qed.

(** The sum [integral_Q] is the integral of the step function [Q_at],
    piece by piece, from an event of the history onward. *)
Lemma riemann_from_event (rest : list (Q * Q)) :
  forall (pre : list (Q * Q)) (q0 t0 tl ql : Q),
  increasing t0 (pre ++ (tl, ql) :: rest) ->
  riemann (Q_at q0 (pre ++ (tl, ql) :: rest)) tl (map fst rest)
  == integral_Q tl ql rest.
Proof.
  induction rest as [|[t1 q1] rest IH]; intros pre q0 t0 tl ql Hinc;
    simpl; [reflexivity|].
  pose proof (increasing_app_inv _ _ _ _ _ Hinc) as Hrest.
  simpl in Hrest. destruct Hrest as [Hle Hrest].
  assert (Htail :
    riemann (Q_at q0 (pre ++ (tl, ql) :: (t1, q1) :: rest)) t1
      (map fst rest) == integral_Q t1 q1 rest).
  { specialize (IH (pre ++ [(tl, ql)]) q0 t0 t1 q1).
    rewrite <- app_assoc in IH. simpl in IH. now apply IH. }
  rewrite Htail.
  destruct (Qlt_le_dec tl t1) as [Hlt|Hge].
  - rewrite (Q_at_after_event pre ((t1, q1) :: rest) q0 t0 tl ql tl Hinc).
    + reflexivity.
    + apply Qle_refl.
    + intros e [<-|Hin]; [exact Hlt|].
      pose proof (increasing_ge _ _ _ Hrest Hin). simpl. lra.
  - assert (E : t1 - tl == 0) by lra. rewrite E. ring.
Qed.

Lemma integral_Q_is_riemann (h : list (Q * Q)) (t0 q0 : Q) :
  increasing t0 h ->
  integral_Q t0 q0 h == riemann (Q_at q0 h) t0 (map fst h).
Proof.
  destruct h as [|[t1 q1] rest]; intro Hinc; [reflexivity|].
  cbn [map fst riemann integral_Q].
  rewrite (riemann_from_event rest [] q0 t0 t1 q1 Hinc).
  simpl in Hinc. destruct Hinc as [Hle Hrest].
  destruct (Qlt_le_dec t0 t1) as [Hlt|Hge].
  - rewrite (Q_at_before ((t1, q1) :: rest) q0 t0).
    + reflexivity.
    + intros e [<-|Hin]; [exact Hlt|].
      pose proof (increasing_ge _ _ _ Hrest Hin). simpl. lra.
  - assert (E : t1 - t0 == 0) by lra. rewrite E. ring.
Qed.

(** * Facts about Final.py *)

Section FinalFacts.

Variable gen : Type.
Variable exponential : Q -> gen -> Q * gen.

Local Abbreviation state := (Final.state gen).
Local Abbreviation init := (Final.init exponential).
Local Abbreviation step := (Final.step exponential).
Local Abbreviation run := (Final.run exponential).
Local Abbreviation trace := (Final.trace exponential).
Local Abbreviation history := (Final.history exponential).

(** Unfolds one iteration into its four branches: arrival to a busy
    server, arrival to an idle server, departure leaving an empty wait
    line, departure that starts the next service. *)
Ltac final_step s :=
  unfold Final.step, Final.arrival, Final.departure;
  destruct (Final.dispatched s) as [[|] tn] eqn:Hsel;
  [ destruct (exponential Final.INTERARRIVAL_MEAN (Final.rng s))
      as [A_i g1] eqn:EA;
    destruct (Final.server_busy s) eqn:Hbusy; simpl;
    [ | destruct (exponential Final.SERVICE_MEAN g1) as [S_i g2] eqn:ES;
        simpl ]
  | destruct (exponential Final.SERVICE_MEAN (Final.rng s))
      as [S_i g1] eqn:ES;
    destruct (Final.queue s) as [|a rest] eqn:Hq; simpl ].

Lemma final_step_t (s : state) :
  Final.t (step s) = snd (Final.dispatched s).
Proof. final_step s; reflexivity. Qed.

Lemma final_step_last (s : state) :
  Final.last_event_time (step s) = snd (Final.dispatched s).
Proof. final_step s; reflexivity. Qed.

Lemma final_step_area (s : state) :
  Final.area_Q (step s) =
  Final.area_Q s
  + len (Final.queue s) * (snd (Final.dispatched s) - Final.last_event_time s).
Proof. final_step s; reflexivity. Qed.

Lemma final_area_from (k : nat) : forall s : state,
  Final.area_Q (run k s) ==
  Final.area_Q s
  + integral_Q (Final.last_event_time s) (len (Final.queue s)) (history k s).
Proof.
  induction k as [|k IH]; intro s; simpl.
  - ring.
  - rewrite IH, final_step_area, final_step_last, final_step_t. ring.
Qed.

Lemma final_dispatched_arrival (s : state) (tn : Q) :
  Final.dispatched s = (Arrival, tn) ->
  tn = Final.next_arrival s /\
  tle (Fin tn) (Final.next_departure s) = true.
Proof.
  unfold Final.dispatched. intro H.
  assert (Hk : fst (select (Final.next_arrival s) (Final.next_departure s))
               = Arrival) by (rewrite H; reflexivity).
  pose proof (select_arrival_time _ _ Hk) as Ht.
  rewrite H in Ht; simpl in Ht. subst tn.
  split; [reflexivity|]. now apply select_tle.
Qed.

Lemma final_dispatched_departure (s : state) (tn : Q) :
  Final.dispatched s = (Departure, tn) ->
  Final.next_departure s = Fin tn /\ tn < Final.next_arrival s.
Proof.
  unfold Final.dispatched. intro H.
  assert (Hk : fst (select (Final.next_arrival s) (Final.next_departure s))
               = Departure) by (rewrite H; reflexivity).
  pose proof (select_departure _ _ Hk) as Hd.
  rewrite H in Hd; simpl in Hd. exact Hd.
Qed.

(** ** Reachable states: the schedule invariant *)

Lemma final_init_sched (g : gen) : Final.sched_ok (init g).
Proof.
  unfold Final.sched_ok, Final.init.
  destruct (exponential Final.INTERARRIVAL_MEAN g); simpl. now split.
Qed.

Lemma final_step_sched (s : state) :
  Final.sched_ok s -> Final.sched_ok (step s).
Proof.
  unfold Final.sched_ok. intro H. final_step s.
  - try rewrite Hbusy in H. exact H.
  - eexists; reflexivity.
  - now split.
  - apply final_dispatched_departure in Hsel. destruct Hsel as [Hd _].
    destruct (Final.server_busy s).
    + eexists; reflexivity.
    + destruct H as [H _]. congruence.
Qed.

Lemma final_run_sched (k : nat) : forall s : state,
  Final.sched_ok s -> Final.sched_ok (run k s).
Proof.
  induction k as [|k IH]; intros s H; simpl; [exact H|].
  apply IH, final_step_sched, H.
Qed.

(** ** Reachable states: conservation of customers *)

Lemma final_step_conserved (s : state) :
  Final.sched_ok s -> Final.conserved s -> Final.conserved (step s).
Proof.
  unfold Final.sched_ok, Final.conserved. intros Hs H. final_step s.
  - try rewrite Hbusy in H. rewrite length_app; simpl. lia.
  - try rewrite Hbusy in H. lia.
  - apply final_dispatched_departure in Hsel. destruct Hsel as [Hd _].
    destruct (Final.server_busy s).
    + simpl in H. lia.
    + destruct Hs as [Hs _]. congruence.
  - apply final_dispatched_departure in Hsel. destruct Hsel as [Hd _].
    destruct (Final.server_busy s).
    + simpl in H. lia.
    + destruct Hs as [Hs _]. congruence.
Qed.

Lemma final_run_conserved (k : nat) : forall s : state,
  Final.sched_ok s -> Final.conserved s -> Final.conserved (run k s).
Proof.
  induction k as [|k IH]; intros s Hs H; simpl; [exact H|].
  apply IH; [apply final_step_sched | apply final_step_conserved]; assumption.
Qed.

Lemma final_step_starts (s : state) :
  Final.sched_ok s -> Final.starts_counted s -> Final.starts_counted (step s).
Proof.
  unfold Final.sched_ok, Final.starts_counted. intros Hs H. final_step s.
  - try rewrite Hbusy in H. exact H.
  - try rewrite Hbusy in H. rewrite length_app; simpl. lia.
  - apply final_dispatched_departure in Hsel. destruct Hsel as [Hd _].
    destruct (Final.server_busy s).
    + lia.
    + destruct Hs as [Hs _]. congruence.
  - apply final_dispatched_departure in Hsel. destruct Hsel as [Hd _].
    rewrite length_app; simpl.
    destruct (Final.server_busy s).
    + lia.
    + destruct Hs as [Hs _]. congruence.
Qed.

Lemma final_run_starts (k : nat) : forall s : state,
  Final.sched_ok s -> Final.starts_counted s ->
  Final.starts_counted (run k s).
Proof.
  induction k as [|k IH]; intros s Hs H; simpl; [exact H|].
  apply IH; [apply final_step_sched | apply final_step_starts]; assumption.
Qed.

Lemma final_run_S (k : nat) : forall s : state,
  run (S k) s = step (run k s).
Proof.
  induction k as [|k IH]; intro s; [reflexivity|].
  change (run (S (S k)) s) with (run (S k) (step s)).
  rewrite IH. reflexivity.
Qed.

(** ** Reachable states: the clock and the pending events *)

Lemma final_init_timed (g : gen) :
  Final.nonneg_source exponential -> Final.timed (init g).
Proof.
  intro Hnn. unfold Final.timed, Final.init.
  pose proof (Hnn Final.INTERARRIVAL_MEAN g) as H0.
  destruct (exponential Final.INTERARRIVAL_MEAN g) as [A1 g1]; simpl in *.
  assert (0 <= A1) by (apply H0; unfold Final.INTERARRIVAL_MEAN; lra).
  repeat split; try lra; try constructor. discriminate.
Qed.

Lemma final_step_timed (s : state) :
  Final.nonneg_source exponential ->
  Final.timed s -> Final.timed (step s).
Proof.
  intros Hnn (Hl & H0 & Ha & Hd & Hq').
  assert (HIA : 0 <= Final.INTERARRIVAL_MEAN)
    by (unfold Final.INTERARRIVAL_MEAN; lra).
  assert (HSM : 0 <= Final.SERVICE_MEAN)
    by (unfold Final.SERVICE_MEAN; lra).
  unfold Final.timed. final_step s.
  - (* arrival, server busy *)
    pose proof (Hnn _ (Final.rng s) HIA) as HA; rewrite EA in HA; simpl in HA.
    apply final_dispatched_arrival in Hsel. destruct Hsel as [-> Hle].
    repeat split; try lra.
    + intros d E. rewrite E in Hle. simpl in Hle.
      now apply Qle_bool_iff in Hle.
    + apply Forall_app. split.
      * eapply Forall_le_trans; [exact Ha|exact Hq'].
      * constructor; [lra|constructor].
  - (* arrival, server idle *)
    pose proof (Hnn _ (Final.rng s) HIA) as HA; rewrite EA in HA; simpl in HA.
    pose proof (Hnn _ g1 HSM) as HS; rewrite ES in HS; simpl in HS.
    apply final_dispatched_arrival in Hsel. destruct Hsel as [-> Hle].
    repeat split; try lra.
    + intros d E. injection E as <-. lra.
    + eapply Forall_le_trans; [exact Ha|exact Hq'].
  - (* departure, empty wait line *)
    apply final_dispatched_departure in Hsel. destruct Hsel as [E Hlt].
    pose proof (Hd _ E).
    repeat split; try lra; try constructor. discriminate.
  - (* departure, next customer starts *)
    pose proof (Hnn _ (Final.rng s) HSM) as HS; rewrite ES in HS; simpl in HS.
    apply final_dispatched_departure in Hsel. destruct Hsel as [E Hlt].
    pose proof (Hd _ E).
    repeat split; try lra.
    + intros d E'. injection E' as <-. lra.
    + inversion Hq' as [|? ? _ Hrest]; subst.
      eapply Forall_le_trans; [|exact Hrest]. assumption.
Qed.

Lemma final_run_timed (k : nat) : forall s : state,
  Final.nonneg_source exponential ->
  Final.timed s -> Final.timed (run k s).
Proof.
  induction k as [|k IH]; intros s Hnn H; simpl; [exact H|].
  apply IH; [exact Hnn|]. now apply final_step_timed.
Qed.

Lemma final_timed_next (s : state) :
  Final.timed s -> Final.t s <= snd (Final.dispatched s).
Proof.
  intros (Hl & H0 & Ha & Hd & Hq').
  destruct (Final.dispatched s) as [[|] tn] eqn:Hsel; simpl.
  - apply final_dispatched_arrival in Hsel. destruct Hsel as [-> _]. exact Ha.
  - apply final_dispatched_departure in Hsel. destruct Hsel as [E _].
    now apply Hd.
Qed.

(** The event times of a run never decrease, so its history describes
    a step function. *)
Lemma final_history_increasing (k : nat) : forall s : state,
  Final.nonneg_source exponential -> Final.timed s ->
  increasing (Final.t s) (history k s).
Proof.
  induction k as [|k IH]; intros s Hnn Ht; simpl; [exact I|].
  split.
  - rewrite final_step_t. now apply final_timed_next.
  - apply IH; [exact Hnn|]. now apply final_step_timed.
Qed.

(** With non-negative durations [area_Q] is the integral, piece by
    piece, of the step function rebuilt from the history. *)
Lemma final_area_is_riemann (g : gen) (k : nat) :
  Final.nonneg_source exponential ->
  Final.area_Q (run k (init g))
  == riemann (Q_at 0 (history k (init g))) 0
       (map fst (history k (init g))).
Proof.
  intro Hnn.
  assert (E : Final.area_Q (init g) = 0 /\
              Final.last_event_time (init g) = 0 /\
              Final.t (init g) = 0 /\
              len (Final.queue (init g)) = 0).
  { unfold Final.init.
    destruct (exponential Final.INTERARRIVAL_MEAN g); now repeat split. }
  destruct E as (Ea & El & Et & Eq).
  rewrite final_area_from, Ea, El, Eq, Qplus_0_l.
  apply integral_Q_is_riemann. rewrite <- Et.
  apply final_history_increasing; [exact Hnn|now apply final_init_timed].
Qed.

(** ** The claims settled on Final.py *)

(** C1. The accumulated [area_Q] is the time integral of the step function
    [Q(t)] (length of the wait line) rebuilt from the event history, and
    every iteration adds the length of the wait line before the event is
    dispatched, times the time elapsed since the previous event. *)
Theorem area_Q_is_integral_of_history (g : gen) (k : nat) :
  Final.area_Q (run k (init g)) == integral_Q 0 0 (history k (init g)) /\
  (forall s : state,
     Final.area_Q (step s) =
     Final.area_Q s
     + len (Final.queue s)
       * (snd (Final.dispatched s) - Final.last_event_time s)).
Proof.
  split; [|exact final_step_area].
  rewrite final_area_from.
  assert (E : Final.area_Q (init g) = 0 /\
              Final.last_event_time (init g) = 0 /\
              len (Final.queue (init g)) = 0).
  { unfold Final.init.
    destruct (exponential Final.INTERARRIVAL_MEAN g); now repeat split. }
  destruct E as (-> & -> & ->). apply Qplus_0_l.
Qed.

(** Conservation of customers in every reachable state of Final.py. *)
Lemma final_conservation (g : gen) (k : nat) :
  (Z.of_nat (length (Final.queue (run k (init g))))
   + (if Final.server_busy (run k (init g)) then 1 else 0)
   = Final.num_arrivals (run k (init g))
     - Final.num_served (run k (init g)))%Z.
Proof.
  apply final_run_conserved; [apply final_init_sched|].
  unfold Final.conserved, Final.init.
  destruct (exponential Final.INTERARRIVAL_MEAN g); reflexivity.
Qed.

(** The average wait of Final.py divides by the number of service
    starts, which is the number of departures plus the customer in
    service. *)
Lemma final_avg_wait_starts (g : gen) (k : nat) :
  let s := run k (init g) in
  (Final.delays s = [] -> Final.avg_wait s = 0) /\
  (Final.delays s <> [] ->
   Final.avg_wait s = qsum (Final.delays s) / len (Final.delays s)) /\
  (Z.of_nat (length (Final.delays s))
   = Final.num_served s + (if Final.server_busy s then 1 else 0))%Z.
Proof.
  intro s. repeat split.
  - unfold Final.avg_wait. intros ->. reflexivity.
  - unfold Final.avg_wait. destruct (Final.delays s); congruence.
  - apply final_run_starts; [apply final_init_sched|].
    unfold Final.starts_counted, Final.init.
    destruct (exponential Final.INTERARRIVAL_MEAN g); reflexivity.
Qed.

(** On a tie Final.py dispatches the arrival, and the customer joins
    the wait line behind the one in service. *)
Lemma final_tie_arrival_first (g : gen) (k : nat) (d : Q) :
  let s := run k (init g) in
  Final.next_departure s = Fin d ->
  Final.next_arrival s == d ->
  Final.dispatched s = (Arrival, Final.next_arrival s) /\
  Final.server_busy (step s) = true /\
  Final.queue (step s) = Final.queue s ++ [Final.next_arrival s].
Proof.
  intros s Hd Heq.
  assert (Hs : Final.sched_ok s)
    by (apply final_run_sched, final_init_sched).
  assert (Hsel : Final.dispatched s = (Arrival, Final.next_arrival s)).
  { unfold Final.dispatched, select. rewrite Hd.
    assert (E : Qle_bool (Final.next_arrival s) d = true)
      by (apply Qle_bool_iff; rewrite Heq; apply Qle_refl).
    now rewrite E. }
  split; [exact Hsel|].
  unfold Final.sched_ok in Hs.
  unfold Final.step, Final.arrival. rewrite Hsel.
  destruct (exponential Final.INTERARRIVAL_MEAN (Final.rng s)) as [A_i g1].
  destruct (Final.server_busy s); simpl.
  - now split.
  - destruct Hs as [Hs _]. congruence.
Qed.

(** C6. With a variate source that only returns non-negative durations,
    after every iteration the clock is the time of the event that was
    just dispatched, it has not moved backward, and the next event
    dispatched is not earlier than this one. *)
Theorem clock_never_moves_backward (g : gen) (k : nat)
  (Hnn : Final.nonneg_source exponential) :
  let s := run k (init g) in
  Final.t (step s) = snd (Final.dispatched s) /\
  Final.t s <= Final.t (step s) /\
  snd (Final.dispatched s) <= snd (Final.dispatched (step s)).
Proof.
  intro s.
  assert (Ht : Final.timed s)
    by (apply final_run_timed; [exact Hnn|now apply final_init_timed]).
  split; [apply final_step_t|]. split.
  - rewrite final_step_t. now apply final_timed_next.
  - rewrite <- final_step_t. apply final_timed_next.
    now apply final_step_timed.
Qed.

(** C7. In every reachable state an idle server has no departure
    scheduled: the pending departure is the infinite sentinel, which
    every finite arrival time is below or equal to, so the arrival is
    the event selected. *)
Theorem idle_server_has_no_departure (g : gen) (k : nat) :
  Final.server_busy (run k (init g)) = false ->
  Final.next_departure (run k (init g)) = Inf /\
  (forall a : Q, tle (Fin a) Inf = true) /\
  Final.dispatched (run k (init g))
  = (Arrival, Final.next_arrival (run k (init g))).
Proof.
  intro Hidle.
  pose proof (final_run_sched k (init g) (final_init_sched g)) as Hs.
  unfold Final.sched_ok in Hs. rewrite Hidle in Hs. destruct Hs as [Hs _].
  split; [exact Hs|]. split; [reflexivity|].
  unfold Final.dispatched. rewrite Hs. reflexivity.
Qed.

(** C10. From the initial state the first event dispatched is the
    arrival, whatever the first interarrival draw is. *)
Theorem first_event_is_arrival (g : gen) (k : nat) :
  Final.dispatched (init g) = (Arrival, Final.next_arrival (init g)) /\
  hd_error (trace (S k) (init g))
  = Some (Final.next_arrival (init g), Arrival) /\
  Final.num_arrivals (step (init g)) = 1%Z /\
  Final.num_served (step (init g)) = 0%Z.
Proof.
  assert (E : Final.dispatched (init g)
              = (Arrival, Final.next_arrival (init g))).
  { unfold Final.dispatched, Final.init.
    destruct (exponential Final.INTERARRIVAL_MEAN g); reflexivity. }
  split; [exact E|]. split; [simpl; now rewrite E|].
  unfold Final.step, Final.arrival. rewrite E.
  unfold Final.init.
  destruct (exponential Final.INTERARRIVAL_MEAN g) as [A1 g1]; simpl.
  destruct (exponential Final.INTERARRIVAL_MEAN g1) as [A2 g2]; simpl.
  destruct (exponential Final.SERVICE_MEAN g2); simpl. now split.
Qed.

End FinalFacts.

Lemma ramp_nonneg : Final.nonneg_source ramp.
Proof.
  intros scale n Hs. unfold ramp; simpl.
  apply Qmult_le_0_compat; [exact Hs|].
  change 0 with (inject_Z 0). rewrite <- Zle_Qle. lia.
Qed.

Lemma replay_nat_nonneg : Final.nonneg_source replay_nat.
Proof.
  intros scale [|x g] _; simpl; [apply Qle_refl|].
  change 0 with (inject_Z 0). rewrite <- Zle_Qle. lia.
Qed.

Lemma clock_never_moves_backward_witness :
  Final.nonneg_source ramp /\
  (let s := Final.run ramp 4 (Final.init ramp 0%nat) in
   Final.t (Final.step ramp s) = snd (Final.dispatched s) /\
   Final.t s <= Final.t (Final.step ramp s) /\
   snd (Final.dispatched s)
   <= snd (Final.dispatched (Final.step ramp s))).
Proof.
  split; [exact ramp_nonneg|].
  apply (clock_never_moves_backward nat ramp 0%nat 4%nat ramp_nonneg).
Defined.

Lemma idle_server_has_no_departure_witness :
  Final.server_busy (Final.run ramp 0 (Final.init ramp 0%nat)) = false /\
  Final.next_departure (Final.run ramp 0 (Final.init ramp 0%nat)) = Inf.
Proof.
  split; [reflexivity|].
  apply (idle_server_has_no_departure nat ramp 0%nat 0%nat). reflexivity.
Defined.

(** * Facts about z___deepseek.py *)

Section DeepseekFacts.

Variable gen : Type.
Variable expovariate : Q -> gen -> Q * gen.
Variable interarrival_mean : Q.
Variable service_mean : Q.

Local Abbreviation ds_state := (Deepseek.state gen).
Local Abbreviation ds_init :=
  (Deepseek.initialize_simulation expovariate interarrival_mean).
Local Abbreviation ds_dispatch :=
  (Deepseek.dispatch expovariate interarrival_mean service_mean).
Local Abbreviation ds_dispatch_n :=
  (Deepseek.dispatch_n expovariate interarrival_mean service_mean).

(** The cached length [current_Q] is the length of the wait line. *)
Lemma deepseek_dispatch_current_Q (s : ds_state) :
  Deepseek.current_Q s = Z.of_nat (length (Deepseek.queue s)) ->
  Deepseek.current_Q (snd (ds_dispatch s))
  = Z.of_nat (length (Deepseek.queue (snd (ds_dispatch s)))).
Proof.
  intro H. unfold Deepseek.dispatch, Deepseek.timing_routine.
  destruct (Deepseek.event_list s) as [|e l]; simpl; [exact H|].
  destruct (Deepseek.min_event e l) as [[|] te]; simpl.
  - unfold Deepseek.process_arrival; simpl.
    destruct (Deepseek.generate_interarrival expovariate interarrival_mean
                (Deepseek.rng s)) as [ia g1].
    destruct (Deepseek.server_status s); simpl.
    + destruct (Deepseek.generate_service expovariate service_mean g1).
      simpl. exact H.
    + reflexivity.
  - unfold Deepseek.process_departure; simpl.
    destruct (Deepseek.queue s) as [|a rest]; simpl; [reflexivity|].
    destruct (Deepseek.generate_service expovariate service_mean
                (Deepseek.rng s)). reflexivity.
Qed.

Lemma deepseek_current_Q (n : nat) : forall s : ds_state,
  Deepseek.current_Q s = Z.of_nat (length (Deepseek.queue s)) ->
  Deepseek.current_Q (ds_dispatch_n n s)
  = Z.of_nat (length (Deepseek.queue (ds_dispatch_n n s))).
Proof.
  induction n as [|n IH]; intros s H; simpl; [exact H|].
  pose proof (deepseek_dispatch_current_Q s H) as H1.
  destruct (ds_dispatch s) as [[e|] s1]; simpl in H1.
  - now apply IH.
  - exact H1.
Qed.

(** The timing routine adds to [Q_area] the cached length times the time
    elapsed since the previous event, before the handler runs. *)
Lemma deepseek_timing_area (s : ds_state) (ev : Deepseek.event)
  (s1 : ds_state) :
  Deepseek.timing_routine s = (Some ev, s1) ->
  Deepseek.Q_area s1
  = Deepseek.fadd (Deepseek.Q_area s)
      (Deepseek.fmul_int (Deepseek.current_Q s)
         (Deepseek.fsub (snd ev) (Deepseek.last_event_time s))) /\
  Deepseek.clock s1 = snd ev /\
  Deepseek.queue s1 = Deepseek.queue s.
Proof.
  unfold Deepseek.timing_routine.
  destruct (Deepseek.event_list s) as [|e l]; [discriminate|].
  intro H. injection H as <- <-. simpl. now repeat split.
Qed.

End DeepseekFacts.

(** ** The claims that z___deepseek.py breaks *)

(** C2. Conservation of customers is broken by z___deepseek.py, whatever
    the durations drawn.  After the first event (the first arrival) one
    customer is in service, nobody waits and nobody has left, but
    [process_arrival] has already counted the customer in
    [total_served]: wait line + in service is 1 and arrivals - served
    is 0. *)
Theorem deepseek_breaks_conservation
  (gen : Type) (expovariate : Q -> gen -> Q * gen)
  (interarrival_mean service_mean : Q) (g : gen) :
  let s := Deepseek.dispatch_n expovariate interarrival_mean service_mean 1
             (Deepseek.initialize_simulation expovariate
                interarrival_mean g) in
  Deepseek.total_arrivals s = 1%Z /\
  Deepseek.total_served s = 1%Z /\
  Deepseek.server_status s = Deepseek.BUSY /\
  Deepseek.queue s = [] /\
  (Z.of_nat (length (Deepseek.queue s)) + 1
   <> Deepseek.total_arrivals s - Deepseek.total_served s)%Z.
Proof.
  unfold Deepseek.dispatch_n, Deepseek.dispatch, Deepseek.timing_routine,
    Deepseek.initialize_simulation.
  destruct (Deepseek.generate_interarrival expovariate interarrival_mean g)
    as [first_arrival g0].
  simpl. unfold Deepseek.process_arrival; simpl.
  destruct (Deepseek.generate_interarrival expovariate interarrival_mean g0)
    as [ia g1].
  destruct (Deepseek.generate_service expovariate service_mean g1)
    as [sv g2].
  simpl. repeat split. discriminate.
Qed.

(** C3. On a tie z___deepseek.py can dispatch the departure first.  With
    a second interarrival time and a first service time of zero, the
    second arrival and the first departure are both due at the time of
    the first arrival; the arrival is dispatched (it is first in the
    list), finds the server busy and schedules the third arrival, again
    after a zero duration, behind the pending departure: [min] then
    returns the departure, before the arrival due at the same time.  The
    same happens when the times coincide without any zero duration
    (interarrival times 1, 1, 1 and service time 2). *)
Theorem deepseek_tie_dispatches_departure :
  (let s := deepseek_dispatch_n 2 (deepseek_main [1; 0; 0; 0; 0]) in
   Deepseek.event_list s
   = [(Departure, Deepseek.Num 1); (Arrival, Deepseek.Num 1)] /\
   fst (Deepseek.dispatch replay (5 # 2) 2 s)
   = Some (Departure, Deepseek.Num 1)) /\
  (let s := deepseek_dispatch_n 2 (deepseek_main [1; 1; 2; 1; 1]) in
   Deepseek.event_list s
   = [(Departure, Deepseek.Num 3); (Arrival, Deepseek.Num 3)] /\
   fst (Deepseek.dispatch replay (5 # 2) 2 s)
   = Some (Departure, Deepseek.Num 3)) /\
  Deepseek.dispatch_log replay (5 # 2) 2 3 (deepseek_main [1; 0; 0; 0; 0])
  = [(Arrival, Deepseek.Num 1); (Arrival, Deepseek.Num 1);
     (Departure, Deepseek.Num 1)].
Proof.
  vm_compute. repeat split.
Qed.

(** C5. The average wait reported by z___deepseek.py does not divide by
    the number of service starts.  After two animation frames (six
    events: arrivals at 1 and 2, departures at 3 and 4, arrivals at 12
    and 13) three customers have begun service, with waits 0, 1 and 0,
    and two have left; [update_metrics] divides the total wait 1 by
    [total_served], which is 4, and reports 1/4 instead of 1/3. *)
Theorem deepseek_average_divides_by_total_served :
  let s := Deepseek.frames replay (5 # 2) 2 2
             (deepseek_main [1; 1; 2; 10; 1; 1; 5; 10]) in
  Deepseek.delays s = [Deepseek.Num 0; Deepseek.Num 1; Deepseek.Num 0] /\
  Deepseek.total_delay s = Deepseek.Num 1 /\
  Deepseek.total_served s = 4%Z /\
  Deepseek.avg_wait s = Deepseek.Num (1 # 4) /\
  ~ (1 # 4) == 1 / inject_Z (Z.of_nat (length (Deepseek.delays s))).
Proof.
  vm_compute. repeat split. discriminate.
Qed.

(** * Facts about z___Perplexity.py *)

Section PerplexityFacts.

Variable N : Z.
Variable A : list Q.
Variable S : list Q.

Local Abbreviation pstate := Perplexity.state.
Local Abbreviation body := (Perplexity.body N A S).
Local Abbreviation steps := (Perplexity.steps N A S).
Local Abbreviation des_loop := (Perplexity.des_loop N A S).

(** Unfolds one iteration that did not fail into its five branches:
    arrival to a busy server, arrival to an idle server, the departure
    that reaches the horizon, departure leaving an empty wait line,
    departure that starts the next service. *)
Ltac perp_body s :=
  unfold Perplexity.body, Perplexity.arrival, Perplexity.departure;
  destruct (Perplexity.dispatched s) as [[|] te] eqn:Hsel;
  [ destruct (nth_error A (Perplexity.ia_i s)) as [a|] eqn:EA;
    [|discriminate];
    destruct (Perplexity.server_busy s) eqn:Hbusy; simpl;
    [ | destruct (nth_error S (Perplexity.sv_i s)) as [sv|] eqn:ES;
        [|discriminate] ]
  | destruct (N <=? Perplexity.served s + 1)%Z eqn:Hlast;
    [ | destruct (Perplexity.q s) as [|a rest] eqn:Hq;
        [ | destruct (nth_error S (Perplexity.sv_i s)) as [sv|] eqn:ES;
            [|discriminate] ] ] ];
  (let Hb := fresh "Hb" in intro Hb; injection Hb as <-); simpl.

Lemma perp_body_clock (s s' : pstate) :
  body s = Some s' ->
  Perplexity.t s' = snd (Perplexity.dispatched s) /\
  Perplexity.last_t s' = snd (Perplexity.dispatched s) /\
  Perplexity.area_q s'
  = Perplexity.area_q s
    + len (Perplexity.q s)
      * (snd (Perplexity.dispatched s) - Perplexity.last_t s).
Proof. perp_body s; now repeat split. Qed.

Lemma perp_body_served (s s' : pstate) :
  body s = Some s' ->
  Perplexity.served s'
  = (Perplexity.served s
     + match fst (Perplexity.dispatched s) with
       | Arrival => 0
       | Departure => 1
       end)%Z.
Proof. perp_body s; lia. Qed.

Lemma perp_body_sched (s s' : pstate) :
  Perplexity.sched_ok s -> body s = Some s' -> Perplexity.sched_ok s'.
Proof.
  unfold Perplexity.sched_ok. intro H. perp_body s.
  - exact H.
  - eexists; reflexivity.
  - reflexivity.
  - reflexivity.
  - eexists; reflexivity.
Qed.

Lemma perp_body_conserved (s s' : pstate) :
  Perplexity.sched_ok s -> Perplexity.conserved s ->
  body s = Some s' -> Perplexity.conserved s'.
Proof.
  unfold Perplexity.sched_ok, Perplexity.conserved. intros Hs H.
  perp_body s.
  - rewrite length_app; simpl. lia.
  - lia.
  - apply select_departure_inv in Hsel. destruct Hsel as [Hd _].
    destruct (Perplexity.server_busy s); [lia|congruence].
  - apply select_departure_inv in Hsel. destruct Hsel as [Hd _].
    destruct (Perplexity.server_busy s); [simpl in H; lia|congruence].
  - apply select_departure_inv in Hsel. destruct Hsel as [Hd _].
    destruct (Perplexity.server_busy s); [simpl in H; lia|congruence].
Qed.

Lemma perp_body_timed (s s' : pstate) :
  Forall (fun x => 0 <= x) A -> Forall (fun x => 0 <= x) S ->
  Perplexity.timed s -> body s = Some s' -> Perplexity.timed s'.
Proof.
  intros HA HS (Hl & H0 & Ha & Hd & Hq'). unfold Perplexity.timed.
  perp_body s.
  - pose proof (Forall_nth_error _ _ _ _ HA EA) as Hx. simpl in Hx.
    apply select_arrival_inv in Hsel. destruct Hsel as [-> Hle].
    repeat split; try lra.
    + intros d E. rewrite E in Hle. simpl in Hle.
      now apply Qle_bool_iff in Hle.
    + apply Forall_app. split.
      * eapply Forall_le_trans; [exact Ha|exact Hq'].
      * constructor; [lra|constructor].
  - pose proof (Forall_nth_error _ _ _ _ HA EA) as Hx. simpl in Hx.
    pose proof (Forall_nth_error _ _ _ _ HS ES) as Hy. simpl in Hy.
    apply select_arrival_inv in Hsel. destruct Hsel as [-> Hle].
    repeat split; try lra.
    + intros d E. injection E as <-. lra.
    + eapply Forall_le_trans; [exact Ha|exact Hq'].
  - apply select_departure_inv in Hsel. destruct Hsel as [E Hlt].
    pose proof (Hd _ E).
    repeat split; try lra; try discriminate.
    eapply Forall_le_trans; [|exact Hq']. assumption.
  - apply select_departure_inv in Hsel. destruct Hsel as [E Hlt].
    pose proof (Hd _ E).
    repeat split; try lra; try constructor. discriminate.
  - pose proof (Forall_nth_error _ _ _ _ HS ES) as Hy. simpl in Hy.
    apply select_departure_inv in Hsel. destruct Hsel as [E Hlt].
    pose proof (Hd _ E).
    repeat split; try lra.
    + intros d E'. injection E' as <-. lra.
    + inversion Hq' as [|? ? _ Hrest]; subst.
      eapply Forall_le_trans; [|exact Hrest]. assumption.
Qed.

Lemma perp_steps_sched (k : nat) : forall s s' : pstate,
  Perplexity.sched_ok s -> steps k s = Some s' -> Perplexity.sched_ok s'.
Proof.
  induction k as [|k IH]; intros s s' H; simpl.
  - intro E. injection E as <-. exact H.
  - destruct (Perplexity.served s <? N)%Z; [|discriminate].
    destruct (body s) as [s1|] eqn:Eb; [|discriminate].
    apply IH. eapply perp_body_sched; eassumption.
Qed.

Lemma perp_steps_conserved (k : nat) : forall s s' : pstate,
  Perplexity.sched_ok s -> Perplexity.conserved s ->
  steps k s = Some s' -> Perplexity.conserved s'.
Proof.
  induction k as [|k IH]; intros s s' Hs H; simpl.
  - intro E. injection E as <-. exact H.
  - destruct (Perplexity.served s <? N)%Z; [|discriminate].
    destruct (body s) as [s1|] eqn:Eb; [|discriminate].
    apply IH.
    + eapply perp_body_sched; eassumption.
    + eapply perp_body_conserved; eassumption.
Qed.

Lemma perp_steps_timed (k : nat) : forall s s' : pstate,
  Forall (fun x => 0 <= x) A -> Forall (fun x => 0 <= x) S ->
  Perplexity.timed s -> steps k s = Some s' -> Perplexity.timed s'.
Proof.
  induction k as [|k IH]; intros s s' HA HS H; simpl.
  - intro E. injection E as <-. exact H.
  - destruct (Perplexity.served s <? N)%Z; [|discriminate].
    destruct (body s) as [s1|] eqn:Eb; [|discriminate].
    apply IH; try assumption. eapply perp_body_timed; eassumption.
Qed.

Lemma perp_init_timed (A1 : Q) :
  0 <= A1 -> Perplexity.timed (Perplexity.init A1).
Proof.
  intro H. unfold Perplexity.timed; simpl.
  repeat split; try lra; try constructor. discriminate.
Qed.

(** ** The loop and its horizon *)

Lemma perp_body_left (s s' : pstate) :
  (Perplexity.served s < N)%Z -> body s = Some s' ->
  (Perplexity.iterations_left N A s'
   < Perplexity.iterations_left N A s)%nat.
Proof.
  unfold Perplexity.iterations_left. intro Hlt. perp_body s.
  - assert (Perplexity.ia_i s < length A)%nat
      by (apply nth_error_Some; congruence). lia.
  - assert (Perplexity.ia_i s < length A)%nat
      by (apply nth_error_Some; congruence). lia.
  - lia.
  - lia.
  - lia.
Qed.

Lemma perp_loop_fuel (fuel : nat) : forall s : pstate,
  (Perplexity.iterations_left N A s < fuel)%nat ->
  snd (des_loop fuel s) <> Perplexity.OutOfFuel.
Proof.
  induction fuel as [|fuel IH]; intros s Hf; [lia|].
  simpl. destruct (Perplexity.served s <? N)%Z eqn:Hg; [|discriminate].
  apply Z.ltb_lt in Hg.
  destruct (body s) as [s1|] eqn:Eb; [|discriminate].
  pose proof (perp_body_left s s1 Hg Eb) as Hm.
  specialize (IH s1). destruct (des_loop fuel s1) as [tr o]; simpl in *.
  apply IH. lia.
Qed.

Lemma perp_loop_done (fuel : nat) :
  forall (s s' : pstate) (tr : list (Q * kind)),
  des_loop fuel s = (tr, Perplexity.Done s') ->
  (Perplexity.served s'
   = Perplexity.served s + Perplexity.count_departures tr)%Z /\
  ((Perplexity.served s < N)%Z ->
   Perplexity.served s' = N /\
   exists tr0 te, tr = tr0 ++ [(te, Departure)]) /\
  ((N <= Perplexity.served s)%Z -> tr = [] /\ s' = s) /\
  (forall p r, tr = p ++ r -> r <> [] ->
   (Perplexity.served s + Perplexity.count_departures p < N)%Z).
Proof.
  induction fuel as [|fuel IH]; intros s s' tr; simpl.
  - destruct (Perplexity.served s <? N)%Z eqn:Hg; [discriminate|].
    apply Z.ltb_ge in Hg. intro E. injection E as <- <-.
    repeat split; simpl; try lia.
    intros p r E Hr. symmetry in E. apply app_eq_nil in E.
    destruct E; congruence.
  - destruct (Perplexity.served s <? N)%Z eqn:Hg.
    + apply Z.ltb_lt in Hg.
      destruct (body s) as [s1|] eqn:Eb; [|discriminate].
      pose proof (perp_body_served s s1 Eb) as Hsv.
      specialize (IH s1).
      destruct (des_loop fuel s1) as [tr1 o] eqn:El.
      intro E. injection E as <- ->.
      destruct (IH s' tr1 eq_refl) as (Hc & Hlt & Hge & Hpre).
      destruct (Perplexity.dispatched s) as [[|] te] eqn:Hsel;
        simpl in Hsv |- *.
      * (* an arrival was dispatched *)
        assert (Hs1 : (Perplexity.served s1 < N)%Z) by lia.
        destruct (Hlt Hs1) as (HN & tr0 & te0 & ->).
        split; [lia|]. split; [|split].
        -- intros _. split; [lia|].
           exists ((te, Arrival) :: tr0), te0. reflexivity.
        -- intro. lia.
        -- intros p r E Hr. destruct p as [|e p]; simpl in *; [lia|].
           injection E as <- E.
           specialize (Hpre p r E Hr). simpl. lia.
      * (* a departure was dispatched *)
        destruct (Z_lt_le_dec (Perplexity.served s1) N) as [Hs1|Hs1].
        -- destruct (Hlt Hs1) as (HN & tr0 & te0 & ->).
           split; [lia|]. split; [|split].
           ++ intros _. split; [lia|].
              exists ((te, Departure) :: tr0), te0. reflexivity.
           ++ intro. lia.
           ++ intros p r E Hr. destruct p as [|e p]; simpl in *; [lia|].
              injection E as <- E.
              specialize (Hpre p r E Hr). simpl. lia.
        -- destruct (Hge Hs1) as (-> & ->). simpl in Hc.
           split; [simpl; lia|]. split; [|split].
           ++ intros _. split; [lia|].
              exists [], te. reflexivity.
           ++ intro. lia.
           ++ intros p r E Hr. destruct p as [|e p]; simpl in *; [lia|].
              injection E as <- E. symmetry in E.
              apply app_eq_nil in E. destruct E; congruence.
    + apply Z.ltb_ge in Hg. intro E. injection E as <- <-.
      repeat split; simpl; try lia.
      intros p r E Hr. symmetry in E. apply app_eq_nil in E.
      destruct E; congruence.
Qed.

End PerplexityFacts.

(** ** Conservation, clock and first event in z___Perplexity.py *)

Lemma perp_conservation (N : Z) (A S : list Q) (A1 : Q) (k : nat)
  (s : Perplexity.state) :
  Perplexity.steps N A S k (Perplexity.init A1) = Some s ->
  (Z.of_nat (length (Perplexity.q s))
   + (if Perplexity.server_busy s then 1 else 0)
   = Perplexity.arrivals s - Perplexity.served s)%Z.
Proof.
  apply perp_steps_conserved; reflexivity.
Qed.

Lemma perp_clock_monotone (N : Z) (A S : list Q) (A1 : Q) (k : nat)
  (s s' : Perplexity.state) :
  Forall (fun x => 0 <= x) A -> Forall (fun x => 0 <= x) S ->
  nth_error A 0 = Some A1 ->
  Perplexity.steps N A S k (Perplexity.init A1) = Some s ->
  Perplexity.body N A S s = Some s' ->
  Perplexity.t s' = snd (Perplexity.dispatched s) /\
  Perplexity.t s <= Perplexity.t s'.
Proof.
  intros HA HS H0 Hs Hb.
  assert (Ht : Perplexity.timed s).
  { eapply perp_steps_timed; [exact HA|exact HS| |exact Hs].
    apply perp_init_timed. exact (Forall_nth_error _ _ _ _ HA H0). }
  destruct (perp_body_clock N A S s s' Hb) as (Hc & _).
  split; [exact Hc|].
  destruct Ht as (_ & _ & Ha & Hdd & _).
  rewrite Hc.
  destruct (Perplexity.dispatched s) as [[|] te] eqn:Hsel; simpl;
    unfold Perplexity.dispatched in Hsel.
  - apply select_arrival_inv in Hsel. destruct Hsel as [-> _]. exact Ha.
  - apply select_departure_inv in Hsel. destruct Hsel as [Hd _].
    now apply Hdd.
Qed.

Lemma perp_first_event (N : Z) (A S : list Q) (A1 : Q) (fuel : nat) :
  nth_error A 0 = Some A1 ->
  fst (Perplexity.simulate N A S fuel) = [] \/
  exists tr, fst (Perplexity.simulate N A S fuel) = (A1, Arrival) :: tr.
Proof.
  intro H0. unfold Perplexity.simulate. rewrite H0.
  destruct fuel as [|fuel]; simpl.
  - left. now destruct (0 <? N)%Z.
  - destruct (0 <? N)%Z; [|now left].
    destruct (Perplexity.body N A S (Perplexity.init A1)) as [s1|];
      [|now left].
    destruct (Perplexity.des_loop N A S fuel s1) as [tr o].
    right. exists tr. reflexivity.
Qed.

(** ** The claims settled on z___Perplexity.py *)

(** C9. With a horizon [N], when the loop ends normally the number of
    departures processed is exactly [N]; the last event dispatched is the
    departure that reached it (the arrival still pending is never
    dispatched), and no event is dispatched once [N] departures have been
    processed.  The loop always ends: with fuel [len(A) + N] the model
    never runs out of fuel (it ends normally or on an index error). *)
Theorem loop_stops_at_horizon (N : Z) (A S : list Q) (fuel : nat)
  (tr : list (Q * kind)) (s' : Perplexity.state)
  (Hdone : Perplexity.simulate N A S fuel = (tr, Perplexity.Done s')) :
  ((0 <= N)%Z -> Perplexity.served s' = N) /\
  Perplexity.count_departures tr = Perplexity.served s' /\
  ((0 < N)%Z -> exists tr0 te, tr = tr0 ++ [(te, Departure)]) /\
  (forall p r, tr = p ++ r -> r <> [] ->
   (Perplexity.count_departures p < N)%Z) /\
  (forall fuel', (length A + Z.to_nat N <= fuel')%nat ->
   snd (Perplexity.simulate N A S fuel') <> Perplexity.OutOfFuel).
Proof.
  assert (Htotal : forall fuel', (length A + Z.to_nat N <= fuel')%nat ->
            snd (Perplexity.simulate N A S fuel') <> Perplexity.OutOfFuel).
  { intros fuel' Hf. unfold Perplexity.simulate.
    destruct (nth_error A 0) as [A1|] eqn:E0; [|discriminate].
    apply perp_loop_fuel. unfold Perplexity.iterations_left; simpl.
    assert (0 < length A)%nat by (apply nth_error_Some; congruence).
    lia. }
  unfold Perplexity.simulate in Hdone.
  destruct (nth_error A 0) as [A1|]; [|discriminate].
  apply perp_loop_done in Hdone. simpl in Hdone.
  destruct Hdone as (Hc & Hlt & Hge & Hpre).
  split; [|split; [|split; [|split]]].
  - intro HN. destruct (Z_lt_le_dec 0 N) as [Hp|Hp].
    + now destruct (Hlt Hp).
    + destruct (Hge Hp) as [_ ->]. simpl. lia.
  - lia.
  - intro Hp. now destruct (Hlt Hp).
  - intros p r E Hr. specialize (Hpre p r E Hr). lia.
  - exact Htotal.
Qed.

Lemma loop_stops_at_horizon_witness :
  exists tr s',
    Perplexity.simulate 1 [1; 5] [2] 3 = (tr, Perplexity.Done s') /\
    Perplexity.served s' = 1%Z /\
    Perplexity.count_departures tr = 1%Z.
Proof.
  eexists. eexists.
  assert (H : Perplexity.simulate 1 [1; 5] [2] 3
              = ([(1, Arrival); (3, Departure)],
                 Perplexity.Done
                   {| Perplexity.t := 3; Perplexity.server_busy := false;
                      Perplexity.q := []; Perplexity.next_arrival := 6;
                      Perplexity.next_departure := Inf;
                      Perplexity.arrivals := 1; Perplexity.served := 1;
                      Perplexity.sum_wait := 0;
                      Perplexity.count_started := 1;
                      Perplexity.area_q := 0; Perplexity.last_t := 3;
                      Perplexity.last_event := Some Departure;
                      Perplexity.ia_i := 2; Perplexity.sv_i := 1;
                      Perplexity.events := 2 |}))
    by (vm_compute; reflexivity).
  split; [exact H|].
  destruct (loop_stops_at_horizon 1 [1; 5] [2] 3 _ _ H) as (Hs & Hc & _).
  split; [apply Hs; lia|exact Hc].
Defined.

Lemma max0_nonneg (x : Q) : 0 <= x -> Perplexity.max0 x == x.
Proof.
  intro H. unfold Perplexity.max0.
  destruct (Qle_bool x 0) eqn:E; [|reflexivity].
  apply Qle_bool_iff in E. lra.
Qed.



(** * Reproducibility *)


(** * Further properties of Final.py *)

Lemma qsum_app (l : list Q) (x : Q) : qsum (l ++ [x]) = qsum l + x.
Proof. unfold qsum. now rewrite fold_left_app. Qed.

Lemma pending_wait_app (t a : Q) (l : list Q) :
  pending_wait t (l ++ [a]) == pending_wait t l + (t - a).
Proof.
  induction l as [|b l IH]; simpl; [ring|]. rewrite IH. ring.
Qed.

Lemma pending_wait_shift (t t' : Q) (l : list Q) :
  pending_wait t' l == pending_wait t l + len l * (t' - t).
Proof.
  induction l as [|b l IH]; simpl.
  - unfold len; simpl. ring.
  - rewrite IH. unfold len; simpl length.
    rewrite Nat2Z.inj_succ, <- Z.add_1_r, inject_Z_plus. ring.
Qed.

Lemma qsum_nonneg (l : list Q) : Forall (fun x => 0 <= x) l -> 0 <= qsum l.
Proof.
  induction l as [|x l IH] using rev_ind; intro H.
  - unfold qsum; simpl. lra.
  - apply Forall_app in H. destruct H as [Hl Hx].
    inversion Hx; subst. rewrite qsum_app. specialize (IH Hl). lra.
Qed.

Lemma pending_wait_nonneg (t : Q) (l : list Q) :
  Forall (fun a => a <= t) l -> 0 <= pending_wait t l.
Proof.
  induction l as [|a l IH]; intro H; simpl; [lra|].
  inversion H; subst. specialize (IH H3). lra.
Qed.

Section FinalMore.

Variable gen : Type.
Variable exponential : Q -> gen -> Q * gen.

Local Abbreviation state := (Final.state gen).
Local Abbreviation init := (Final.init exponential).
Local Abbreviation step := (Final.step exponential).
Local Abbreviation run := (Final.run exponential).

(** One iteration, branch by branch (see [Final.step]). *)
Ltac final_cases s :=
  unfold Final.step, Final.arrival, Final.departure;
  destruct (Final.dispatched s) as [[|] tn] eqn:Hsel;
  [ destruct (exponential Final.INTERARRIVAL_MEAN (Final.rng s))
      as [A_i g1] eqn:EA;
    destruct (Final.server_busy s) eqn:Hbusy; simpl;
    [ | destruct (exponential Final.SERVICE_MEAN g1) as [S_i g2] eqn:ES;
        simpl ]
  | destruct (exponential Final.SERVICE_MEAN (Final.rng s))
      as [S_i g1] eqn:ES;
    destruct (Final.queue s) as [|a rest] eqn:Hq; simpl ].

(** ** The two statistics account for the same waiting time *)

Lemma final_step_accounts (s : state) :
  Final.last_event_time s = Final.t s ->
  Final.area_Q s
  == qsum (Final.delays s) + pending_wait (Final.t s) (Final.queue s) ->
  Final.area_Q (step s)
  == qsum (Final.delays (step s))
     + pending_wait (Final.t (step s)) (Final.queue (step s)).
Proof.
  intros Hl H.
  pose proof (pending_wait_shift (Final.t s)) as Hshift.
  final_cases s; rewrite Hl.
  - rewrite pending_wait_app, (Hshift tn), H. ring.
  - rewrite qsum_app, (Hshift tn), H. ring.
  - rewrite H. simpl. unfold len; simpl. ring.
  - rewrite qsum_app, H.
    pose proof (Hshift tn (a :: rest)) as E.
    simpl pending_wait in E |- *. lra.
Qed.

Lemma final_run_accounts (k : nat) : forall s : state,
  Final.last_event_time s = Final.t s ->
  Final.area_Q s
  == qsum (Final.delays s) + pending_wait (Final.t s) (Final.queue s) ->
  Final.area_Q (run k s)
  == qsum (Final.delays (run k s))
     + pending_wait (Final.t (run k s)) (Final.queue (run k s)).
Proof.
  induction k as [|k IH]; intros s Hl H; simpl; [exact H|].
  apply IH.
  - now rewrite final_step_last, final_step_t.
  - now apply final_step_accounts.
Qed.

Lemma final_init_fields (g : gen) :
  Final.t (init g) = 0 /\
  Final.queue (init g) = [] /\
  Final.server_busy (init g) = false /\
  Final.next_departure (init g) = Inf /\
  Final.num_arrivals (init g) = 0%Z /\
  Final.num_served (init g) = 0%Z /\
  Final.delays (init g) = [] /\
  Final.area_Q (init g) = 0 /\
  Final.last_event_time (init g) = 0 /\
  Final.event_counter (init g) = 0%Z.
Proof.
  unfold Final.init.
  destruct (exponential Final.INTERARRIVAL_MEAN g); simpl. now repeat split.
Qed.

(** X1. In every reachable state of Final.py the area under [Q(t)] is the
    waiting time of the customers: the waits already recorded in [delays]
    plus the time that the customers still in the wait line have spent
    there up to the clock.  The two statistics of the dashboard are two
    accounts of the same quantity. *)
Theorem final_area_is_total_waiting_time (g : gen) (k : nat) :
  let s := run k (init g) in
  Final.area_Q s
  == qsum (Final.delays s) + pending_wait (Final.t s) (Final.queue s).
Proof.
  intro s. destruct (final_init_fields g)
    as (Et & Eq & _ & _ & _ & _ & Ed & Ea & El & _).
  apply final_run_accounts.
  - now rewrite El, Et.
  - rewrite Ea, Ed, Eq. unfold qsum; simpl. ring.
Qed.

(** ** Counters *)

Lemma final_step_counts (s : state) :
  Final.event_counter (step s) = (Final.event_counter s + 1)%Z /\
  (Final.num_arrivals (step s) + Final.num_served (step s)
   = Final.num_arrivals s + Final.num_served s + 1)%Z /\
  (Final.num_served s <= Final.num_served (step s))%Z.
Proof. final_cases s; repeat split; lia. Qed.

Lemma final_run_counts (k : nat) : forall s : state,
  Final.event_counter (run k s) = (Final.event_counter s + Z.of_nat k)%Z /\
  (Final.num_arrivals (run k s) + Final.num_served (run k s)
   = Final.num_arrivals s + Final.num_served s + Z.of_nat k)%Z /\
  (Final.num_served s <= Final.num_served (run k s))%Z.
Proof.
  induction k as [|k IH]; intro s.
  - simpl. repeat split; lia.
  - change (run (S k) s) with (run k (step s)).
    destruct (IH (step s)) as (H1 & H2 & H3).
    destruct (final_step_counts s) as (E1 & E2 & E3).
    rewrite Nat2Z.inj_succ. repeat split; lia.
Qed.

(** X2. After [k] iterations of Final.py, [event_counter] is [k] and is
    the number of arrivals plus the number of departures; every customer
    who arrived has either an entry in [delays] or a place in the wait
    line; the departures are never more than the arrivals; and the
    dashboard is redrawn exactly after the iterations whose number is a
    multiple of [UPDATE_EVERY]. *)
Theorem final_event_counts (g : gen) (k : nat) :
  let s := run k (init g) in
  Final.event_counter s = Z.of_nat k /\
  (Final.num_arrivals s + Final.num_served s = Final.event_counter s)%Z /\
  (Z.of_nat (length (Final.delays s)) + Z.of_nat (length (Final.queue s))
   = Final.num_arrivals s)%Z /\
  (0 <= Final.num_served s <= Final.num_arrivals s)%Z /\
  (redrawn s = true <-> (Z.of_nat k mod 5 = 0)%Z).
Proof.
  intro s.
  destruct (final_init_fields g)
    as (_ & Eq & Eb & _ & Ena & Ens & Ed & _ & _ & Ec).
  destruct (final_run_counts k (init g)) as (H1 & H2 & H3).
  fold s in H1, H2, H3. rewrite Ec in H1. rewrite Ena, Ens in H2.
  rewrite Ens in H3.
  assert (Hs : Final.sched_ok (init g)) by apply final_init_sched.
  assert (Hc : Final.conserved s).
  { apply final_run_conserved; [exact Hs|].
    unfold Final.conserved. now rewrite Eq, Eb, Ena, Ens. }
  assert (Hd : Final.starts_counted s).
  { apply final_run_starts; [exact Hs|].
    unfold Final.starts_counted. now rewrite Ed, Eb, Ens. }
  unfold Final.conserved in Hc. unfold Final.starts_counted in Hd.
  assert (E : Final.event_counter s = Z.of_nat k) by lia.
  split; [exact E|]. split; [lia|]. split; [|split].
  - destruct (Final.server_busy s); lia.
  - destruct (Final.server_busy s); lia.
  - unfold redrawn, Final.UPDATE_EVERY. rewrite E. apply Z.eqb_eq.
Qed.

(** X3. Final.py conserves customers and its server never idles while a
    customer waits: in every reachable state the customers in the system
    (wait line plus the one in service) are the arrivals minus the
    departures, and either the server is busy with a departure scheduled
    at a finite time, or it is idle, no departure is scheduled and the
    wait line is empty. *)
Theorem final_customers_conserved (g : gen) (k : nat) :
  let s := run k (init g) in
  (Z.of_nat (length (Final.queue s))
   + (if Final.server_busy s then 1 else 0)
   = Final.num_arrivals s - Final.num_served s)%Z /\
  ((Final.server_busy s = true /\ exists d, Final.next_departure s = Fin d) \/
   (Final.server_busy s = false /\ Final.next_departure s = Inf /\
    Final.queue s = [])).
Proof.
  intro s.
  destruct (final_init_fields g) as (_ & Eq & Eb & _ & Ena & Ens & _).
  assert (Hs0 : Final.sched_ok (init g)) by apply final_init_sched.
  split.
  - apply final_run_conserved; [exact Hs0|].
    unfold Final.conserved. now rewrite Eq, Eb, Ena, Ens.
  - pose proof (final_run_sched gen exponential k (init g) Hs0) as Hs.
    fold s in Hs. unfold Final.sched_ok in Hs.
    destruct (Final.server_busy s); [left|right]; now split.
Qed.

(** ** Waits are never negative *)

Lemma final_step_delays (s : state) :
  Final.timed s ->
  Forall (fun x => 0 <= x) (Final.delays s) ->
  Forall (fun x => 0 <= x) (Final.delays (step s)).
Proof.
  intros Ht Hd. pose proof (final_timed_next gen s Ht) as Hn.
  destruct Ht as (_ & _ & _ & _ & Hq').
  revert Hn. final_cases s; simpl; intro Hn; try exact Hd.
  - apply Forall_app. split; [exact Hd|]. constructor; [lra|constructor].
  - apply Forall_app. split; [exact Hd|].
    inversion Hq'; subst. constructor; [lra|constructor].
Qed.

Lemma final_run_delays (k : nat) : forall s : state,
  Final.nonneg_source exponential -> Final.timed s ->
  Forall (fun x => 0 <= x) (Final.delays s) ->
  Forall (fun x => 0 <= x) (Final.delays (run k s)).
Proof.
  induction k as [|k IH]; intros s Hnn Ht Hd; simpl; [exact Hd|].
  apply IH; [exact Hnn| |].
  - now apply final_step_timed.
  - now apply final_step_delays.
Qed.

(** X4. With a variate source that only returns non-negative durations,
    no statistic of Final.py is ever negative: every recorded wait, the
    area under [Q(t)], the average wait shown by [update_plots] and the
    time-average length of the wait line; and the bar of the average
    wait stays inside its axis. *)
Theorem final_statistics_nonneg (g : gen) (k : nat)
  (Hnn : Final.nonneg_source exponential) :
  let s := run k (init g) in
  Forall (fun x => 0 <= x) (Final.delays s) /\
  0 <= Final.area_Q s /\
  0 <= Final.avg_wait s /\
  Final.avg_wait s <= avg_ylim s /\
  0 <= Final.time_avg_q s.
Proof.
  intro s.
  destruct (final_init_fields g)
    as (Et & Eq & _ & _ & _ & _ & Ed & Ea & El & _).
  assert (Ht : Final.timed s)
    by (apply final_run_timed; [exact Hnn|now apply final_init_timed]).
  assert (Hd : Forall (fun x => 0 <= x) (Final.delays s)).
  { apply final_run_delays; [exact Hnn|now apply final_init_timed|].
    rewrite Ed. constructor. }
  assert (Hsum : 0 <= qsum (Final.delays s)) by now apply qsum_nonneg.
  assert (Harea : 0 <= Final.area_Q s).
  { assert (E : Final.area_Q s
                == qsum (Final.delays s)
                   + pending_wait (Final.t s) (Final.queue s)).
    { apply final_run_accounts.
      - now rewrite El, Et.
      - rewrite Ea, Ed, Eq. unfold qsum; simpl. ring. }
    destruct Ht as (_ & _ & _ & _ & Hq').
    pose proof (pending_wait_nonneg _ _ Hq'). rewrite E. lra. }
  assert (Havg : 0 <= Final.avg_wait s).
  { unfold Final.avg_wait. destruct (Final.delays s) as [|x l] eqn:E.
    - lra.
    - apply Qle_shift_div_l.
      + unfold len. change 0 with (inject_Z 0). rewrite <- Zlt_Qlt.
        simpl length. lia.
      + lra. }
  split; [exact Hd|]. split; [exact Harea|]. split; [exact Havg|]. split.
  - unfold avg_ylim.
    apply Qle_trans with (Final.avg_wait s * (16 # 10)); [lra|].
    eapply Qle_trans; [apply Q.le_max_r|apply Q.le_max_l].
  - unfold Final.time_avg_q.
    destruct (Qle_bool (Final.t s) 0) eqn:E; [lra|].
    assert (Hpos : 0 < Final.t s).
    { apply Qnot_le_lt. intro Hle. apply Qle_bool_iff in Hle. congruence. }
    apply Qle_shift_div_l; [exact Hpos|lra].
Qed.

(** ** The first customer, and the order of the waits *)

Lemma final_step_delays_grow (s : state) :
  exists l, Final.delays (step s) = Final.delays s ++ l.
Proof.
  final_cases s.
  - exists []. now rewrite app_nil_r.
  - now exists [0].
  - exists []. now rewrite app_nil_r.
  - now exists [tn - a].
Qed.

Lemma final_run_delays_grow (k : nat) : forall s : state,
  exists l, Final.delays (run k s) = Final.delays s ++ l.
Proof.
  induction k as [|k IH]; intro s; simpl.
  - exists []. now rewrite app_nil_r.
  - destruct (IH (step s)) as [l1 E1].
    destruct (final_step_delays_grow s) as [l0 E0].
    exists (l0 ++ l1). now rewrite E1, E0, app_assoc.
Qed.

(** X5. Final.py never rewrites a recorded wait, and the first one is
    zero: the list [delays] only grows at its end from one iteration to
    any later one, and from the first iteration on its first entry is
    the wait [0.0] of the customer who opened the simulation. *)
Theorem final_first_wait_is_zero (g : gen) (k j : nat) :
  (exists l, Final.delays (run (k + j) (init g))
             = Final.delays (run k (init g)) ++ l) /\
  (exists l, Final.delays (run (S k) (init g)) = 0 :: l).
Proof.
  split.
  - replace (k + j)%nat with (j + k)%nat by lia.
    assert (E : forall (s : state) a b,
              run (a + b) s = run a (run b s)).
    { intros s a b. revert s. induction b as [|b IH]; intro s.
      - now rewrite Nat.add_0_r.
      - rewrite Nat.add_succ_r. simpl. apply IH. }
    rewrite E. apply final_run_delays_grow.
  - change (run (S k) (init g)) with (run k (step (init g))).
    destruct (final_run_delays_grow k (step (init g))) as [l E].
    assert (E1 : Final.delays (step (init g)) = [0]).
    { unfold Final.step, Final.dispatched, Final.arrival, Final.init.
      destruct (exponential Final.INTERARRIVAL_MEAN g) as [A1 g1]; simpl.
      destruct (exponential Final.INTERARRIVAL_MEAN g1) as [A2 g2]; simpl.
      destruct (exponential Final.SERVICE_MEAN g2); reflexivity. }
    exists l. now rewrite E, E1.
Qed.

(** ** The wait line is in arrival order *)

Lemma StronglySorted_snoc (l : list Q) (x : Q) :
  StronglySorted Qle l -> Forall (fun a => a <= x) l ->
  StronglySorted Qle (l ++ [x]).
Proof.
  induction l as [|b l IH]; simpl; intros Hs Hf.
  - constructor; constructor.
  - inversion Hs; subst. inversion Hf; subst. constructor.
    + now apply IH.
    + apply Forall_app. split; [assumption|].
      constructor; [assumption|constructor].
Qed.

Lemma final_step_sorted (s : state) :
  Final.timed s ->
  StronglySorted Qle (Final.queue s) ->
  StronglySorted Qle (Final.queue (step s)).
Proof.
  intros Ht Hs. pose proof (final_timed_next gen s Ht) as Hn.
  destruct Ht as (_ & _ & _ & _ & Hq').
  revert Hn. final_cases s; simpl; intro Hn.
  - apply StronglySorted_snoc; [exact Hs|].
    eapply Forall_le_trans; [exact Hn|exact Hq'].
  - exact Hs.
  - constructor.
  - now inversion Hs.
Qed.

Lemma final_run_sorted (k : nat) : forall s : state,
  Final.nonneg_source exponential -> Final.timed s ->
  StronglySorted Qle (Final.queue s) ->
  StronglySorted Qle (Final.queue (run k s)).
Proof.
  induction k as [|k IH]; intros s Hnn Ht Hs; simpl; [exact Hs|].
  apply IH; [exact Hnn| |].
  - now apply final_step_timed.
  - now apply final_step_sorted.
Qed.

(** X6. With non-negative durations the wait line of Final.py holds the
    arrival times in non-decreasing order: the customer at its head,
    the one whom the next departure takes into service, is the one who
    arrived first and has waited longest. *)
Theorem final_wait_line_in_arrival_order (g : gen) (k : nat)
  (Hnn : Final.nonneg_source exponential) :
  let s := run k (init g) in
  StronglySorted Qle (Final.queue s) /\
  (forall a rest, Final.queue s = a :: rest ->
   Forall (fun b => a <= b /\ Final.t s - b <= Final.t s - a) rest).
Proof.
  intro s.
  assert (Hs : StronglySorted Qle (Final.queue s)).
  { apply final_run_sorted; [exact Hnn|now apply final_init_timed|].
    destruct (final_init_fields g) as (_ & -> & _). constructor. }
  split; [exact Hs|].
  intros a rest E. rewrite E in Hs. inversion Hs as [|? ? _ Hall]; subst.
  eapply Forall_impl; [|exact Hall]. simpl. intros b Hb. split; lra.
Qed.

(** ** Ties *)

(** X7. A tie in Final.py is resolved arrival first, and both events
    are handled at the same clock value.  When the pending arrival and
    the pending departure are due at the same time, the arrival is
    dispatched and the customer joins the wait line; if the next arrival
    is then scheduled strictly later (its time is the sum that the
    handler computes, [t + A_i]), the very next event is the departure,
    at the same time; and if nobody else was waiting, that departure
    takes the customer who has just arrived into service with a wait of
    zero. *)
Theorem final_tie_arrival_then_departure (g : gen) (k : nat) (d : Q) :
  let s := run k (init g) in
  Final.next_departure s = Fin d ->
  Final.next_arrival s == d ->
  d < Final.next_arrival (step s) ->
  Final.dispatched s = (Arrival, Final.next_arrival s) /\
  Final.queue (step s) = Final.queue s ++ [Final.next_arrival s] /\
  Final.next_departure (step s) = Fin d /\
  Final.dispatched (step s) = (Departure, d) /\
  (Final.queue s = [] ->
   Final.delays (step (step s))
   = Final.delays s ++ [d - Final.next_arrival s] /\
   d - Final.next_arrival s == 0).
Proof.
  intros s Hd Heq Hlater.
  assert (Hs : Final.sched_ok s)
    by (apply final_run_sched, final_init_sched).
  assert (Hb : Final.server_busy s = true).
  { unfold Final.sched_ok in Hs. destruct (Final.server_busy s);
      [reflexivity|]. destruct Hs as [Hs _]. congruence. }
  assert (Hsel : Final.dispatched s = (Arrival, Final.next_arrival s)).
  { unfold Final.dispatched, select. rewrite Hd.
    assert (E : Qle_bool (Final.next_arrival s) d = true)
      by (apply Qle_bool_iff; lra).
    now rewrite E. }
  assert (F : Final.queue (step s)
              = Final.queue s ++ [Final.next_arrival s] /\
              Final.next_departure (step s) = Fin d /\
              Final.delays (step s) = Final.delays s).
  { unfold Final.step, Final.arrival. rewrite Hsel.
    destruct (exponential Final.INTERARRIVAL_MEAN (Final.rng s)).
    rewrite Hb; simpl. now repeat split. }
  destruct F as (Fq & Fd & Fl).
  assert (Hsel2 : Final.dispatched (step s) = (Departure, d)).
  { unfold Final.dispatched, select. rewrite Fd.
    destruct (Qle_bool (Final.next_arrival (step s)) d) eqn:E;
      [|reflexivity].
    apply Qle_bool_iff in E. lra. }
  split; [exact Hsel|]. split; [exact Fq|]. split; [exact Fd|].
  split; [exact Hsel2|].
  intro Hq. split; [|lra].
  unfold Final.step at 1. rewrite Hsel2. unfold Final.departure.
  destruct (exponential Final.SERVICE_MEAN (Final.rng (step s))).
  rewrite Fq, Hq. simpl. now rewrite Fl.
Qed.

End FinalMore.

Lemma final_statistics_nonneg_witness :
  Final.nonneg_source ramp /\
  0 <= Final.avg_wait (Final.run ramp 7 (Final.init ramp 0%nat)) /\
  0 <= Final.time_avg_q (Final.run ramp 7 (Final.init ramp 0%nat)).
Proof.
  split; [exact ramp_nonneg|].
  destruct (final_statistics_nonneg nat ramp 0%nat 7%nat ramp_nonneg)
    as (_ & _ & H3 & _ & H5).
  split; [exact H3|exact H5].
Defined.

(** After five iterations on the durations below (arrivals at 1, 2, 3
    and 4, a departure at 10) two customers wait, the one who arrived at
    3 ahead of the one who arrived at 4. *)
Lemma final_wait_line_in_arrival_order_witness :
  Final.nonneg_source replay_nat /\
  Final.queue
    (Final.run replay_nat 5 (Final.init replay_nat [1; 1; 9; 1; 1; 9]%nat))
  = [3; 4] /\
  StronglySorted Qle
    (Final.queue
       (Final.run replay_nat 5
          (Final.init replay_nat [1; 1; 9; 1; 1; 9]%nat))) /\
  Forall (fun b => 3 <= b /\ 10 - b <= 10 - 3) [4].
Proof.
  split; [exact replay_nat_nonneg|].
  assert (Hq : Final.queue
                 (Final.run replay_nat 5
                    (Final.init replay_nat [1; 1; 9; 1; 1; 9]%nat))
               = [3; 4]) by (vm_compute; reflexivity).
  split; [exact Hq|].
  destruct (final_wait_line_in_arrival_order (list nat) replay_nat
              [1; 1; 9; 1; 1; 9]%nat 5%nat replay_nat_nonneg) as [H1 H2].
  split; [exact H1|]. exact (H2 3 [4] Hq).
Defined.

Lemma final_tie_arrival_then_departure_witness :
  let s := Final.run replay 1 (Final.init replay [1; 1; 1; 3; 1]) in
  Final.next_departure s = Fin 2 /\
  Final.next_arrival s == 2 /\
  2 < Final.next_arrival (Final.step replay s) /\
  Final.dispatched s = (Arrival, 2) /\
  Final.dispatched (Final.step replay s) = (Departure, 2) /\
  Final.delays (Final.step replay (Final.step replay s)) = [0] ++ [2 - 2].
Proof.
  intro s.
  assert (H1 : Final.next_departure s = Fin 2) by (vm_compute; reflexivity).
  assert (H2 : Final.next_arrival s == 2) by (vm_compute; reflexivity).
  assert (H3 : 2 < Final.next_arrival (Final.step replay s))
    by (vm_compute; reflexivity).
  split; [exact H1|]. split; [exact H2|]. split; [exact H3|].
  destruct (final_tie_arrival_then_departure (list Q) replay
              [1; 1; 1; 3; 1] 1%nat 2 H1 H2 H3)
    as (E1 & _ & _ & E4 & E5).
  split; [exact E1|]. split; [exact E4|].
  exact (proj1 (E5 eq_refl)).
Defined.

(** * Further properties of z___Perplexity.py *)

Lemma max0_ge_0 (x : Q) : 0 <= Perplexity.max0 x.
Proof.
  unfold Perplexity.max0. destruct (Qle_bool x 0) eqn:E; [lra|].
  apply Qlt_le_weak, Qnot_le_lt. intro H.
  apply Qle_bool_iff in H. congruence.
Qed.

Section PerplexityMore.

Variable N : Z.
Variable A : list Q.
Variable S : list Q.

Local Abbreviation pstate := Perplexity.state.
Local Abbreviation init := Perplexity.init.
Local Abbreviation body := (Perplexity.body N A S).
Local Abbreviation steps := (Perplexity.steps N A S).
Local Abbreviation des_loop := (Perplexity.des_loop N A S).
Local Abbreviation simulate := (Perplexity.simulate N A S).

(** One iteration that did not fail, branch by branch (see
    [Perplexity.body]). *)
Ltac perp_cases s :=
  unfold Perplexity.body, Perplexity.arrival, Perplexity.departure;
  destruct (Perplexity.dispatched s) as [[|] te] eqn:Hsel;
  [ destruct (nth_error A (Perplexity.ia_i s)) as [a|] eqn:EA;
    [|discriminate];
    destruct (Perplexity.server_busy s) eqn:Hbusy; simpl;
    [ | destruct (nth_error S (Perplexity.sv_i s)) as [sv|] eqn:ES;
        [|discriminate] ]
  | destruct (N <=? Perplexity.served s + 1)%Z eqn:Hlast;
    [ | destruct (Perplexity.q s) as [|a rest] eqn:Hq;
        [ | destruct (nth_error S (Perplexity.sv_i s)) as [sv|] eqn:ES;
            [|discriminate] ] ] ];
  (let Hb := fresh "Hb" in intro Hb; injection Hb as <-); simpl.

(** ** The loop, iteration by iteration *)

Lemma perp_loop_steps (fuel : nat) :
  forall (s : pstate) (tr : list (Q * kind)) (o : Perplexity.outcome),
  des_loop fuel s = (tr, o) -> o <> Perplexity.OutOfFuel ->
  exists s',
    steps (length tr) s = Some s' /\
    (Perplexity.served s'
     = Perplexity.served s + Perplexity.count_departures tr)%Z /\
    match o with
    | Perplexity.Done s'' => s'' = s' /\ (N <= Perplexity.served s')%Z
    | Perplexity.IndexError => (Perplexity.served s' < N)%Z /\ body s' = None
    | _ => False
    end.
Proof.
  induction fuel as [|fuel IH]; intros s tr o; simpl.
  - destruct (Perplexity.served s <? N)%Z eqn:Hg.
    + intro E. injection E as <- <-. congruence.
    + apply Z.ltb_ge in Hg. intro E. injection E as <- <-. intros _.
      exists s. simpl. repeat split; lia.
  - destruct (Perplexity.served s <? N)%Z eqn:Hg.
    + destruct (body s) as [s1|] eqn:Eb.
      * pose proof (perp_body_served N A S s s1 Eb) as Hsv.
        specialize (IH s1).
        destruct (des_loop fuel s1) as [tr1 o1] eqn:El.
        intro E. injection E as <- <-. intro Ho.
        destruct (IH tr1 o1 eq_refl Ho) as (s' & Hst & Hc & Hm).
        exists s'. simpl. rewrite Hg, Eb. split; [exact Hst|].
        split; [|exact Hm].
        destruct (Perplexity.dispatched s) as [[|] te]; simpl in *; lia.
      * apply Z.ltb_lt in Hg. intro E. injection E as <- <-. intros _.
        exists s. simpl. repeat split; try lia. exact Eb.
    + apply Z.ltb_ge in Hg. intro E. injection E as <- <-. intros _.
      exists s. simpl. repeat split; lia.
Qed.

(** ** Counters and indices *)

Lemma perp_body_counters (s s' : pstate) :
  Perplexity.sched_ok s ->
  (Z.of_nat (Perplexity.ia_i s) = Perplexity.arrivals s + 1 /\
   Z.of_nat (Perplexity.sv_i s) = Perplexity.count_started s /\
   Perplexity.count_started s
   = Perplexity.served s + (if Perplexity.server_busy s then 1 else 0) /\
   0 <= Perplexity.served s)%Z ->
  body s = Some s' ->
  (Z.of_nat (Perplexity.ia_i s') = Perplexity.arrivals s' + 1 /\
   Z.of_nat (Perplexity.sv_i s') = Perplexity.count_started s' /\
   Perplexity.count_started s'
   = Perplexity.served s' + (if Perplexity.server_busy s' then 1 else 0) /\
   0 <= Perplexity.served s')%Z.
Proof.
  unfold Perplexity.sched_ok. intros Hs (H1 & H2 & H3 & H4).
  perp_cases s; try (repeat split; lia).
  - apply select_departure_inv in Hsel. destruct Hsel as [Hd _].
    destruct (Perplexity.server_busy s); [|congruence].
    repeat split; lia.
  - apply select_departure_inv in Hsel. destruct Hsel as [Hd _].
    destruct (Perplexity.server_busy s); [|congruence].
    repeat split; lia.
  - apply select_departure_inv in Hsel. destruct Hsel as [Hd _].
    destruct (Perplexity.server_busy s); [|congruence].
    repeat split; lia.
Qed.

Lemma perp_steps_counters (k : nat) : forall s s' : pstate,
  Perplexity.sched_ok s ->
  (Z.of_nat (Perplexity.ia_i s) = Perplexity.arrivals s + 1 /\
   Z.of_nat (Perplexity.sv_i s) = Perplexity.count_started s /\
   Perplexity.count_started s
   = Perplexity.served s + (if Perplexity.server_busy s then 1 else 0) /\
   0 <= Perplexity.served s)%Z ->
  steps k s = Some s' ->
  (Z.of_nat (Perplexity.ia_i s') = Perplexity.arrivals s' + 1 /\
   Z.of_nat (Perplexity.sv_i s') = Perplexity.count_started s' /\
   Perplexity.count_started s'
   = Perplexity.served s' + (if Perplexity.server_busy s' then 1 else 0) /\
   0 <= Perplexity.served s')%Z.
Proof.
  induction k as [|k IH]; intros s s' Hs H; simpl.
  - intro E. injection E as <-. exact H.
  - destruct (Perplexity.served s <? N)%Z; [|discriminate].
    destruct (body s) as [s1|] eqn:Eb; [|discriminate].
    apply IH.
    + eapply perp_body_sched; eassumption.
    + eapply perp_body_counters; eassumption.
Qed.

Lemma perp_steps_events (k : nat) : forall s s' : pstate,
  steps k s = Some s' ->
  (Perplexity.events s' = Perplexity.events s + Z.of_nat k /\
   Perplexity.arrivals s' + Perplexity.served s'
   = Perplexity.arrivals s + Perplexity.served s + Z.of_nat k)%Z.
Proof.
  induction k as [|k IH]; intros s s'.
  - simpl. intro E. injection E as <-. lia.
  - cbn [Perplexity.steps].
    destruct (Perplexity.served s <? N)%Z; [|discriminate].
    destruct (body s) as [s1|] eqn:Eb; [|discriminate].
    intro E. destruct (IH s1 s' E) as [H1 H2].
    assert (Perplexity.events s1 = Perplexity.events s + 1 /\
            Perplexity.arrivals s1 + Perplexity.served s1
            = Perplexity.arrivals s + Perplexity.served s + 1)%Z as [E1 E2].
    { revert Eb. perp_cases s; lia. }
    rewrite Nat2Z.inj_succ. lia.
Qed.

(** X8. The counters and the stream indices of z___Perplexity.py.  After
    [k] iterations of the loop: [events] is [k] and is the arrivals plus
    the departures; one interarrival time has been read for the first
    arrival and one for each arrival processed ([ia_i = arrivals + 1]);
    one service time has been read for each service start
    ([sv_i = count_started]); the service starts are the departures plus
    the customer in service; and the customers in the system are the
    arrivals minus the departures, also once the horizon is reached. *)
Theorem perp_counters (A1 : Q) (k : nat) (s : pstate) :
  steps k (init A1) = Some s ->
  (Perplexity.events s = Z.of_nat k /\
   Perplexity.events s = Perplexity.arrivals s + Perplexity.served s /\
   Z.of_nat (Perplexity.ia_i s) = Perplexity.arrivals s + 1 /\
   Z.of_nat (Perplexity.sv_i s) = Perplexity.count_started s /\
   Perplexity.count_started s
   = Perplexity.served s + (if Perplexity.server_busy s then 1 else 0) /\
   Z.of_nat (length (Perplexity.q s))
   + (if Perplexity.server_busy s then 1 else 0)
   = Perplexity.arrivals s - Perplexity.served s)%Z.
Proof.
  intro H.
  destruct (perp_steps_events k _ _ H) as [E1 E2]. simpl in E1, E2.
  assert (Hs0 : Perplexity.sched_ok (init A1)) by reflexivity.
  destruct (perp_steps_counters k _ _ Hs0
              ltac:(simpl; repeat split; lia) H) as (K1 & K2 & K3 & _).
  pose proof (perp_steps_conserved N A S k _ _ Hs0 eq_refl H) as Hc.
  unfold Perplexity.conserved in Hc.
  repeat split; try assumption; lia.
Qed.

(** ** Running out of durations *)

Lemma perp_steps_ia_bound (k : nat) : forall s s' : pstate,
  (Perplexity.ia_i s <= length A)%nat ->
  steps k s = Some s' -> (Perplexity.ia_i s' <= length A)%nat.
Proof.
  induction k as [|k IH]; intros s0 s' H0; simpl.
  - intro E. injection E as <-. exact H0.
  - destruct (Perplexity.served s0 <? N)%Z; [|discriminate].
    destruct (body s0) as [s1|] eqn:Eb; [|discriminate].
    apply IH. revert Eb. perp_cases s0; try exact H0.
    + apply Nat.le_succ_l, nth_error_Some. congruence.
    + apply Nat.le_succ_l, nth_error_Some. congruence.
Qed.

(** The state in which the loop fails, when the service sequence is
    long enough. *)
Lemma perp_loop_index_error (fuel : nat) (tr : list (Q * kind)) (A1 : Q) :
  (N <= Z.of_nat (length S))%Z ->
  (0 < length A)%nat ->
  des_loop fuel (init A1) = (tr, Perplexity.IndexError) ->
  exists s,
    steps (length tr) (init A1) = Some s /\
    fst (Perplexity.dispatched s) = Arrival /\
    nth_error A (Perplexity.ia_i s) = None /\
    (Perplexity.arrivals s = Z.of_nat (length A) - 1)%Z /\
    (Z.of_nat (length tr) - Perplexity.count_departures tr
     = Z.of_nat (length A) - 1)%Z /\
    (Perplexity.count_departures tr < N)%Z.
Proof.
  intros HS HA0 Hl.
  destruct (perp_loop_steps fuel _ _ _ Hl ltac:(discriminate))
    as (s & Hst & Hc & Hlt & Hnone).
  simpl in Hc.
  assert (Hs0 : Perplexity.sched_ok (init A1)) by reflexivity.
  destruct (perp_steps_counters _ _ _ Hs0
              ltac:(simpl; repeat split; lia) Hst) as (K1 & K2 & K3 & K4).
  pose proof (perp_steps_sched N A S _ _ _ Hs0 Hst) as Hs.
  destruct (perp_steps_events _ _ _ Hst) as [_ E2]. simpl in E2.
  assert (Hia : (Perplexity.ia_i s <= length A)%nat)
    by (apply (perp_steps_ia_bound (length tr) (init A1));
        [simpl; lia|exact Hst]).
  exists s. split; [exact Hst|].
  assert (Hfail : fst (Perplexity.dispatched s) = Arrival /\
                  nth_error A (Perplexity.ia_i s) = None).
  { unfold Perplexity.sched_ok in Hs.
    unfold Perplexity.body, Perplexity.arrival, Perplexity.departure
      in Hnone.
    destruct (Perplexity.dispatched s) as [[|] te] eqn:Hsel.
    - destruct (nth_error A (Perplexity.ia_i s)) as [a|] eqn:EA;
        [|now split].
      destruct (Perplexity.server_busy s); simpl in Hnone;
        [discriminate|].
      destruct (nth_error S (Perplexity.sv_i s)) eqn:ES; [discriminate|].
      apply nth_error_None in ES. lia.
    - apply select_departure_inv in Hsel. destruct Hsel as [Hd _].
      destruct (Perplexity.server_busy s); [|congruence].
      destruct (N <=? Perplexity.served s + 1)%Z eqn:Hlast;
        [discriminate|].
      apply Z.leb_gt in Hlast.
      destruct (Perplexity.q s); [discriminate|].
      destruct (nth_error S (Perplexity.sv_i s)) eqn:ES; [discriminate|].
      apply nth_error_None in ES. lia. }
  destruct Hfail as [Hk Hn]. split; [exact Hk|]. split; [exact Hn|].
  apply nth_error_None in Hn. repeat split; lia.
Qed.

(** X9. The only index error of z___Perplexity.py is the one of the
    interarrival sequence.  When the service sequence has at least [N]
    entries, a run that ends with an [IndexError] has either found the
    interarrival sequence empty at the start, or has used all of it: the
    arrivals processed are [len(A) - 1], the failing event is the next
    arrival, and fewer than [N] customers had been served. *)
Theorem perp_index_error_is_from_A (fuel : nat) (tr : list (Q * kind)) :
  (N <= Z.of_nat (length S))%Z ->
  simulate fuel = (tr, Perplexity.IndexError) ->
  (A = [] /\ tr = []) \/
  (exists A1 s,
     steps (length tr) (init A1) = Some s /\
     fst (Perplexity.dispatched s) = Arrival /\
     nth_error A (Perplexity.ia_i s) = None /\
     (Perplexity.arrivals s = Z.of_nat (length A) - 1)%Z /\
     (Z.of_nat (length tr) - Perplexity.count_departures tr
      = Z.of_nat (length A) - 1)%Z /\
     (Perplexity.count_departures tr < N)%Z).
Proof.
  intros HS. unfold Perplexity.simulate.
  destruct (nth_error A 0) as [A1|] eqn:E0.
  - intro Hl. right. exists A1.
    apply perp_loop_index_error with (fuel := fuel); [exact HS| |exact Hl].
    apply nth_error_Some. congruence.
  - intro E. injection E as <-. left. split; [|reflexivity].
    apply nth_error_None in E0. destruct A; [reflexivity|simpl in E0; lia].
Qed.

(** ** The state at the horizon *)

Lemma perp_steps_last (k : nat) : forall s s' : pstate,
  steps (Datatypes.S k) s = Some s' ->
  (N <= Perplexity.served s')%Z ->
  Perplexity.server_busy s' = false /\
  Perplexity.next_departure s' = Inf /\
  Perplexity.last_event s' = Some Departure.
Proof.
  induction k as [|k IH]; intros s s'.
  - cbn [Perplexity.steps].
    destruct (Perplexity.served s <? N)%Z eqn:Hg; [|discriminate].
    apply Z.ltb_lt in Hg.
    destruct (body s) as [s1|] eqn:Eb; [|discriminate].
    intro E. injection E as <-. revert Eb.
    perp_cases s; intro HN; try lia; now repeat split.
  - intro H. cbn [Perplexity.steps] in H.
    destruct (Perplexity.served s <? N)%Z; [|discriminate].
    destruct (body s) as [s1|]; [|discriminate].
    now apply (IH s1 s').
Qed.

(** X10. The state in which z___Perplexity.py ends normally, for a
    horizon [N >= 1]: the server is idle with no departure scheduled, the
    last event is a departure, exactly [N] customers have begun service
    (the customers still in the wait line never will), the arrivals are
    these [N] customers plus the wait line, and the average wait of the
    last [update_plot] is [sum_wait / N]. *)
Theorem perp_final_state (fuel : nat) (tr : list (Q * kind)) (s' : pstate) :
  (0 < N)%Z ->
  simulate fuel = (tr, Perplexity.Done s') ->
  Perplexity.server_busy s' = false /\
  Perplexity.next_departure s' = Inf /\
  Perplexity.last_event s' = Some Departure /\
  Perplexity.count_started s' = N /\
  (Perplexity.arrivals s' = N + Z.of_nat (length (Perplexity.q s')))%Z /\
  Perplexity.events s' = Z.of_nat (length tr) /\
  Perplexity.avg_wait s' = Perplexity.sum_wait s' / inject_Z N.
Proof.
  intros HN. unfold Perplexity.simulate.
  destruct (nth_error A 0) as [A1|]; [|discriminate].
  intro Hl.
  destruct (perp_loop_done N A S fuel _ _ _ Hl) as (_ & Hlt & _).
  simpl in Hlt. destruct (Hlt HN) as [Hserved _].
  destruct (perp_loop_steps fuel _ _ _ Hl ltac:(discriminate))
    as (s & Hst & _ & <- & Hge).
  assert (Hs0 : Perplexity.sched_ok (init A1)) by reflexivity.
  destruct (perp_steps_counters _ _ _ Hs0
              ltac:(simpl; repeat split; lia) Hst) as (_ & _ & K3 & _).
  pose proof (perp_steps_conserved N A S _ _ _ Hs0 eq_refl Hst) as Hc.
  unfold Perplexity.conserved in Hc.
  destruct (perp_steps_events _ _ _ Hst) as [E1 _]. simpl in E1.
  assert (Hlast : Perplexity.server_busy s' = false /\
                  Perplexity.next_departure s' = Inf /\
                  Perplexity.last_event s' = Some Departure).
  { destruct (length tr) as [|n] eqn:En.
    - simpl in Hst. injection Hst as <-. simpl in Hge. lia.
    - now apply (perp_steps_last n (init A1) s'). }
  destruct Hlast as (Hb & Hd & He). rewrite Hb in K3, Hc.
  assert (Hcs : Perplexity.count_started s' = N) by lia.
  repeat split; try assumption; try lia.
  unfold Perplexity.avg_wait. rewrite Hcs.
  destruct (N =? 0)%Z eqn:E0; [apply Z.eqb_eq in E0; lia|reflexivity].
Qed.

(** ** The two statistics *)

Lemma perp_body_accounts (s s' : pstate) :
  Perplexity.timed s ->
  Perplexity.area_q s
  == Perplexity.sum_wait s
     + pending_wait (Perplexity.t s) (Perplexity.q s) ->
  body s = Some s' ->
  Perplexity.area_q s'
  == Perplexity.sum_wait s'
     + pending_wait (Perplexity.t s') (Perplexity.q s').
Proof.
  intros (Hl & H0 & Ha & Hd & Hq') H.
  pose proof (pending_wait_shift (Perplexity.t s)) as Hshift.
  assert (Hn : forall te k, Perplexity.dispatched s = (k, te) ->
                            Perplexity.t s <= te).
  { intros te [|] Hsel; unfold Perplexity.dispatched in Hsel.
    - apply select_arrival_inv in Hsel. destruct Hsel as [-> _]. exact Ha.
    - apply select_departure_inv in Hsel. destruct Hsel as [E _].
      now apply Hd. }
  perp_cases s; rewrite Hl; pose proof (Hn _ _ eq_refl) as Hte.
  - rewrite pending_wait_app, (Hshift te), H. ring.
  - rewrite (Hshift te), H. ring.
  - rewrite (Hshift te), H. ring.
  - rewrite H. simpl. unfold len; simpl. ring.
  - inversion Hq' as [|? ? Hle _]; subst.
    rewrite (max0_nonneg (te - a)) by lra.
    pose proof (Hshift te (a :: rest)) as E.
    simpl pending_wait in E, H. rewrite H. lra.
Qed.

Lemma perp_steps_accounts (k : nat) : forall s s' : pstate,
  Forall (fun x => 0 <= x) A -> Forall (fun x => 0 <= x) S ->
  Perplexity.timed s ->
  Perplexity.area_q s
  == Perplexity.sum_wait s
     + pending_wait (Perplexity.t s) (Perplexity.q s) ->
  steps k s = Some s' ->
  Perplexity.area_q s'
  == Perplexity.sum_wait s'
     + pending_wait (Perplexity.t s') (Perplexity.q s').
Proof.
  induction k as [|k IH]; intros s s' HA HS Ht H; simpl.
  - intro E. injection E as <-. exact H.
  - destruct (Perplexity.served s <? N)%Z; [|discriminate].
    destruct (body s) as [s1|] eqn:Eb; [|discriminate].
    apply IH; try assumption.
    + exact (perp_body_timed N A S s s1 HA HS Ht Eb).
    + exact (perp_body_accounts s s1 Ht H Eb).
Qed.

Lemma perp_steps_sum_wait (k : nat) : forall s s' : pstate,
  0 <= Perplexity.sum_wait s ->
  steps k s = Some s' -> 0 <= Perplexity.sum_wait s'.
Proof.
  induction k as [|k IH]; intros s0 s' H0; simpl.
  - intro E. injection E as <-. exact H0.
  - destruct (Perplexity.served s0 <? N)%Z; [|discriminate].
    destruct (body s0) as [s1|] eqn:Eb; [|discriminate].
    apply IH. revert Eb. perp_cases s0; try exact H0; try lra.
    pose proof (max0_ge_0 (te - a)). lra.
Qed.

(** X11. With non-negative durations the area under [Q(t)] accumulated
    by z___Perplexity.py is the waiting time of the customers: the sum
    [sum_wait] of the waits of those who have begun service plus the time
    that the customers still in the wait line have spent there up to the
    clock.  In such a run the clamp [max(0.0, t - a)] never changes a
    wait. *)
Theorem perp_area_is_total_waiting_time (A1 : Q) (k : nat) (s : pstate)
  (HA : Forall (fun x => 0 <= x) A)
  (HS : Forall (fun x => 0 <= x) S)
  (HA1 : nth_error A 0 = Some A1)
  (Hs : steps k (init A1) = Some s) :
  Perplexity.area_q s
  == Perplexity.sum_wait s + pending_wait (Perplexity.t s) (Perplexity.q s) /\
  0 <= Perplexity.area_q s /\
  0 <= Perplexity.qhat s.
Proof.
  assert (Ht0 : Perplexity.timed (init A1))
    by (apply perp_init_timed; exact (Forall_nth_error _ _ _ _ HA HA1)).
  assert (E : Perplexity.area_q s
              == Perplexity.sum_wait s
                 + pending_wait (Perplexity.t s) (Perplexity.q s)).
  { apply (perp_steps_accounts k (init A1) s HA HS Ht0); [|exact Hs].
    simpl. ring. }
  assert (Ht : Perplexity.timed s)
    by (apply (perp_steps_timed N A S k (init A1) s HA HS Ht0 Hs)).
  assert (Hw : 0 <= Perplexity.sum_wait s)
    by (apply (perp_steps_sum_wait k (init A1)); [simpl; lra|exact Hs]).
  assert (Harea : 0 <= Perplexity.area_q s).
  { destruct Ht as (_ & _ & _ & _ & Hq').
    pose proof (pending_wait_nonneg _ _ Hq'). rewrite E. lra. }
  split; [exact E|]. split; [exact Harea|].
  unfold Perplexity.qhat.
  destruct (Qle_bool (Perplexity.t s) 0) eqn:E0; [lra|].
  assert (Hpos : 0 < Perplexity.t s).
  { apply Qnot_le_lt. intro Hle. apply Qle_bool_iff in Hle. congruence. }
  apply Qle_shift_div_l; [exact Hpos|lra].
Qed.

(** X12. Whatever the durations, negative ones included, the average
    wait reported by z___Perplexity.py is never negative: the clamp
    keeps every recorded wait, hence [sum_wait], non-negative, and the
    divisor [count_started] is never negative either. *)
Theorem perp_avg_wait_nonneg (A1 : Q) (k : nat) (s : pstate) :
  steps k (init A1) = Some s ->
  0 <= Perplexity.sum_wait s /\
  (0 <= Perplexity.count_started s)%Z /\
  0 <= Perplexity.avg_wait s.
Proof.
  intro Hs.
  assert (Hw : 0 <= Perplexity.sum_wait s)
    by (apply (perp_steps_sum_wait k (init A1)); [simpl; lra|exact Hs]).
  assert (Hs0 : Perplexity.sched_ok (init A1)) by reflexivity.
  destruct (perp_steps_counters _ _ _ Hs0
              ltac:(simpl; repeat split; lia) Hs) as (_ & _ & K3 & K4).
  assert (Hc : (0 <= Perplexity.count_started s)%Z)
    by (destruct (Perplexity.server_busy s); lia).
  split; [exact Hw|]. split; [exact Hc|].
  unfold Perplexity.avg_wait.
  destruct (Perplexity.count_started s =? 0)%Z eqn:E0; [lra|].
  apply Z.eqb_neq in E0.
  apply Qle_shift_div_l; [|lra].
  change 0 with (inject_Z 0). rewrite <- Zlt_Qlt. lia.
Qed.

End PerplexityMore.

Lemma perp_counters_witness :
  exists s,
    Perplexity.steps 3 [1; 2; 1; 100] [5; 1; 1] 3 (Perplexity.init 1)
    = Some s /\
    Perplexity.events s = 3%Z /\
    Z.of_nat (Perplexity.sv_i s) = Perplexity.count_started s.
Proof.
  eexists. split; [vm_compute; reflexivity|].
  match goal with
  | |- Perplexity.events ?s = _ /\ _ =>
    destruct (perp_counters 3 [1; 2; 1; 100] [5; 1; 1] 1 3%nat s eq_refl)
      as (E1 & _ & _ & E4 & _)
  end.
  split; [exact E1|exact E4].
Defined.

Lemma perp_index_error_is_from_A_witness :
  (2 <= Z.of_nat (length [5; 5]))%Z /\
  Perplexity.simulate 2 [1] [5; 5] 4 = ([], Perplexity.IndexError) /\
  exists A1 s,
    Perplexity.steps 2 [1] [5; 5] 0 (Perplexity.init A1) = Some s /\
    nth_error [1] (Perplexity.ia_i s) = None.
Proof.
  assert (H1 : (2 <= Z.of_nat (length [5; 5]))%Z) by (simpl; lia).
  assert (H2 : Perplexity.simulate 2 [1] [5; 5] 4
               = ([], Perplexity.IndexError)) by (vm_compute; reflexivity).
  split; [exact H1|]. split; [exact H2|].
  destruct (perp_index_error_is_from_A 2 [1] [5; 5] 4%nat [] H1 H2)
    as [[E _]|(A1 & s & Hst & _ & Hn & _)]; [discriminate|].
  exists A1, s. split; [exact Hst|exact Hn].
Defined.

Lemma perp_final_state_witness :
  exists tr s',
    (0 < 1)%Z /\
    Perplexity.simulate 1 [1; 5] [2] 3 = (tr, Perplexity.Done s') /\
    Perplexity.server_busy s' = false /\
    Perplexity.count_started s' = 1%Z.
Proof.
  eexists. eexists.
  assert (H1 : (0 < 1)%Z) by lia.
  split; [exact H1|]. split; [vm_compute; reflexivity|].
  match goal with
  | |- Perplexity.server_busy ?s' = _ /\ _ =>
    destruct (perp_final_state 1 [1; 5] [2] 3%nat
                [(1, Arrival); (3, Departure)] s' H1 eq_refl)
      as (E1 & _ & _ & E4 & _)
  end.
  split; [exact E1|exact E4].
Defined.

Lemma perp_area_is_total_waiting_time_witness :
  exists s,
    Forall (fun x => 0 <= x) [1; 2; 1; 100] /\
    Forall (fun x => 0 <= x) [5; 1; 1] /\
    Perplexity.steps 3 [1; 2; 1; 100] [5; 1; 1] 4 (Perplexity.init 1)
    = Some s /\
    Perplexity.area_q s
    == Perplexity.sum_wait s
       + pending_wait (Perplexity.t s) (Perplexity.q s).
Proof.
  eexists.
  assert (HA : Forall (fun x => 0 <= x) [1; 2; 1; 100])
    by (repeat constructor; discriminate).
  assert (HS : Forall (fun x => 0 <= x) [5; 1; 1])
    by (repeat constructor; discriminate).
  split; [exact HA|]. split; [exact HS|].
  split; [vm_compute; reflexivity|].
  match goal with
  | |- Perplexity.area_q ?s == _ =>
    destruct (perp_area_is_total_waiting_time 3 [1; 2; 1; 100] [5; 1; 1]
                1 4%nat s HA HS eq_refl eq_refl) as (E & _)
  end.
  exact E.
Defined.

Lemma perp_avg_wait_nonneg_witness :
  exists s,
    Perplexity.steps 3 [1; 2; 1; 100] [5; -5; 1] 5 (Perplexity.init 1)
    = Some s /\
    0 <= Perplexity.avg_wait s.
Proof.
  eexists. split; [vm_compute; reflexivity|].
  match goal with
  | |- 0 <= Perplexity.avg_wait ?s =>
    destruct (perp_avg_wait_nonneg 3 [1; 2; 1; 100] [5; -5; 1]
                1 5%nat s eq_refl) as (_ & _ & E)
  end.
  exact E.
Defined.

(** ** The arrays that [main] generates *)

Lemma perp_loop_at_horizon (N : Z) (A S : list Q) (fuel : nat)
  (s : Perplexity.state) :
  (N <= Perplexity.served s)%Z ->
  Perplexity.des_loop N A S fuel s = ([], Perplexity.Done s).
Proof.
  intro H. apply Z.ltb_ge in H. destruct fuel; simpl; now rewrite H.
Qed.

(** X14. The size [M = 10 * N + 1000] of the two arrays of
    z___Perplexity.py ("more than needed to avoid running out").  On
    arrays of that size the service times never run out.  A run raises
    [IndexError] only for [N = -100] (the arrays are empty and [A[0]]
    fails before any event), or for a positive [N] once [10 * N + 999]
    arrivals have been processed and fewer than [N] customers served.
    For [-100 < N <= 0] the loop is not entered and both averages of the
    last [update_plot] are zero. *)
Theorem perp_main_array_sizes (N : Z) (A S : list Q) (fuel : nat)
  (tr : list (Q * kind)) (o : Perplexity.outcome)
  (HM : (0 <= 10 * N + 1000)%Z)
  (HlA : length A = Z.to_nat (10 * N + 1000))
  (HlS : length S = Z.to_nat (10 * N + 1000))
  (Hrun : Perplexity.simulate N A S fuel = (tr, o)) :
  (o = Perplexity.IndexError ->
   (N = (-100)%Z /\ tr = []) \/
   ((0 < N)%Z /\
    (Z.of_nat (length tr) - Perplexity.count_departures tr
     = 10 * N + 999)%Z /\
    (Perplexity.count_departures tr < N)%Z)) /\
  ((-100 < N <= 0)%Z ->
   tr = [] /\
   exists s, o = Perplexity.Done s /\
             Perplexity.avg_wait s = 0 /\ Perplexity.qhat s = 0).
Proof.
  unfold Perplexity.simulate in Hrun. split.
  - intros ->. destruct (nth_error A 0) as [A1|] eqn:E0.
    + right.
      assert (HA0 : (0 < length A)%nat)
        by (apply nth_error_Some; congruence).
      assert (HN : (0 < N)%Z).
      { destruct (Z_lt_le_dec 0 N) as [Hp|Hp]; [exact Hp|].
        rewrite perp_loop_at_horizon in Hrun by (simpl; lia).
        discriminate. }
      split; [exact HN|].
      assert (HS : (N <= Z.of_nat (length S))%Z) by (rewrite HlS; lia).
      destruct (perp_loop_index_error N A S fuel tr A1 HS HA0 Hrun)
        as (s & _ & _ & _ & _ & Hc & Hd).
      split; [rewrite HlA in Hc; lia|exact Hd].
    + left. injection Hrun as <-. split; [|reflexivity].
      apply nth_error_None in E0. lia.
  - intro HN. destruct (nth_error A 0) as [A1|] eqn:E0.
    + rewrite perp_loop_at_horizon in Hrun by (simpl; lia).
      injection Hrun as <- <-. split; [reflexivity|].
      eexists. split; [reflexivity|]. now split.
    + apply nth_error_None in E0. lia.
Qed.

(** With one customer to serve, interarrival times of 1 and service
    times of 2000, the 1010 interarrival times are used up before the
    first departure. *)
Lemma perp_main_array_sizes_witness :
  let r := Perplexity.simulate 1 (repeat 1 1010) (repeat 2000 1010) 1100 in
  (0 <= 10 * 1 + 1000)%Z /\
  length (repeat 1 1010) = Z.to_nat (10 * 1 + 1000) /\
  length (repeat 2000 1010) = Z.to_nat (10 * 1 + 1000) /\
  snd r = Perplexity.IndexError /\
  (Z.of_nat (length (fst r)) - Perplexity.count_departures (fst r)
   = 10 * 1 + 999)%Z.
Proof.
  intro r.
  assert (HM : (0 <= 10 * 1 + 1000)%Z) by lia.
  assert (HlA : length (repeat 1 1010) = Z.to_nat (10 * 1 + 1000))
    by (vm_compute; reflexivity).
  assert (HlS : length (repeat 2000 1010) = Z.to_nat (10 * 1 + 1000))
    by (vm_compute; reflexivity).
  assert (Ho : snd r = Perplexity.IndexError) by (vm_compute; reflexivity).
  assert (Hrun : Perplexity.simulate 1 (repeat 1 1010) (repeat 2000 1010)
                   1100 = (fst r, Perplexity.IndexError)).
  { rewrite <- Ho. apply surjective_pairing. }
  split; [exact HM|]. split; [exact HlA|]. split; [exact HlS|].
  split; [exact Ho|].
  destruct (perp_main_array_sizes 1 (repeat 1 1010) (repeat 2000 1010)
              1100%nat (fst r) Perplexity.IndexError HM HlA HlS Hrun)
    as [H1 _].
  destruct (H1 eq_refl) as [[E _]|(_ & Hc & _)]; [discriminate|exact Hc].
Defined.

(** * Further properties of z___deepseek.py *)

Lemma feq_refl (x : Deepseek.float) :
  time_ok x -> Deepseek.feq x x = true.
Proof.
  destruct x; simpl; try contradiction; intros _; [|reflexivity].
  apply Qeq_bool_iff. reflexivity.
Qed.

Lemma time_ok_fadd (x y : Deepseek.float) :
  time_ok x -> time_ok y -> time_ok (Deepseek.fadd x y).
Proof. destruct x, y; simpl; tauto. Qed.

Lemma fadd_NaN_l (x : Deepseek.float) :
  Deepseek.fadd Deepseek.NaN x = Deepseek.NaN.
Proof. now destruct x. Qed.

Lemma fadd_NaN_r (x : Deepseek.float) :
  Deepseek.fadd x Deepseek.NaN = Deepseek.NaN.
Proof. now destruct x. Qed.

Lemma fsum_app (l : list Deepseek.float) (x : Deepseek.float) :
  fsum (l ++ [x]) = Deepseek.fadd (fsum l) x.
Proof. unfold fsum. now rewrite fold_left_app. Qed.

Lemma count_kind_app (k : kind) (l : list Deepseek.event)
  (e : Deepseek.event) :
  count_kind k (l ++ [e])
  = (count_kind k l + (if kind_eqb (fst e) k then 1 else 0))%Z.
Proof.
  unfold count_kind. rewrite filter_app, length_app, Nat2Z.inj_add.
  cbn [filter]. now destruct (kind_eqb (fst e) k).
Qed.

Section DeepseekMore.

Variable gen : Type.
Variable expovariate : Q -> gen -> Q * gen.
Variable interarrival_mean : Q.
Variable service_mean : Q.

Local Abbreviation ds_state := (Deepseek.state gen).
Local Abbreviation initialize_simulation :=
  (Deepseek.initialize_simulation expovariate interarrival_mean).
Local Abbreviation dispatch :=
  (Deepseek.dispatch expovariate interarrival_mean service_mean).
Local Abbreviation dispatch_n :=
  (Deepseek.dispatch_n expovariate interarrival_mean service_mean).
Local Abbreviation dispatch_log :=
  (Deepseek.dispatch_log expovariate interarrival_mean service_mean).
Local Abbreviation frames :=
  (Deepseek.frames expovariate interarrival_mean service_mean).
Local Abbreviation generate_interarrival :=
  (Deepseek.generate_interarrival expovariate interarrival_mean).
Local Abbreviation generate_service :=
  (Deepseek.generate_service expovariate service_mean).

Lemma deepseek_interarrival_ok (g : gen) :
  time_ok (fst (generate_interarrival g)).
Proof.
  unfold Deepseek.generate_interarrival.
  destruct (Qle_bool (Deepseek.arrival_rate interarrival_mean) 0);
    [exact I|].
  now destruct (expovariate (Deepseek.arrival_rate interarrival_mean) g).
Qed.

Lemma deepseek_service_ok (g : gen) :
  exists x, fst (generate_service g) = Deepseek.Num x.
Proof.
  unfold Deepseek.generate_service.
  destruct (Qle_bool (Deepseek.service_rate service_mean) 0);
    [now exists 1|].
  destruct (expovariate (Deepseek.service_rate service_mean) g) as [x g'].
  now exists x.
Qed.

(** ** One pass of the event loop, on a well-formed event list *)

Lemma deepseek_dispatch_spec (s : ds_state) :
  events_ok (Deepseek.server_status s) (Deepseek.event_list s) ->
  exists k te s',
    dispatch s = (Some (k, te), s') /\
    events_ok (Deepseek.server_status s') (Deepseek.event_list s') /\
    Deepseek.clock s' = te /\
    Deepseek.running s' = Deepseek.running s /\
    match k with
    | Arrival =>
      Deepseek.total_arrivals s' = (Deepseek.total_arrivals s + 1)%Z /\
      Deepseek.server_status s' = Deepseek.BUSY /\
      match Deepseek.server_status s with
      | Deepseek.IDLE =>
        Deepseek.queue s' = Deepseek.queue s /\
        Deepseek.total_served s' = (Deepseek.total_served s + 1)%Z /\
        Deepseek.delays s' = Deepseek.delays s ++ [Deepseek.Num 0] /\
        Deepseek.total_delay s'
        = Deepseek.fadd (Deepseek.total_delay s) (Deepseek.Num 0)
      | Deepseek.BUSY =>
        Deepseek.queue s' = Deepseek.queue s ++ [te] /\
        Deepseek.total_served s' = Deepseek.total_served s /\
        Deepseek.delays s' = Deepseek.delays s /\
        Deepseek.total_delay s' = Deepseek.total_delay s
      end
    | Departure =>
      Deepseek.server_status s = Deepseek.BUSY /\
      Deepseek.total_arrivals s' = Deepseek.total_arrivals s /\
      Deepseek.total_served s' = (Deepseek.total_served s + 1)%Z /\
      match Deepseek.queue s with
      | [] =>
        Deepseek.server_status s' = Deepseek.IDLE /\
        Deepseek.queue s' = [] /\
        Deepseek.delays s' = Deepseek.delays s /\
        Deepseek.total_delay s' = Deepseek.total_delay s
      | a :: rest =>
        Deepseek.server_status s' = Deepseek.BUSY /\
        Deepseek.queue s' = rest /\
        Deepseek.delays s' = Deepseek.delays s ++ [Deepseek.fsub te a] /\
        Deepseek.total_delay s'
        = Deepseek.fadd (Deepseek.total_delay s) (Deepseek.fsub te a)
      end
    end.
Proof.
  intro H.
  assert (Harr : forall (s1 : ds_state) te l,
            time_ok te ->
            Deepseek.clock s1 = te ->
            Deepseek.event_list s1 = l ->
            match Deepseek.server_status s1, l with
            | Deepseek.IDLE, [] => True
            | Deepseek.BUSY, [(Departure, d)] => time_ok d
            | _, _ => False
            end ->
            events_ok
              (Deepseek.server_status
                 (Deepseek.process_arrival expovariate interarrival_mean
                    service_mean s1))
              (Deepseek.event_list
                 (Deepseek.process_arrival expovariate interarrival_mean
                    service_mean s1))).
  { intros s1 te l Hte Hc Hl Hsh. unfold Deepseek.process_arrival.
    pose proof (deepseek_interarrival_ok (Deepseek.rng s1)) as Hia.
    destruct (generate_interarrival (Deepseek.rng s1)) as [ia g1].
    simpl in Hia. rewrite Hl, Hc.
    destruct (Deepseek.server_status s1).
    - destruct l; [|contradiction].
      destruct (deepseek_service_ok g1) as [x Hx].
      destruct (generate_service g1) as [sv g2]. simpl in Hx. subst sv.
      simpl. split; apply time_ok_fadd; simpl; auto.
    - destruct l as [|[[|] d] [|]]; try contradiction.
      simpl. split; [apply time_ok_fadd|]; auto. }
  assert (Hdep : forall (s1 : ds_state) te a,
            time_ok te -> time_ok a ->
            Deepseek.clock s1 = te ->
            Deepseek.server_status s1 = Deepseek.BUSY ->
            Deepseek.event_list s1 = [(Arrival, a)] ->
            events_ok
              (Deepseek.server_status
                 (Deepseek.process_departure expovariate service_mean s1))
              (Deepseek.event_list
                 (Deepseek.process_departure expovariate service_mean s1))).
  { intros s1 te a Hte Ha Hc Hst Hl. unfold Deepseek.process_departure.
    destruct (Deepseek.queue s1) as [|a0 rest].
    - simpl. now rewrite Hl.
    - destruct (deepseek_service_ok (Deepseek.rng s1)) as [x Hx].
      destruct (generate_service (Deepseek.rng s1)) as [sv g1].
      simpl in Hx. subst sv. simpl. rewrite Hst, Hl, Hc. simpl.
      split; [exact Ha|]. apply time_ok_fadd; simpl; auto. }
  unfold Deepseek.dispatch, Deepseek.timing_routine.
  destruct (Deepseek.server_status s) eqn:Est;
    destruct (Deepseek.event_list s) as [|[[|] t1] [|[[|] t2] [|e3 l]]]
      eqn:El;
    simpl in H; try contradiction.
  - (* idle: the arrival alone *)
    cbn [Deepseek.min_event Deepseek.remove Deepseek.event_eqb kind_eqb
         fst snd andb].
    rewrite (feq_refl t1 H).
    eexists Arrival, t1, _. split; [reflexivity|].
    split; [eapply (Harr _ t1 []); simpl; auto|].
    unfold Deepseek.process_arrival; simpl.
    destruct (generate_interarrival (Deepseek.rng s)) as [ia g1].
    destruct (generate_service g1) as [sv g2]. simpl. now repeat split.
  - (* busy: arrival listed first *)
    destruct H as [H1 H2].
    cbn [Deepseek.min_event fst snd].
    destruct (Deepseek.flt t2 t1).
    + cbn [Deepseek.remove Deepseek.event_eqb kind_eqb fst snd andb].
      rewrite (feq_refl t2 H2).
      eexists Departure, t2, _. split; [reflexivity|].
      split; [eapply (Hdep _ t2 t1); simpl; auto|].
      unfold Deepseek.process_departure; simpl.
      destruct (Deepseek.queue s) as [|a rest].
      * simpl. now repeat split.
      * destruct (generate_service (Deepseek.rng s)) as [sv g1].
        simpl. now repeat split.
    + cbn [Deepseek.remove Deepseek.event_eqb kind_eqb fst snd andb].
      rewrite (feq_refl t1 H1).
      eexists Arrival, t1, _. split; [reflexivity|].
      split; [eapply (Harr _ t1 [(Departure, t2)]); simpl; auto|].
      unfold Deepseek.process_arrival; simpl.
      destruct (generate_interarrival (Deepseek.rng s)) as [ia g1].
      simpl. now repeat split.
  - (* busy: departure listed first *)
    destruct H as [H1 H2].
    cbn [Deepseek.min_event fst snd].
    destruct (Deepseek.flt t2 t1).
    + cbn [Deepseek.remove Deepseek.event_eqb kind_eqb fst snd andb].
      rewrite (feq_refl t2 H1).
      eexists Arrival, t2, _. split; [reflexivity|].
      split; [eapply (Harr _ t2 [(Departure, t1)]); simpl; auto|].
      unfold Deepseek.process_arrival; simpl.
      destruct (generate_interarrival (Deepseek.rng s)) as [ia g1].
      simpl. now repeat split.
    + cbn [Deepseek.remove Deepseek.event_eqb kind_eqb fst snd andb].
      rewrite (feq_refl t1 H2).
      eexists Departure, t1, _. split; [reflexivity|].
      split; [eapply (Hdep _ t1 t2); simpl; auto|].
      unfold Deepseek.process_departure; simpl.
      destruct (Deepseek.queue s) as [|a rest].
      * simpl. now repeat split.
      * destruct (generate_service (Deepseek.rng s)) as [sv g1].
        simpl. now repeat split.
Qed.

Lemma deepseek_init_ok (g : gen) :
  events_ok (Deepseek.server_status (initialize_simulation g))
    (Deepseek.event_list (initialize_simulation g)).
Proof.
  unfold Deepseek.initialize_simulation.
  pose proof (deepseek_interarrival_ok g) as H.
  destruct (generate_interarrival g) as [first_arrival g']. exact H.
Qed.

(** An invariant of the event loop that may mention the events
    dispatched so far. *)
Lemma deepseek_dispatch_n_log_inv
  (P : list Deepseek.event -> ds_state -> Prop) :
  (forall log s ev,
     events_ok (Deepseek.server_status s) (Deepseek.event_list s) ->
     P log s -> fst (dispatch s) = Some ev ->
     P (log ++ [ev]) (snd (dispatch s))) ->
  forall n s,
    events_ok (Deepseek.server_status s) (Deepseek.event_list s) ->
    P [] s ->
    events_ok (Deepseek.server_status (dispatch_n n s))
      (Deepseek.event_list (dispatch_n n s)) /\
    P (dispatch_log n s) (dispatch_n n s).
Proof.
  intros Hstep n.
  assert (G : forall s log0,
            events_ok (Deepseek.server_status s) (Deepseek.event_list s) ->
            P log0 s ->
            events_ok (Deepseek.server_status (dispatch_n n s))
              (Deepseek.event_list (dispatch_n n s)) /\
            P (log0 ++ dispatch_log n s) (dispatch_n n s)).
  { induction n as [|n IH]; intros s log0 Hok HP.
    - simpl. rewrite app_nil_r. now split.
    - destruct (deepseek_dispatch_spec s Hok)
        as (k & te & s' & Hd & Hok' & _).
      pose proof (Hstep log0 s (k, te) Hok HP) as HP'.
      simpl. rewrite Hd in HP' |- *. simpl in HP'.
      specialize (IH s' (log0 ++ [(k, te)]) Hok' (HP' eq_refl)).
      now rewrite <- app_assoc in IH. }
  intros s Hok HP. exact (G s [] Hok HP).
Qed.

Lemma deepseek_dispatch_log_length (n : nat) : forall s : ds_state,
  events_ok (Deepseek.server_status s) (Deepseek.event_list s) ->
  length (dispatch_log n s) = n.
Proof.
  induction n as [|n IH]; intros s Hok; [reflexivity|].
  destruct (deepseek_dispatch_spec s Hok) as (k & te & s' & Hd & Hok' & _).
  simpl. rewrite Hd. simpl. now rewrite IH.
Qed.

Lemma deepseek_dispatch_n_add (a b : nat) : forall s : ds_state,
  events_ok (Deepseek.server_status s) (Deepseek.event_list s) ->
  dispatch_n (a + b) s = dispatch_n b (dispatch_n a s).
Proof.
  induction a as [|a IH]; intros s Hok; [reflexivity|].
  destruct (deepseek_dispatch_spec s Hok) as (k & te & s' & Hd & Hok' & _).
  simpl. rewrite Hd. now apply IH.
Qed.

(** X15. The event list of z___deepseek.py always holds exactly one
    pending arrival, and one pending departure exactly when the server is
    busy; no event time is NaN or [-inf] (so the tuple that
    [timing_routine] removes is always found).  Hence the list is never
    empty: [timing_routine] never answers ['NONE'], [running] stays true,
    and [n] passes of the event loop dispatch [n] events. *)
Theorem deepseek_event_list_shape (g : gen) (n : nat) :
  let s := dispatch_n n (initialize_simulation g) in
  events_ok (Deepseek.server_status s) (Deepseek.event_list s) /\
  Deepseek.running s = true /\
  (exists ev, fst (dispatch s) = Some ev) /\
  length (dispatch_log n (initialize_simulation g)) = n.
Proof.
  intro s.
  destruct (deepseek_dispatch_n_log_inv
              (fun _ s => Deepseek.running s = true)) with
    (n := n) (s := initialize_simulation g) as [Hok Hr].
  - intros log s0 ev Hok H _.
    destruct (deepseek_dispatch_spec s0 Hok)
      as (k & te & s' & Hd & _ & _ & Hrun & _).
    rewrite Hd. simpl. congruence.
  - apply deepseek_init_ok.
  - unfold Deepseek.initialize_simulation.
    now destruct (generate_interarrival g).
  - fold s in Hok, Hr. split; [exact Hok|]. split; [exact Hr|]. split.
    + destruct (deepseek_dispatch_spec s Hok) as (k & te & s' & Hd & _).
      exists (k, te). now rewrite Hd.
    + apply deepseek_dispatch_log_length, deepseek_init_ok.
Qed.

(** X16. The bookkeeping of z___deepseek.py.  In every state reached by
    the event loop: the cached [current_Q] is the length of the wait
    line; every customer who arrived has either an entry in [delays] or a
    place in the wait line; [total_delay] is the sum of [delays]; and the
    wait line is empty whenever the server is idle. *)
Theorem deepseek_bookkeeping (g : gen) (n : nat) :
  let s := dispatch_n n (initialize_simulation g) in
  Deepseek.current_Q s = Z.of_nat (length (Deepseek.queue s)) /\
  (Deepseek.total_arrivals s
   = Z.of_nat (length (Deepseek.delays s))
     + Z.of_nat (length (Deepseek.queue s)))%Z /\
  Deepseek.total_delay s = fsum (Deepseek.delays s) /\
  (Deepseek.server_status s = Deepseek.BUSY \/ Deepseek.queue s = []).
Proof.
  intro s.
  assert (E0 : Deepseek.current_Q (initialize_simulation g) = 0%Z /\
               Deepseek.queue (initialize_simulation g) = [] /\
               Deepseek.delays (initialize_simulation g) = [] /\
               Deepseek.total_arrivals (initialize_simulation g) = 0%Z /\
               Deepseek.total_delay (initialize_simulation g)
               = Deepseek.Num 0).
  { unfold Deepseek.initialize_simulation.
    now destruct (generate_interarrival g). }
  destruct E0 as (Ec & Eq & Ed & Ea & Et).
  split.
  - apply deepseek_current_Q. now rewrite Ec, Eq.
  - destruct (deepseek_dispatch_n_log_inv
                (fun _ s =>
                   (Deepseek.total_arrivals s
                    = Z.of_nat (length (Deepseek.delays s))
                      + Z.of_nat (length (Deepseek.queue s)))%Z /\
                   Deepseek.total_delay s = fsum (Deepseek.delays s) /\
                   (Deepseek.server_status s = Deepseek.BUSY \/
                    Deepseek.queue s = []))) with
      (n := n) (s := initialize_simulation g) as [_ H].
    + intros log s0 ev Hok (H1 & H2 & H3) _.
      destruct (deepseek_dispatch_spec s0 Hok)
        as (k & te & s' & Hd & _ & _ & _ & Hk).
      rewrite Hd. simpl. destruct k.
      * destruct Hk as (Ka & Ks & Hk).
        destruct (Deepseek.server_status s0).
        -- destruct Hk as (Kq & _ & Kd & Kt). rewrite Ka, Kq, Kd, Kt.
           rewrite fsum_app, length_app, H2. simpl.
           split; [|split; [reflexivity|now left]].
           destruct H3 as [H3|H3]; [discriminate|].
           rewrite H3 in H1 |- *. simpl in *. lia.
        -- destruct Hk as (Kq & _ & Kd & Kt). rewrite Ka, Kq, Kd, Kt.
           rewrite length_app. simpl.
           split; [lia|split; [exact H2|now left]].
      * destruct Hk as (Kb & Ka & _ & Hk).
        destruct (Deepseek.queue s0) as [|a rest].
        -- destruct Hk as (_ & Kq & Kd & Kt). rewrite Ka, Kq, Kd, Kt.
           split; [exact H1|split; [exact H2|now right]].
        -- destruct Hk as (Ks & Kq & Kd & Kt). rewrite Ka, Kq, Kd, Kt.
           rewrite fsum_app, length_app, H2. simpl in *.
           split; [lia|split; [reflexivity|now left]].
    + apply deepseek_init_ok.
    + rewrite Ea, Ed, Eq, Et. split; [reflexivity|].
      split; [reflexivity|now right].
    + exact H.
Qed.

(** X17. What [total_served] of z___deepseek.py counts.  The customers
    in the system are the arrivals dispatched minus the departures
    dispatched, and [total_arrivals] is the number of arrivals
    dispatched; but [total_served] is at least the number of departures
    dispatched, at most that number plus the number of service starts,
    and strictly more than the departures as soon as one event has been
    dispatched. *)
Theorem deepseek_served_overcounts (g : gen) (n : nat) :
  let s := dispatch_n n (initialize_simulation g) in
  let log := dispatch_log n (initialize_simulation g) in
  Deepseek.total_arrivals s = count_kind Arrival log /\
  (Z.of_nat (length (Deepseek.queue s))
   + in_service (Deepseek.server_status s)
   = count_kind Arrival log - count_kind Departure log)%Z /\
  (count_kind Departure log <= Deepseek.total_served s
   <= count_kind Departure log
      + Z.of_nat (length (Deepseek.delays s)))%Z /\
  (n = 0%nat \/ (count_kind Departure log < Deepseek.total_served s)%Z).
Proof.
  intros s log.
  assert (E0 : Deepseek.server_status (initialize_simulation g)
               = Deepseek.IDLE /\
               Deepseek.queue (initialize_simulation g) = [] /\
               Deepseek.delays (initialize_simulation g) = [] /\
               Deepseek.total_arrivals (initialize_simulation g) = 0%Z /\
               Deepseek.total_served (initialize_simulation g) = 0%Z).
  { unfold Deepseek.initialize_simulation.
    now destruct (generate_interarrival g). }
  destruct E0 as (Es & Eq & Ed & Ea & Ev).
  destruct (deepseek_dispatch_n_log_inv
              (fun log s =>
                 Deepseek.total_arrivals s = count_kind Arrival log /\
                 (Z.of_nat (length (Deepseek.queue s))
                  + in_service (Deepseek.server_status s)
                  = count_kind Arrival log - count_kind Departure log)%Z /\
                 (count_kind Departure log <= Deepseek.total_served s
                  <= count_kind Departure log
                     + Z.of_nat (length (Deepseek.delays s)))%Z /\
                 ((log = [] /\ Deepseek.server_status s = Deepseek.IDLE) \/
                  (count_kind Departure log < Deepseek.total_served s)%Z)))
    with (n := n) (s := initialize_simulation g) as [_ H].
  - intros log0 s0 ev Hok (H1 & H2 & H3 & H4) Hev.
    destruct (deepseek_dispatch_spec s0 Hok)
      as (k & te & s' & Hd & _ & _ & _ & Hk).
    rewrite Hd in Hev |- *. simpl in Hev. injection Hev as <-. simpl.
    rewrite !count_kind_app. simpl fst.
    assert (H5 : Deepseek.server_status s0 = Deepseek.BUSY ->
                 (count_kind Departure log0 < Deepseek.total_served s0)%Z).
    { intro Hb. destruct H4 as [[_ H4]|H4]; [congruence|exact H4]. }
    destruct k; simpl kind_eqb.
    + destruct Hk as (Ka & Ks & Hk). rewrite Ka, Ks.
      destruct (Deepseek.server_status s0).
      * destruct Hk as (Kq & Kv & Kd & _). rewrite Kq, Kv, Kd, length_app.
        simpl in *. repeat split; lia.
      * destruct Hk as (Kq & Kv & Kd & _). rewrite Kq, Kv, Kd, length_app.
        specialize (H5 eq_refl).
        simpl in *. repeat split; lia.
    + destruct Hk as (Kb & Ka & Kv & Hk). rewrite Ka, Kv.
      rewrite Kb in H2. specialize (H5 Kb).
      destruct (Deepseek.queue s0) as [|a rest].
      * destruct Hk as (Ks & Kq & Kd & _). rewrite Ks, Kq, Kd.
        simpl in *. repeat split; lia.
      * destruct Hk as (Ks & Kq & Kd & _). rewrite Ks, Kq, Kd, length_app.
        simpl in *. repeat split; lia.
  - apply deepseek_init_ok.
  - rewrite Es, Eq, Ed, Ea, Ev. unfold count_kind. simpl.
    repeat split; try lia. now left.
  - fold s log in H. destruct H as (H1 & H2 & H3 & H4).
    split; [exact H1|]. split; [exact H2|]. split; [exact H3|].
    destruct H4 as [[H4 _]|H4]; [left|now right].
    rewrite <- (deepseek_dispatch_log_length n (initialize_simulation g)
                  (deepseek_init_ok g)).
    fold log. now rewrite H4.
Qed.

(** ** A mean interarrival time that is not positive *)

Lemma deepseek_degenerate_interarrival (g : gen) :
  Qle_bool interarrival_mean 0 = true ->
  generate_interarrival g = (Deepseek.PInf, g).
Proof.
  intro H. unfold Deepseek.generate_interarrival, Deepseek.arrival_rate.
  rewrite H. reflexivity.
Qed.

Lemma deepseek_all_at_infinity_ok (s : ds_state) :
  all_at_infinity s ->
  events_ok (Deepseek.server_status s) (Deepseek.event_list s).
Proof.
  intros (_ & -> & _ & _ & [[-> _]|[-> _]]); simpl; tauto.
Qed.

Lemma deepseek_degenerate_first (g : gen) :
  Qle_bool interarrival_mean 0 = true ->
  all_at_infinity (snd (dispatch (initialize_simulation g))).
Proof.
  intro Hdeg.
  unfold Deepseek.dispatch, Deepseek.timing_routine,
    Deepseek.initialize_simulation.
  rewrite (deepseek_degenerate_interarrival g Hdeg). simpl.
  unfold Deepseek.process_arrival. simpl.
  rewrite (deepseek_degenerate_interarrival g Hdeg).
  destruct (deepseek_service_ok g) as [x Hx].
  destruct (generate_service g) as [sv g2]. simpl in Hx. subst sv.
  unfold all_at_infinity. simpl. repeat split. now left.
Qed.

Lemma deepseek_degenerate_step (s : ds_state) :
  Qle_bool interarrival_mean 0 = true ->
  all_at_infinity s ->
  all_at_infinity (snd (dispatch s)) /\
  (Deepseek.total_delay s = Deepseek.NaN \/
   Deepseek.queue s = [Deepseek.PInf] ->
   Deepseek.total_delay (snd (dispatch s)) = Deepseek.NaN).
Proof.
  intros Hdeg (Hc & Hb & Ha & Hv & [[Hl Hq]|[Hl Hq]]);
    unfold Deepseek.dispatch, Deepseek.timing_routine; rewrite Hl; simpl.
  - (* the arrival is first in the list *)
    unfold Deepseek.process_arrival. simpl.
    rewrite (deepseek_degenerate_interarrival (Deepseek.rng s) Hdeg).
    rewrite Hb, Ha, Hq. simpl.
    unfold all_at_infinity. simpl. split.
    + repeat split; try assumption. now right.
    + intros [H|H]; [exact H|discriminate].
  - (* the departure is first in the list *)
    unfold Deepseek.process_departure. simpl. rewrite Hq.
    destruct (deepseek_service_ok (Deepseek.rng s)) as [x Hx].
    destruct (generate_service (Deepseek.rng s)) as [sv g1].
    simpl in Hx. subst sv. simpl.
    rewrite ?Hb, ?Ha, ?fadd_NaN_l, ?fadd_NaN_r.
    unfold all_at_infinity. simpl. split.
    + repeat split; try lia. now left.
    + reflexivity.
Qed.

(** X18. z___deepseek.py with a mean interarrival time that is not
    positive.  [generate_interarrival] then answers [+inf]; from the
    first event on, the clock is [+inf], the server is busy, every
    pending event is due at [+inf] and the area under [Q(t)] is NaN
    (the product of the queue length [0] and an infinite time); from
    the third event on, the total delay is NaN as well (a wait
    [inf - inf]) and so is the average that [update_metrics] reports. *)
Theorem deepseek_nonpositive_interarrival_mean (g : gen) (n : nat)
  (Hdeg : Qle_bool interarrival_mean 0 = true) :
  let s := dispatch_n (S n) (initialize_simulation g) in
  let s3 := dispatch_n (3 + n) (initialize_simulation g) in
  fst (generate_interarrival g) = Deepseek.PInf /\
  Deepseek.clock s = Deepseek.PInf /\
  Deepseek.Q_area s = Deepseek.NaN /\
  Deepseek.server_status s = Deepseek.BUSY /\
  Forall (fun e => snd e = Deepseek.PInf) (Deepseek.event_list s) /\
  Deepseek.total_delay s3 = Deepseek.NaN /\
  Deepseek.avg_wait (Deepseek.update_metrics s3) = Deepseek.NaN.
Proof.
  intros s s3.
  split; [now rewrite (deepseek_degenerate_interarrival g Hdeg)|].
  pose proof (deepseek_init_ok g) as Hok0.
  assert (Hrun : forall (P : ds_state -> Prop) m s0,
            (forall x, all_at_infinity x -> P x -> P (snd (dispatch x))) ->
            all_at_infinity s0 -> P s0 ->
            all_at_infinity (dispatch_n m s0) /\ P (dispatch_n m s0)).
  { intros P m s0 HP H0 HP0.
    destruct (deepseek_dispatch_n_log_inv
                (fun _ x => all_at_infinity x /\ P x)) with
      (n := m) (s := s0) as [_ H].
    - intros log x ev _ [Hx HPx] _. split.
      + now apply deepseek_degenerate_step.
      + now apply HP.
    - now apply deepseek_all_at_infinity_ok.
    - now split.
    - exact H. }
  assert (E1 : forall m,
            dispatch_n (S m) (initialize_simulation g)
            = dispatch_n m (snd (dispatch (initialize_simulation g)))).
  { intro m.
    destruct (deepseek_dispatch_spec _ Hok0) as (k & te & s' & Hd & _).
    simpl. now rewrite Hd. }
  pose proof (deepseek_degenerate_first g Hdeg) as H1.
  assert (Hs : all_at_infinity s).
  { unfold s. rewrite E1. now apply (Hrun (fun _ => True)). }
  assert (Hs3 : all_at_infinity s3 /\
                Deepseek.total_delay s3 = Deepseek.NaN).
  { unfold s3. change (3 + n)%nat with (S (2 + n)). rewrite E1.
    rewrite deepseek_dispatch_n_add
      by now apply deepseek_all_at_infinity_ok.
    set (s1 := snd (dispatch (initialize_simulation g))) in *.
    assert (H2 : all_at_infinity (dispatch_n 2 s1) /\
                 Deepseek.total_delay (dispatch_n 2 s1) = Deepseek.NaN).
    { pose proof (deepseek_all_at_infinity_ok s1 H1) as Hok1.
      destruct (deepseek_dispatch_spec _ Hok1) as (k & te & s2 & Hd & _).
      destruct (deepseek_degenerate_step s1 Hdeg H1) as [Ha1 _].
      pose proof (deepseek_all_at_infinity_ok _ Ha1) as Hok2.
      destruct (deepseek_dispatch_spec _ Hok2) as (k' & te' & s3' & Hd' & _).
      destruct (deepseek_degenerate_step _ Hdeg Ha1) as [Ha2 Ht2].
      assert (E : dispatch_n 2 s1 = snd (dispatch (snd (dispatch s1)))).
      { rewrite Hd in Hd'. cbn [snd] in Hd'.
        simpl. rewrite Hd. simpl. now rewrite Hd'. }
      rewrite E. split; [exact Ha2|]. apply Ht2. right.
      (* the second event is an arrival to the busy server *)
      clear - H1 Hdeg. destruct H1 as (_ & Hb & _ & _ & [[Hl Hq]|[Hl Hq]]).
      - unfold Deepseek.dispatch, Deepseek.timing_routine. rewrite Hl.
        simpl. unfold Deepseek.process_arrival. simpl.
        rewrite (deepseek_degenerate_interarrival _ Hdeg), Hb, Hq.
        reflexivity.
      - exfalso. revert Hl.
        unfold s1, Deepseek.dispatch, Deepseek.timing_routine,
          Deepseek.initialize_simulation.
        rewrite (deepseek_degenerate_interarrival g Hdeg). simpl.
        unfold Deepseek.process_arrival. simpl.
        rewrite (deepseek_degenerate_interarrival g Hdeg).
        destruct (generate_service g). simpl. discriminate. }
    destruct H2 as [Ha2 Ht2].
    apply (Hrun (fun x => Deepseek.total_delay x = Deepseek.NaN));
      [|exact Ha2|exact Ht2].
    intros x Hx Hxt. apply deepseek_degenerate_step; auto. }
  destruct Hs as (Hc & Hb & Ha & Hv & Hl).
  split; [exact Hc|]. split; [exact Ha|]. split; [exact Hb|]. split.
  - destruct Hl as [[-> _]|[-> _]]; repeat constructor.
  - destruct Hs3 as [(_ & _ & _ & Hv3 & _) Ht3]. split; [exact Ht3|].
    unfold Deepseek.update_metrics. simpl.
    apply Z.ltb_lt in Hv3. now rewrite Hv3, Ht3.
Qed.

(** ** Animation frames *)

Lemma forget_avg_dispatch (s1 s2 : ds_state) :
  forget_avg s1 = forget_avg s2 ->
  fst (dispatch s1) = fst (dispatch s2) /\
  forget_avg (snd (dispatch s1)) = forget_avg (snd (dispatch s2)).
Proof.
  destruct s1, s2. unfold forget_avg. simpl. intro H.
  injection H; intros; subst.
  unfold Deepseek.dispatch, Deepseek.timing_routine. simpl.
  match goal with
  | |- context [match ?l with [] => _ | _ :: _ => _ end] =>
    destruct l as [|e l']
  end; simpl; [now split|].
  destruct (Deepseek.min_event e l') as [[|] te]; simpl.
  - unfold Deepseek.process_arrival. simpl.
    match goal with
    | |- context [generate_interarrival ?r] =>
      destruct (generate_interarrival r) as [ia g1]
    end.
    match goal with
    | |- context [match ?st with Deepseek.IDLE => _ | Deepseek.BUSY => _ end]
      => destruct st
    end; [destruct (generate_service g1)|]; now split.
  - unfold Deepseek.process_departure. simpl.
    match goal with
    | |- context [match ?l with [] => _ | _ :: _ => _ end] =>
      destruct l as [|a rest]
    end; [now split|].
    match goal with
    | |- context [generate_service ?r] => destruct (generate_service r)
    end.
    now split.
Qed.

Lemma forget_avg_dispatch_n (n : nat) : forall s1 s2 : ds_state,
  forget_avg s1 = forget_avg s2 ->
  forget_avg (dispatch_n n s1) = forget_avg (dispatch_n n s2).
Proof.
  induction n as [|n IH]; intros s1 s2 H; [exact H|].
  destruct (forget_avg_dispatch s1 s2 H) as [Hf Hs]. simpl.
  destruct (dispatch s1) as [[e1|] x1]; destruct (dispatch s2) as [[e2|] x2];
    simpl in Hf, Hs; try discriminate.
  - now apply IH.
  - exact Hs.
Qed.

Lemma deepseek_frames_dispatch (n : nat) : forall s : ds_state,
  events_ok (Deepseek.server_status s) (Deepseek.event_list s) ->
  Deepseek.running s = true ->
  forget_avg (frames n s) = forget_avg (dispatch_n (3 * n) s) /\
  Deepseek.running (frames n s) = true.
Proof.
  induction n as [|n IH]; intros s Hok Hr; [now split|].
  cbn [Deepseek.frames]. unfold Deepseek.simulation_step. rewrite Hr.
  cbn [negb].
  destruct (deepseek_dispatch_n_log_inv
              (fun _ x => Deepseek.running x = true)) with
    (n := 3%nat) (s := s) as [Hok3 Hr3]; [|exact Hok|exact Hr|].
  { intros log x ev Hx Hrx _.
    destruct (deepseek_dispatch_spec x Hx)
      as (k & te & s' & Hd & _ & _ & Hrun & _).
    rewrite Hd. simpl. congruence. }
  destruct (IH (Deepseek.update_metrics (dispatch_n 3 s)) Hok3 Hr3)
    as [E1 E2].
  split; [|exact E2].
  rewrite E1.
  replace (3 * S n)%nat with (3 + 3 * n)%nat by lia.
  rewrite (deepseek_dispatch_n_add 3 (3 * n) s Hok).
  now apply forget_avg_dispatch_n.
Qed.

Lemma deepseek_frames_S (n : nat) : forall s : ds_state,
  frames (S n) s
  = Deepseek.simulation_step expovariate interarrival_mean service_mean
      (frames n s).
Proof.
  induction n as [|n IH]; intro s; [reflexivity|].
  change (frames (S (S n)) s) with
    (frames (S n) (Deepseek.simulation_step expovariate interarrival_mean
                     service_mean s)).
  now rewrite IH.
Qed.

Lemma deepseek_served_positive (g : gen) (n : nat) :
  (0 < Deepseek.total_served (dispatch_n (S n) (initialize_simulation g)))%Z.
Proof.
  destruct (deepseek_dispatch_n_log_inv
              (fun log x =>
                 (log = [] /\ Deepseek.server_status x = Deepseek.IDLE /\
                  Deepseek.total_served x = 0%Z) \/
                 (0 < Deepseek.total_served x)%Z))
    with (n := S n) (s := initialize_simulation g) as [_ H].
  - intros log x ev Hx HP _.
    destruct (deepseek_dispatch_spec x Hx)
      as (k & te & x' & Hd & _ & _ & _ & Hk).
    rewrite Hd. simpl. right. destruct k.
    + destruct Hk as (_ & _ & Hk).
      destruct (Deepseek.server_status x);
        destruct Hk as (_ & -> & _).
      * destruct HP as [(_ & _ & ->)|HP]; lia.
      * destruct HP as [(_ & HP & _)|HP]; [discriminate|lia].
    + destruct Hk as (Hb & _ & -> & _).
      destruct HP as [(_ & HP & _)|HP]; [congruence|lia].
  - apply deepseek_init_ok.
  - left. unfold Deepseek.initialize_simulation.
    now destruct (generate_interarrival g).
  - destruct H as [(H & _)|H]; [|exact H].
    pose proof (deepseek_dispatch_log_length (S n) _ (deepseek_init_ok g))
      as Hlen.
    rewrite H in Hlen. discriminate.
Qed.

(** X19. An animation frame of z___deepseek.py is three events.  After
    [n] calls of [simulation_step] the simulation is in the state that
    [3 * n] passes of the event loop lead to, up to the reported average,
    which the frame has refreshed to [total_delay / total_served]; the
    early exit on ['NONE'] is never taken and [running] stays true. *)
Theorem deepseek_frame_is_three_events (g : gen) (n : nat) :
  let s := frames (S n) (initialize_simulation g) in
  forget_avg s
  = forget_avg (dispatch_n (3 * S n) (initialize_simulation g)) /\
  Deepseek.running s = true /\
  Deepseek.avg_wait s
  = Deepseek.fdiv_int (Deepseek.total_delay s) (Deepseek.total_served s) /\
  length (dispatch_log (3 * S n) (initialize_simulation g))
  = (3 * S n)%nat.
Proof.
  intro s.
  pose proof (deepseek_init_ok g) as Hok0.
  assert (Hr0 : Deepseek.running (initialize_simulation g) = true).
  { unfold Deepseek.initialize_simulation.
    now destruct (generate_interarrival g). }
  destruct (deepseek_frames_dispatch (S n) _ Hok0 Hr0) as [E1 E2].
  fold s in E1, E2. split; [exact E1|]. split; [exact E2|].
  split; [|now apply deepseek_dispatch_log_length].
  destruct (deepseek_frames_dispatch n _ Hok0 Hr0) as [F1 F2].
  unfold s. rewrite deepseek_frames_S.
  unfold Deepseek.simulation_step. rewrite F2. cbn [negb].
  set (y := dispatch_n 3 (frames n (initialize_simulation g))).
  assert (Hy : forget_avg y
               = forget_avg
                   (dispatch_n (3 * n + 3) (initialize_simulation g))).
  { unfold y. rewrite (deepseek_dispatch_n_add (3 * n) 3 _ Hok0).
    now apply forget_avg_dispatch_n. }
  assert (Hpos : (0 < Deepseek.total_served y)%Z).
  { assert (E : Deepseek.total_served y
                = Deepseek.total_served
                    (dispatch_n (3 * n + 3) (initialize_simulation g)))
      by exact (f_equal Deepseek.total_served Hy).
    rewrite E. replace (3 * n + 3)%nat with (S (3 * n + 2)) by lia.
    apply deepseek_served_positive. }
  unfold Deepseek.update_metrics. simpl.
  apply Z.ltb_lt in Hpos. now rewrite Hpos.
Qed.

End DeepseekMore.

Lemma deepseek_nonpositive_interarrival_mean_witness :
  Qle_bool 0 0 = true /\
  (let s := Deepseek.dispatch_n replay 0 2 1
              (Deepseek.initialize_simulation replay 0 [1; 1; 1]) in
   Deepseek.clock s = Deepseek.PInf /\
   Deepseek.Q_area s = Deepseek.NaN).
Proof.
  split; [reflexivity|].
  destruct (deepseek_nonpositive_interarrival_mean (list Q) replay 0 2
              [1; 1; 1] 0%nat eq_refl) as (_ & H2 & H3 & _).
  split; [exact H2|exact H3].
Defined.

(** * Properties of z___Gemini.py *)

Lemma StronglySorted_Z_snoc (l : list Z) (x : Z) :
  StronglySorted Z.le l -> Forall (fun a => (a <= x)%Z) l ->
  StronglySorted Z.le (l ++ [x]).
Proof.
  induction l as [|b l IH]; simpl; intros Hs Hf.
  - constructor; constructor.
  - inversion Hs; subst. inversion Hf; subst. constructor.
    + now apply IH.
    + apply Forall_app. split; [assumption|].
      constructor; [assumption|constructor].
Qed.

Section GeminiFacts.

Variable gen : Type.
Variable expovariate : Q -> gen -> Q * gen.

Local Abbreviation gstate := (Gemini.state gen).
Local Abbreviation init := (Gemini.init expovariate).
Local Abbreviation iteration := (Gemini.iteration expovariate).
Local Abbreviation run := (Gemini.run expovariate).

(** One iteration, branch by branch: arrival to a busy server, arrival
    to an idle server, completion with a positive counter and an empty
    deque (the [IndexError]), completion that starts the next service,
    completion that leaves the server idle. *)
Ltac gemini_cases s :=
  unfold Gemini.iteration, Gemini.arrival, Gemini.departure,
    Gemini.get_interarrival_time, Gemini.get_service_time;
  destruct (Gemini.dispatched s) as [[|] tn] eqn:Hsel;
  [ destruct (expovariate Gemini.ARRIVAL_RATE (Gemini.rng s))
      as [A_i g1] eqn:EA;
    destruct (Gemini.server_busy s) eqn:Hbusy; cbn [negb];
    [ | destruct (expovariate Gemini.SERVICE_RATE g1) as [S_i g2] eqn:ES ]
  | destruct (0 <? Gemini.current_queue_len s)%Z eqn:Hlen;
    [ destruct (Gemini.queue_arrival_times s) as [|a rest] eqn:Hq;
      [ | destruct (expovariate Gemini.SERVICE_RATE (Gemini.rng s))
            as [S_i g1] eqn:ES ]
    | ] ];
  cbn [option_map].

Lemma gemini_init_consistent (g : gen) :
  gemini_consistent (init g) /\ gemini_labels_ok (init g) /\
  Gemini.total_wait_time (init g) == qsum (Gemini.wait_time_data (init g)).
Proof.
  unfold Gemini.init, Gemini.get_interarrival_time.
  destruct (expovariate Gemini.ARRIVAL_RATE g) as [A1 g1].
  unfold gemini_consistent, gemini_labels_ok, qsum. simpl.
  repeat split; try lia; try constructor; try reflexivity.
  - destruct j; discriminate.
  - destruct j; discriminate.
Qed.

Lemma gemini_iteration_consistent (s : gstate) :
  gemini_consistent s ->
  exists s', iteration s = Some s' /\ gemini_consistent s'.
Proof.
  unfold gemini_consistent. intros (H1 & H2 & H3 & H4 & H5 & H6).
  gemini_cases s.
  - eexists. split; [reflexivity|]. simpl.
    rewrite !length_app. simpl. repeat split; try lia. exact H3.
  - eexists. split; [reflexivity|]. simpl.
    rewrite !length_app. simpl. repeat split; try lia.
    eexists; reflexivity.
  - apply Z.ltb_lt in Hlen. simpl in H1. lia.
  - unfold Gemini.dispatched in Hsel.
    apply select_departure_inv in Hsel. destruct Hsel as [Hd _].
    destruct (Gemini.server_busy s) eqn:Hbusy;
      [|destruct H3 as [H3 _]; congruence].
    eexists. split; [reflexivity|]. simpl.
    rewrite !length_app. simpl in *. repeat split; try lia.
    eexists; reflexivity.
  - unfold Gemini.dispatched in Hsel.
    apply select_departure_inv in Hsel. destruct Hsel as [Hd _].
    destruct (Gemini.server_busy s) eqn:Hbusy;
      [|destruct H3 as [H3 _]; congruence].
    apply Z.ltb_ge in Hlen.
    assert (Hq : Gemini.queue_arrival_times s = []).
    { destruct (Gemini.queue_arrival_times s); [reflexivity|].
      simpl length in H1. lia. }
    eexists. split; [reflexivity|]. simpl. rewrite Hq in *.
    simpl in *. repeat split; try lia.
Qed.

Lemma gemini_iteration_labels (s s' : gstate) :
  gemini_consistent s -> gemini_labels_ok s ->
  iteration s = Some s' -> gemini_labels_ok s'.
Proof.
  unfold gemini_consistent, gemini_labels_ok.
  intros (H1 & H2 & H3 & H4 & H5 & H6) (L1 & L2 & L3).
  assert (Hall : forall x, (Gemini.total_arrivals s <= x)%Z ->
                 Forall (fun a => (a <= x)%Z) (Gemini.customer_indices s)).
  { intros x Hx. apply Forall_forall. intros a Ha.
    apply In_nth_error in Ha. destruct Ha as [j Hj].
    specialize (L3 j a Hj). lia. }
  assert (Hsnoc : forall x,
            (Z.of_nat (length (Gemini.customer_indices s)) + 1 <= x)%Z ->
            (Gemini.total_arrivals s <= x)%Z ->
            forall j c,
              nth_error (Gemini.customer_indices s ++ [x]) j = Some c ->
              (Z.of_nat j + 1 <= c <= x)%Z).
  { intros x Hx1 Hx2 j c Hj.
    destruct (Nat.lt_ge_cases j (length (Gemini.customer_indices s)))
      as [Hlt|Hge].
    - rewrite nth_error_app1 in Hj by exact Hlt.
      specialize (L3 j c Hj). lia.
    - rewrite nth_error_app2 in Hj by exact Hge.
      destruct (j - length (Gemini.customer_indices s))%nat as [|m] eqn:Em.
      + simpl in Hj. injection Hj as <-. lia.
      + destruct m; discriminate. }
  gemini_cases s; intro E; try discriminate; injection E as <-; simpl.
  - split; [exact L1|]. split; [exact L2|].
    intros j c Hj. specialize (L3 j c Hj). lia.
  - rewrite !length_app, L1. split; [reflexivity|]. split.
    + apply StronglySorted_Z_snoc; [exact L2|]. apply Hall. lia.
    + destruct H3 as [_ Hq]. rewrite Hq in H4. simpl in H4.
      apply Hsnoc; lia.
  - unfold Gemini.dispatched in Hsel.
    apply select_departure_inv in Hsel. destruct Hsel as [Hd _].
    destruct (Gemini.server_busy s) eqn:Hbusy;
      [|destruct H3 as [H3 _]; congruence].
    rewrite !length_app, L1. split; [reflexivity|]. split.
    + apply StronglySorted_Z_snoc; [exact L2|]. apply Hall. lia.
    + simpl length in H4. apply Hsnoc; lia.
  - split; [exact L1|]. split; [exact L2|exact L3].
Qed.

Lemma gemini_iteration_waits (s s' : gstate) :
  gemini_consistent s ->
  Gemini.total_wait_time s == qsum (Gemini.wait_time_data s) ->
  iteration s = Some s' ->
  Gemini.total_wait_time s' == qsum (Gemini.wait_time_data s') /\
  Gemini.wait_time_data s' <> [] /\
  Gemini.avg_wait s'
  = Gemini.total_wait_time s' / len (Gemini.wait_time_data s').
Proof.
  unfold gemini_consistent. intros (H1 & H2 & H3 & H4 & H5 & H6) H.
  assert (Hne : forall (l : list Q) x, l ++ [x] <> [])
    by (intros l x E; apply app_eq_nil in E; destruct E; discriminate).
  assert (Hfin : forall (l : list Q) (tot d : Q),
            l <> [] -> tot == qsum l ->
            tot == qsum l /\ l <> [] /\
            match l with
            | [] => d
            | _ :: _ => tot / len l
            end = tot / len l).
  { intros l tot d Hl Ht. split; [exact Ht|]. split; [exact Hl|].
    destruct l; [congruence|reflexivity]. }
  assert (Hbusy_ne : Gemini.server_busy s = true ->
                     Gemini.wait_time_data s <> []).
  { intros Hb E. rewrite Hb, E in H5. simpl in H5. lia. }
  assert (Hdep : forall tn, Gemini.dispatched s = (Departure, tn) ->
                            Gemini.server_busy s = true).
  { intros tn Hsel. unfold Gemini.dispatched in Hsel.
    apply select_departure_inv in Hsel. destruct Hsel as [Hd _].
    destruct (Gemini.server_busy s); [reflexivity|].
    destruct H3 as [H3 _]. congruence. }
  gemini_cases s; intro E; try discriminate; injection E as <-; simpl;
    apply Hfin.
  - now apply Hbusy_ne.
  - exact H.
  - apply Hne.
  - rewrite qsum_app, H. ring.
  - apply Hne.
  - rewrite qsum_app, H. reflexivity.
  - apply Hbusy_ne. now apply (Hdep tn).
  - exact H.
Qed.

(** Everything that holds along a run of z___Gemini.py. *)
Lemma gemini_run_inv (k : nat) : forall s : gstate,
  gemini_consistent s -> gemini_labels_ok s ->
  Gemini.total_wait_time s == qsum (Gemini.wait_time_data s) ->
  exists s',
    run k s = Some s' /\
    gemini_consistent s' /\ gemini_labels_ok s' /\
    Gemini.total_wait_time s' == qsum (Gemini.wait_time_data s') /\
    (k = 0%nat \/
     (Gemini.wait_time_data s' <> [] /\
      Gemini.avg_wait s'
      = Gemini.total_wait_time s' / len (Gemini.wait_time_data s'))).
Proof.
  induction k as [|k IH]; intros s Hc Hl Hw.
  - exists s. split; [reflexivity|]. split; [exact Hc|].
    split; [exact Hl|]. split; [exact Hw|]. now left.
  - destruct (gemini_iteration_consistent s Hc) as (s1 & E1 & Hc1).
    pose proof (gemini_iteration_labels s s1 Hc Hl E1) as Hl1.
    destruct (gemini_iteration_waits s s1 Hc Hw E1) as (Hw1 & Hn1 & Ha1).
    destruct (IH s1 Hc1 Hl1 Hw1) as (s' & E & Hc' & Hl' & Hw' & Hk).
    exists s'. cbn [Gemini.run]. rewrite E1.
    split; [exact E|]. split; [exact Hc'|]. split; [exact Hl'|].
    split; [exact Hw'|]. right.
    destruct Hk as [->|Hk]; [|exact Hk].
    simpl in E. injection E as <-. now split.
Qed.

(** X20. z___Gemini.py never pops from an empty deque.  The guard of the
    service completion tests the counter [current_queue_len], not the
    deque; the counter is the length of the deque in every reachable
    state, so [popleft] cannot raise and every iteration completes; and
    [current_in_service], the height of the first bar, is [1] exactly
    when the server is busy. *)
Theorem gemini_never_pops_empty (g : gen) (k : nat) :
  exists s,
    run k (init g) = Some s /\
    Gemini.current_queue_len s
    = Z.of_nat (length (Gemini.queue_arrival_times s)) /\
    Gemini.current_in_service s
    = (if Gemini.server_busy s then 1 else 0)%Z /\
    (exists s', iteration s = Some s').
Proof.
  destruct (gemini_init_consistent g) as (Hc & Hl & Hw).
  destruct (gemini_run_inv k (init g) Hc Hl Hw) as (s & E & Hc' & _).
  exists s. split; [exact E|].
  destruct (gemini_iteration_consistent s Hc') as (s' & E' & _).
  destruct Hc' as (H1 & H2 & _).
  split; [exact H1|]. split; [exact H2|]. now exists s'.
Qed.

(** X21. z___Gemini.py conserves customers and its server never idles
    while a customer waits: in every reachable state the wait line plus
    the customer in service are the arrivals minus the services
    completed, the recorded waits are those of the customers served and
    of the one in service, and an idle server has no departure scheduled
    and nobody waiting. *)
Theorem gemini_customers_conserved (g : gen) (k : nat) :
  exists s,
    run k (init g) = Some s /\
    (Z.of_nat (length (Gemini.queue_arrival_times s))
     + Gemini.current_in_service s
     = Gemini.total_arrivals s - Gemini.total_served s)%Z /\
    (Z.of_nat (length (Gemini.wait_time_data s))
     = Gemini.total_served s + Gemini.current_in_service s)%Z /\
    ((Gemini.server_busy s = true /\
      exists d, Gemini.next_departure s = Fin d) \/
     (Gemini.server_busy s = false /\ Gemini.next_departure s = Inf /\
      Gemini.queue_arrival_times s = [])).
Proof.
  destruct (gemini_init_consistent g) as (Hc & Hl & Hw).
  destruct (gemini_run_inv k (init g) Hc Hl Hw) as (s & E & Hc' & _).
  exists s. split; [exact E|].
  destruct Hc' as (_ & H2 & H3 & H4 & H5 & _). rewrite H2.
  split; [exact H4|]. split; [exact H5|].
  destruct (Gemini.server_busy s); [left|right]; now split.
Qed.

(** X22. The average of z___Gemini.py is the mean of the bars it draws.
    [total_wait_time] is the sum of [wait_time_data] (the zero waits
    appended on arrival add nothing), and after every iteration
    [wait_time_data] is not empty and [avg_wait] is
    [total_wait_time / len(wait_time_data)]. *)
Theorem gemini_average_is_mean_of_waits (g : gen) (k : nat) :
  exists s,
    run (S k) (init g) = Some s /\
    Gemini.total_wait_time s == qsum (Gemini.wait_time_data s) /\
    Gemini.wait_time_data s <> [] /\
    Gemini.avg_wait s
    == qsum (Gemini.wait_time_data s) / len (Gemini.wait_time_data s).
Proof.
  destruct (gemini_init_consistent g) as (Hc & Hl & Hw).
  destruct (gemini_run_inv (S k) (init g) Hc Hl Hw)
    as (s & E & _ & _ & Hw' & [Hk|[Hn Ha]]); [discriminate|].
  exists s. split; [exact E|]. split; [exact Hw'|]. split; [exact Hn|].
  rewrite Ha, Hw'. reflexivity.
Qed.

(** X23. The labels of the history chart of z___Gemini.py.  The chart
    gets two lists of the same length; the label appended with a wait is
    the number of arrivals so far, so the labels never decrease, none
    exceeds the number of arrivals, and the label of the [j]-th customer
    to begin service (counting from 1) is at least [j]: it is the
    customer's own number only when nobody arrived while the customer
    waited. *)
Theorem gemini_history_labels (g : gen) (k : nat) :
  exists s,
    run k (init g) = Some s /\
    gemini_labels_ok s /\
    length (Gemini.customer_indices s) = length (Gemini.wait_time_data s) /\
    Forall (fun c => (1 <= c <= Gemini.total_arrivals s)%Z)
      (Gemini.customer_indices s).
Proof.
  destruct (gemini_init_consistent g) as (Hc & Hl & Hw).
  destruct (gemini_run_inv k (init g) Hc Hl Hw) as (s & E & _ & Hl' & _).
  exists s. split; [exact E|]. split; [exact Hl'|].
  destruct Hl' as (L1 & _ & L3). split; [exact L1|].
  apply Forall_forall. intros c Hin.
  apply In_nth_error in Hin. destruct Hin as [j Hj].
  specialize (L3 j c Hj). lia.
Qed.

End GeminiFacts.

(** The labels need not be the customers' numbers: with the durations
    below the second and the third customer begin service after three
    arrivals, and both bars are drawn at position 3. *)
Lemma gemini_labels_example :
  option_map Gemini.customer_indices
    (Gemini.run replay 5 (Gemini.init replay [1; 1; 10; 1; 20; 1; 1]))
  = Some [1; 3; 3]%Z.
Proof. vm_compute. reflexivity. Qed.

(** * Properties of z___ChatGPT.py *)

Section ChatGPTFacts.

Variable gen : Type.
Variable exponential : Q -> gen -> Q * gen.

Local Abbreviation state := (Final.state gen).
Local Abbreviation init := (ChatGPT.init exponential).
Local Abbreviation step := (ChatGPT.step exponential).
Local Abbreviation run := (ChatGPT.run exponential).

(** One iteration, branch by branch: arrival to a busy server, arrival
    to an idle server, departure leaving an empty wait line, departure
    that starts the next service. *)
Ltac chatgpt_cases s :=
  unfold ChatGPT.step, ChatGPT.arrival, ChatGPT.departure;
  destruct (Final.dispatched s) as [[|] tn] eqn:Hsel;
  [ destruct (Final.server_busy s) eqn:Hbusy; cbn [negb];
    [ destruct (exponential ChatGPT.INTERARRIVAL_MEAN (Final.rng s))
        as [A_i g1] eqn:EA
    | destruct (exponential ChatGPT.SERVICE_MEAN (Final.rng s))
        as [S_i g1] eqn:ES;
      destruct (exponential ChatGPT.INTERARRIVAL_MEAN g1)
        as [A_i g2] eqn:EA ]
  | destruct (Final.queue s) as [|a rest] eqn:Hq;
    [ | destruct (exponential ChatGPT.SERVICE_MEAN (Final.rng s))
          as [S_i g1] eqn:ES ] ];
  simpl.

Lemma chatgpt_init_fields (g : gen) :
  Final.sched_ok (init g) /\ Final.conserved (init g) /\
  Final.starts_counted (init g) /\
  Final.last_event_time (init g) = Final.t (init g) /\
  Final.area_Q (init g)
  == qsum (Final.delays (init g))
     + pending_wait (Final.t (init g)) (Final.queue (init g)).
Proof.
  unfold ChatGPT.init.
  destruct (exponential ChatGPT.INTERARRIVAL_MEAN g) as [A1 g1].
  unfold Final.sched_ok, Final.conserved, Final.starts_counted, qsum.
  simpl. now repeat split.
Qed.

Lemma chatgpt_step_inv (s : state) :
  Final.sched_ok s -> Final.conserved s -> Final.starts_counted s ->
  Final.last_event_time s = Final.t s ->
  Final.area_Q s
  == qsum (Final.delays s) + pending_wait (Final.t s) (Final.queue s) ->
  Final.sched_ok (step s) /\ Final.conserved (step s) /\
  Final.starts_counted (step s) /\
  Final.last_event_time (step s) = Final.t (step s) /\
  Final.area_Q (step s)
  == qsum (Final.delays (step s))
     + pending_wait (Final.t (step s)) (Final.queue (step s)).
Proof.
  unfold Final.sched_ok, Final.conserved, Final.starts_counted.
  intros Hs Hc Hd Hl H.
  pose proof (pending_wait_shift (Final.t s)) as Hshift.
  assert (Hdep : forall tn, Final.dispatched s = (Departure, tn) ->
                            Final.server_busy s = true).
  { intros tn Hsel. apply final_dispatched_departure in Hsel.
    destruct Hsel as [E _]. destruct (Final.server_busy s); [reflexivity|].
    destruct Hs as [Hs _]. congruence. }
  chatgpt_cases s; rewrite ?Hl.
  - split; [exact Hs|]. rewrite length_app. simpl.
    split; [lia|]. split; [exact Hd|]. split; [reflexivity|].
    rewrite pending_wait_app, (Hshift tn), H. ring.
  - split; [eexists; reflexivity|]. rewrite length_app. simpl.
    split; [lia|]. split; [lia|]. split; [reflexivity|].
    rewrite qsum_app, (Hshift tn), H. ring.
  - rewrite (Hdep tn eq_refl) in Hc, Hd. simpl in Hc.
    split; [now split|]. simpl. split; [lia|]. split; [lia|].
    split; [reflexivity|]. rewrite H. simpl. unfold len; simpl. ring.
  - rewrite (Hdep tn eq_refl) in Hc, Hd |- *. simpl length in Hc.
    split; [eexists; reflexivity|]. rewrite length_app. simpl.
    split; [lia|]. split; [lia|]. split; [reflexivity|].
    rewrite qsum_app, H.
    pose proof (Hshift tn (a :: rest)) as E.
    simpl pending_wait in E |- *. lra.
Qed.

Lemma chatgpt_run_inv (k : nat) : forall s : state,
  Final.sched_ok s -> Final.conserved s -> Final.starts_counted s ->
  Final.last_event_time s = Final.t s ->
  Final.area_Q s
  == qsum (Final.delays s) + pending_wait (Final.t s) (Final.queue s) ->
  Final.sched_ok (run k s) /\ Final.conserved (run k s) /\
  Final.starts_counted (run k s) /\
  Final.area_Q (run k s)
  == qsum (Final.delays (run k s))
     + pending_wait (Final.t (run k s)) (Final.queue (run k s)).
Proof.
  induction k as [|k IH]; intros s Hs Hc Hd Hl H.
  - simpl. now repeat split.
  - destruct (chatgpt_step_inv s Hs Hc Hd Hl H)
      as (Hs1 & Hc1 & Hd1 & Hl1 & H1).
    exact (IH (step s) Hs1 Hc1 Hd1 Hl1 H1).
Qed.

(** X24. z___ChatGPT.py keeps the laws of the queue.  In every reachable
    state: the customers in the system are the arrivals minus the
    departures; the server is busy with a departure scheduled, or idle
    with none and nobody waiting; [delays] has one entry per customer
    served or in service; and the area under [Q(t)] is the sum of
    [delays] plus the time that the customers in the wait line have
    waited so far. *)
Theorem chatgpt_keeps_queue_laws (g : gen) (k : nat) :
  let s := run k (init g) in
  Final.conserved s /\
  ((Final.server_busy s = true /\ exists d, Final.next_departure s = Fin d) \/
   (Final.server_busy s = false /\ Final.next_departure s = Inf /\
    Final.queue s = [])) /\
  Final.starts_counted s /\
  Final.area_Q s
  == qsum (Final.delays s) + pending_wait (Final.t s) (Final.queue s).
Proof.
  intro s.
  destruct (chatgpt_init_fields g) as (Hs0 & Hc0 & Hd0 & Hl0 & H0).
  destruct (chatgpt_run_inv k (init g) Hs0 Hc0 Hd0 Hl0 H0)
    as (Hs & Hc & Hd & H).
  fold s in Hs, Hc, Hd, H.
  split; [exact Hc|]. split; [|split; [exact Hd|exact H]].
  unfold Final.sched_ok in Hs.
  destruct (Final.server_busy s); [left|right]; now split.
Qed.

End ChatGPTFacts.

(** ** z___ChatGPT.py and Final.py *)

Lemma chatgpt_step_draws (gen : Type) (exponential : Q -> gen -> Q * gen)
  (s : Final.state (gen * nat)) :
  let s' := ChatGPT.step (counted exponential) s in
  (Z.of_nat (snd (Final.rng s')) - Final.num_arrivals s'
   - Z.of_nat (length (Final.delays s'))
   = Z.of_nat (snd (Final.rng s)) - Final.num_arrivals s
     - Z.of_nat (length (Final.delays s)))%Z.
Proof.
  unfold ChatGPT.step, ChatGPT.arrival, ChatGPT.departure, counted.
  destruct (Final.dispatched s) as [[|] tn].
  - destruct (Final.server_busy s); cbn [negb].
    + destruct (exponential ChatGPT.INTERARRIVAL_MEAN (fst (Final.rng s))).
      cbn [Final.rng Final.num_arrivals Final.delays fst snd]. lia.
    + destruct (exponential ChatGPT.SERVICE_MEAN (fst (Final.rng s)))
        as [S_i g1]. cbn [fst snd].
      destruct (exponential ChatGPT.INTERARRIVAL_MEAN g1).
      cbn [Final.rng Final.num_arrivals Final.delays fst snd].
      rewrite length_app. cbn [length]. lia.
  - destruct (Final.queue s) as [|a rest].
    + cbn [Final.rng Final.num_arrivals Final.delays fst snd]. lia.
    + destruct (exponential ChatGPT.SERVICE_MEAN (fst (Final.rng s))).
      cbn [Final.rng Final.num_arrivals Final.delays fst snd].
      rewrite length_app. cbn [length]. lia.
Qed.

Lemma final_step_draws (gen : Type) (exponential : Q -> gen -> Q * gen)
  (s : Final.state (gen * nat)) :
  let s' := Final.step (counted exponential) s in
  let extra (x : Final.state (gen * nat)) :=
    (Z.of_nat (snd (Final.rng x)) - Final.num_arrivals x
     - Z.of_nat (length (Final.delays x)))%Z in
  (extra s <= extra s' /\
   extra s' - Final.num_served s' <= extra s - Final.num_served s)%Z.
Proof.
  unfold Final.step, Final.arrival, Final.departure, counted.
  destruct (Final.dispatched s) as [[|] tn].
  - destruct (exponential Final.INTERARRIVAL_MEAN (fst (Final.rng s)))
      as [A_i g1]. cbn [fst snd].
    destruct (Final.server_busy s); cbn [negb].
    + cbn [Final.rng Final.num_arrivals Final.num_served Final.delays
           fst snd]. lia.
    + destruct (exponential Final.SERVICE_MEAN g1).
      cbn [Final.rng Final.num_arrivals Final.num_served Final.delays
           fst snd].
      rewrite length_app. cbn [length]. lia.
  - destruct (exponential Final.SERVICE_MEAN (fst (Final.rng s))).
    destruct (Final.queue s) as [|a rest];
      cbn [Final.rng Final.num_arrivals Final.num_served Final.delays
           fst snd];
      rewrite ?length_app; cbn [length]; lia.
Qed.

(** X25. The variates that the two scripts consume.  Run on a source
    that counts its calls, z___ChatGPT.py has made, after any number of
    iterations, exactly one call for the first arrival, one for each
    arrival processed and one for each service start.  Final.py has made
    at least as many, and at most one more for each departure: it draws a
    service time at every departure, also when nobody is waiting to use
    it. *)
Theorem variates_consumed (gen : Type) (exponential : Q -> gen -> Q * gen)
  (g : gen) (k : nat) :
  let c := ChatGPT.run (counted exponential) k
             (ChatGPT.init (counted exponential) (g, 0%nat)) in
  let f := Final.run (counted exponential) k
             (Final.init (counted exponential) (g, 0%nat)) in
  (Z.of_nat (snd (Final.rng c))
   = 1 + Final.num_arrivals c + Z.of_nat (length (Final.delays c)))%Z /\
  (1 + Final.num_arrivals f + Z.of_nat (length (Final.delays f))
   <= Z.of_nat (snd (Final.rng f))
   <= 1 + Final.num_arrivals f + Z.of_nat (length (Final.delays f))
      + Final.num_served f)%Z.
Proof.
  intros c f. split.
  - assert (G : forall n (s : Final.state (gen * nat)),
              (Z.of_nat (snd (Final.rng (ChatGPT.run (counted exponential)
                                           n s)))
               - Final.num_arrivals (ChatGPT.run (counted exponential) n s)
               - Z.of_nat (length (Final.delays
                                     (ChatGPT.run (counted exponential)
                                        n s)))
               = Z.of_nat (snd (Final.rng s)) - Final.num_arrivals s
                 - Z.of_nat (length (Final.delays s)))%Z).
    { induction n as [|n IH]; intro s; [reflexivity|].
      cbn [ChatGPT.run]. rewrite IH. apply chatgpt_step_draws. }
    specialize (G k (ChatGPT.init (counted exponential) (g, 0%nat))).
    fold c in G. revert G.
    unfold ChatGPT.init, counted; cbn [fst snd].
    destruct (exponential ChatGPT.INTERARRIVAL_MEAN g).
    cbn [Final.rng Final.num_arrivals Final.delays fst snd length]. lia.
  - assert (G : forall n (s : Final.state (gen * nat)),
              let r := Final.run (counted exponential) n s in
              (Z.of_nat (snd (Final.rng s)) - Final.num_arrivals s
               - Z.of_nat (length (Final.delays s))
               <= Z.of_nat (snd (Final.rng r)) - Final.num_arrivals r
                  - Z.of_nat (length (Final.delays r)) /\
               Z.of_nat (snd (Final.rng r)) - Final.num_arrivals r
               - Z.of_nat (length (Final.delays r)) - Final.num_served r
               <= Z.of_nat (snd (Final.rng s)) - Final.num_arrivals s
                  - Z.of_nat (length (Final.delays s))
                  - Final.num_served s)%Z).
    { induction n as [|n IH]; intro s; [simpl; lia|].
      cbv zeta. cbn [Final.run].
      pose proof (IH (Final.step (counted exponential) s)) as H1.
      pose proof (final_step_draws gen exponential s) as H2.
      cbv beta zeta in H1, H2. lia. }
    specialize (G k (Final.init (counted exponential) (g, 0%nat))).
    cbv zeta in G. fold f in G. revert G.
    unfold Final.init, counted; cbn [fst snd].
    destruct (exponential Final.INTERARRIVAL_MEAN g).
    cbn [Final.rng Final.num_arrivals Final.num_served Final.delays
         fst snd length]. lia.
Qed.

Lemma chatgpt_final_step_sim (gen : Type)
  (exponential : Q -> gen -> Q * gen) (s1 s2 : Final.state gen) :
  (forall scale g1 g2,
     fst (exponential scale g1) = fst (exponential scale g2)) ->
  final_sim (fun _ _ => True) s1 s2 ->
  final_sim (fun _ _ => True)
    (ChatGPT.step exponential s1) (Final.step exponential s2).
Proof.
  intros Hconst H.
  assert (Hsel : Final.dispatched s1 = Final.dispatched s2).
  { destruct H as (_ & _ & _ & _ & Ha & Hd & _).
    unfold Final.dispatched. now rewrite Ha, Hd. }
  destruct H as (_ & Ht & Hq & Hb & Ha & Hd & Hna & Hns & Hdl & Har
                 & Hl & He).
  unfold ChatGPT.step, Final.step. rewrite <- Hsel.
  destruct (Final.dispatched s1) as [[|] tn].
  - unfold ChatGPT.arrival, Final.arrival. rewrite <- Hb.
    destruct (Final.server_busy s1) eqn:Hbusy; cbn [negb].
    + pose proof (Hconst Final.INTERARRIVAL_MEAN (Final.rng s1)
                    (Final.rng s2)) as Hv.
      change ChatGPT.INTERARRIVAL_MEAN with Final.INTERARRIVAL_MEAN.
      destruct (exponential Final.INTERARRIVAL_MEAN (Final.rng s1))
        as [x1 g1].
      destruct (exponential Final.INTERARRIVAL_MEAN (Final.rng s2))
        as [x2 g2].
      simpl in Hv. subst x2. unfold final_sim; simpl.
      rewrite Hq, Hd, Hna, Hns, Hdl, Har, Hl, He. now repeat split.
    + change ChatGPT.INTERARRIVAL_MEAN with Final.INTERARRIVAL_MEAN.
      change ChatGPT.SERVICE_MEAN with Final.SERVICE_MEAN.
      destruct (exponential Final.SERVICE_MEAN (Final.rng s1))
        as [y1 g1] eqn:E1.
      destruct (exponential Final.INTERARRIVAL_MEAN g1)
        as [x1 g1'] eqn:E2.
      destruct (exponential Final.INTERARRIVAL_MEAN (Final.rng s2))
        as [x2 g2] eqn:E3.
      destruct (exponential Final.SERVICE_MEAN g2) as [y2 g2'] eqn:E4.
      assert (x1 = x2).
      { pose proof (Hconst Final.INTERARRIVAL_MEAN g1 (Final.rng s2)) as Hv.
        now rewrite E2, E3 in Hv. }
      assert (y1 = y2).
      { pose proof (Hconst Final.SERVICE_MEAN (Final.rng s1) g2) as Hv.
        now rewrite E1, E4 in Hv. }
      subst x2 y2. unfold final_sim; simpl.
      rewrite Hq, Hna, Hns, Hdl, Har, Hl, He. now repeat split.
  - unfold ChatGPT.departure, Final.departure. rewrite <- Hq.
    change ChatGPT.SERVICE_MEAN with Final.SERVICE_MEAN.
    destruct (exponential Final.SERVICE_MEAN (Final.rng s2))
      as [y2 g2] eqn:E2.
    destruct (Final.queue s1) as [|a rest].
    + unfold final_sim; simpl.
      rewrite Ha, Hna, Hns, Hdl, Har, Hl, He. now repeat split.
    + destruct (exponential Final.SERVICE_MEAN (Final.rng s1))
        as [y1 g1] eqn:E1.
      assert (y1 = y2).
      { pose proof (Hconst Final.SERVICE_MEAN (Final.rng s1)
                      (Final.rng s2)) as Hv.
        now rewrite E1, E2 in Hv. }
      subst y2. unfold final_sim; simpl.
      rewrite Hb, Ha, Hna, Hns, Hdl, Har, Hl, He. now repeat split.
Qed.

(** X26. z___ChatGPT.py is the engine of Final.py with the variates
    drawn in another order.  On a source whose variates depend on the
    requested mean only (constant interarrival and service times), the
    two scripts are, after any number of iterations, in states that agree
    on every variable but the generator. *)
Theorem chatgpt_is_final_up_to_draw_order (gen : Type)
  (exponential : Q -> gen -> Q * gen) (g : gen) (k : nat)
  (Hconst : forall scale g1 g2,
     fst (exponential scale g1) = fst (exponential scale g2)) :
  final_sim (fun _ _ => True)
    (ChatGPT.run exponential k (ChatGPT.init exponential g))
    (Final.run exponential k (Final.init exponential g)).
Proof.
  assert (G : forall n s1 s2,
            final_sim (fun _ _ => True) s1 s2 ->
            final_sim (fun _ _ => True)
              (ChatGPT.run exponential n s1) (Final.run exponential n s2)).
  { induction n as [|n IH]; intros s1 s2 H; [exact H|].
    cbn [ChatGPT.run Final.run]. apply IH.
    now apply chatgpt_final_step_sim. }
  apply G. unfold ChatGPT.init, Final.init.
  change ChatGPT.INTERARRIVAL_MEAN with Final.INTERARRIVAL_MEAN.
  destruct (exponential Final.INTERARRIVAL_MEAN g).
  unfold final_sim; simpl. now repeat split.
Qed.

Lemma chatgpt_is_final_up_to_draw_order_witness :
  (forall (scale : Q) (g1 g2 : unit),
     fst (scale, g1) = fst (scale, g2)) /\
  Final.delays
    (ChatGPT.run (fun scale g => (scale, g)) 9
       (ChatGPT.init (fun scale g => (scale, g)) tt))
  = Final.delays
      (Final.run (fun scale g => (scale, g)) 9
         (Final.init (fun scale g => (scale, g)) tt)).
Proof.
  assert (H : forall (scale : Q) (g1 g2 : unit),
            fst (scale, g1) = fst (scale, g2)) by reflexivity.
  split; [exact H|].
  destruct (chatgpt_is_final_up_to_draw_order unit
              (fun scale g => (scale, g)) tt 9%nat H)
    as (_ & _ & _ & _ & _ & _ & _ & _ & Hd & _).
  exact Hd.
Defined.

(** On a source whose variates differ from call to call the two scripts
    part at the first event: the first service time is the second
    variate in z___ChatGPT.py and the third in Final.py. *)
Lemma chatgpt_differs_from_final_on_same_seed :
  Final.next_departure (ChatGPT.step ramp (ChatGPT.init ramp 0%nat))
  = Fin (2 + 2) /\
  Final.next_departure (Final.step ramp (Final.init ramp 0%nat))
  = Fin (2 + 3).
Proof. vm_compute. split; reflexivity. Qed.
